(** * hand_gesture_music: the gesture-to-note pipeline of [app.js]

    A shallow embedding of [src/app.js] and the proofs of its specified
    properties.

    - JavaScript numbers are IEEE 754 binary64 values: Rocq's primitive
      [float], whose operations are specified bit for bit by the standard
      library ([Prim2SF], [FloatAxioms]).  [Math.pow(d, 2)] is taken as the
      correctly rounded square [d * d].
    - Arrays are lists; reading a missing element gives [undefined], and
      reading a property of [undefined] throws, which the pure functions
      show as [None] and the stateful ones as [Thrown].
    - The script's globals ([synth], [isPlaying], [lastNoteTime],
      [currentNotes], [lastFingerPositions]) are the fields of [State];
      [setTimeout] adds a task to the [timers] of the state, and the calls
      made on Tone.js synthesizer objects are recorded in its [trace].
    - Canvas drawing, console logging, the debug panel and the button
      attributes have no influence on the above and are left out. *)

From Stdlib Require Import ZArith Lia Bool List String Floats.
Import ListNotations.
Set Warnings "-inexact-float".

Local Open Scope string_scope.
Local Open Scope list_scope.
Local Open Scope Z_scope.

(** ** JavaScript numbers *)

(** [a > b] *)
Definition gt (a b : float) : bool := (b <? a)%float.

Definition Math_abs (d : float) : float := abs d.

Definition Math_sqrt (d : float) : float := sqrt d.

(** [Math.pow(d, 2)] *)
Definition Math_pow2 (d : float) : float := (d * d)%float.

(** The number whose value is the integer [z] (exact for [|z| < 2^53]). *)
Definition Z2F (z : Z) : float :=
  match z with
  | Z0 => 0%float
  | Zpos _ => of_uint63 (Uint63.of_Z z)
  | Zneg p => (- of_uint63 (Uint63.of_Z (Zpos p)))%float
  end.

(** [array.length] as a number *)
Definition Number_of_nat (n : nat) : float := Z2F (Z.of_nat n).

(** [Math.floor]: NaN, the infinities, the zeros and the numbers without
    fractional bits are returned as they are. *)
Definition Math_floor (d : float) : float :=
  match Prim2SF d with
  | S754_finite s m e =>
      if 0 <=? e then d else Z2F (Z.shiftr (cond_Zopp s (Zpos m)) (- e))
  | _ => d
  end.

(** [Math.max] and [Math.min] of two arguments: NaN if either is NaN, and
    [-0] counts as smaller than [+0]. *)
Definition Math_max (a b : float) : float :=
  if is_nan a || is_nan b then nan
  else if (a <? b)%float then b
  else if (b <? a)%float then a
  else if get_sign a then b else a.

Definition Math_min (a b : float) : float :=
  if is_nan a || is_nan b then nan
  else if (a <? b)%float then a
  else if (b <? a)%float then b
  else if get_sign a then a else b.

(** The array index a number denotes when used as a property key: the
    whole numbers from zero up ([-0] is the key "0"); no other number names
    an element. *)
Definition array_index (d : float) : option Z :=
  match Prim2SF d with
  | S754_zero _ => Some 0
  | S754_finite false m e =>
      if 0 <=? e then Some (Zpos m * 2 ^ e)
      else if Zpos m mod 2 ^ (- e) =? 0 then Some (Zpos m / 2 ^ (- e)) else None
  | _ => None
  end.

(** A note name or [undefined]. *)
Inductive value : Type :=
| undefined
| str (s : string).

(** [array[d]] on an array of strings *)
Definition array_get (array : list string) (d : float) : value :=
  match array_index d with
  | Some k =>
      if k <? Z.of_nat (List.length array)
      then match nth_error array (Z.to_nat k) with
           | Some s => str s
           | None => undefined
           end
      else undefined
  | None => undefined
  end.

(** ** Exact values of numbers (used in the proofs only)

    [SFval d] is the value of [d] in units of [2^-1074], the smallest
    positive binary64 number, so that every finite value is an integer; the
    infinities are placed beyond every finite value. *)

Definition unit1074 : Z := 2 ^ 1074.

Definition Vinf : Z := 2 ^ 2100.

Definition SFval (d : spec_float) : Z :=
  match d with
  | S754_zero _ => 0
  | S754_infinity s => cond_Zopp s Vinf
  | S754_nan => 0
  | S754_finite s m e => cond_Zopp s (Zpos m * 2 ^ (e + 1074))
  end.

Definition Fval (d : float) : Z := SFval (Prim2SF d).

Definition SFis_nan (d : spec_float) : bool :=
  match d with S754_nan => true | _ => false end.

Definition shr_exact (m : Z) : shr_record :=
  {| shr_m := m; shr_r := false; shr_s := false |}.

(** The number 8 *)
Definition SF8 : spec_float := S754_finite false 4503599627370496 (-49).

(** [Math.max(0, Math.min(7, q))] on integers *)
Definition clampZ (q : Z) : Z := Z.max 0 (Z.min 7 q).

(** ** Data model *)

Module Landmark.
Record t : Type := { x : float; y : float; z : float }.
End Landmark.

(** The record [calculateFingerPositions] pushes for each finger. *)
Module Finger.
Record t : Type := {
  x : float;
  y : float;
  z : float;
  relativeX : float;
  relativeY : float;
  relativeZ : float;
  extension : float;
  height : float
}.
End Finger.

(** [scales] *)
Definition cMajor : list string := ["C4"; "D4"; "E4"; "F4"; "G4"; "A4"; "B4"; "C5"].
Definition gMajor : list string := ["G3"; "A3"; "B3"; "C4"; "D4"; "E4"; "F#4"; "G4"].
Definition fMajor : list string := ["F3"; "G3"; "A3"; "Bb3"; "C4"; "D4"; "E4"; "F4"].
Definition dMinor : list string := ["D3"; "E3"; "F3"; "G3"; "A3"; "Bb3"; "C4"; "D4"].
Definition aMinor : list string := ["A3"; "B3"; "C4"; "D4"; "E4"; "F4"; "G4"; "A4"].

Definition scales : list (string * list string) :=
  [("cMajor", cMajor); ("gMajor", gMajor); ("fMajor", fMajor);
   ("dMinor", dMinor); ("aMinor", aMinor)].

(** [let currentScale = scales.cMajor], never assigned again *)
Definition currentScale : list string := cMajor.

(** ** Finger Geometry Extractor *)

Definition fingerTips : list nat := [4; 8; 12; 16; 20]%nat.
Definition fingerBases : list nat := [2; 5; 9; 13; 17]%nat.
Definition wristIndex : nat := 0%nat.

(** One turn of the loop of [calculateFingerPositions]. *)
Definition fingerPosition (landmarks : list Landmark.t) (tipIndex baseIndex : nat)
  : option Finger.t :=
  match nth_error landmarks tipIndex, nth_error landmarks baseIndex,
        nth_error landmarks wristIndex with
  | Some tip, Some base, Some wrist =>
      let extension :=
        Math_sqrt (Math_pow2 (Landmark.x tip - Landmark.x base)
                   + Math_pow2 (Landmark.y tip - Landmark.y base)
                   + Math_pow2 (Landmark.z tip - Landmark.z base))%float in
      let height := (1 - Landmark.y tip)%float in
      Some {| Finger.x := Landmark.x tip;
              Finger.y := Landmark.y tip;
              Finger.z := Landmark.z tip;
              Finger.relativeX := (Landmark.x tip - Landmark.x wrist)%float;
              Finger.relativeY := (Landmark.y tip - Landmark.y wrist)%float;
              Finger.relativeZ := (Landmark.z tip - Landmark.z wrist)%float;
              Finger.extension := extension;
              Finger.height := height |}
  | _, _, _ => None
  end.

Fixpoint positions_loop (landmarks : list Landmark.t) (indices : list (nat * nat))
    (positions : list Finger.t) : option (list Finger.t) :=
  match indices with
  | [] => Some positions
  | (tipIndex, baseIndex) :: rest =>
      match fingerPosition landmarks tipIndex baseIndex with
      | Some p => positions_loop landmarks rest (positions ++ [p])
      | None => None
      end
  end.

Definition calculateFingerPositions (landmarks : list Landmark.t)
  : option (list Finger.t) :=
  positions_loop landmarks (combine fingerTips fingerBases) [].

(** ** Motion Detector *)

Definition movementThreshold : float := 0.015%float.
Definition palmMovementThreshold : float := 0.02%float.

(** The distance between two tip positions, written out three times in the
    source (detector, palm test, debug panel). *)
Definition tipDistance (current last : Finger.t) : float :=
  Math_sqrt (Math_pow2 (Finger.x current - Finger.x last)
             + Math_pow2 (Finger.y current - Finger.y last)
             + Math_pow2 (Finger.z current - Finger.z last))%float.

Definition extensionChangeOf (current last : Finger.t) : float :=
  Math_abs (Finger.extension current - Finger.extension last)%float.

Fixpoint palm_loop (indices : list nat) (currentPositions lastPositions : list Finger.t)
    (totalMovement : float) : option float :=
  match indices with
  | [] => Some totalMovement
  | i :: rest =>
      match nth_error currentPositions i, nth_error lastPositions i with
      | Some current, Some last =>
          palm_loop rest currentPositions lastPositions
                    (totalMovement + tipDistance current last)%float
      | _, _ => None
      end
  end.

Definition isPalmMovingSignificantly (currentPositions lastPositions : list Finger.t)
  : option bool :=
  let fingerBases := [0; 1; 2; 3; 4]%nat in
  match palm_loop fingerBases currentPositions lastPositions 0%float with
  | Some totalMovement =>
      let avgPalmMovement := (totalMovement / Number_of_nat (List.length fingerBases))%float in
      Some (gt avgPalmMovement palmMovementThreshold)
  | None => None
  end.

Fixpoint detect_loop (indices : list nat) (currentPositions lastPositions : list Finger.t)
    (movedFingers : list nat) : option (list nat) :=
  match indices with
  | [] => Some movedFingers
  | i :: rest =>
      match nth_error currentPositions i, nth_error lastPositions i with
      | Some current, Some last =>
          let extensionChange := extensionChangeOf current last in
          let tipMovement := tipDistance current last in
          if gt extensionChange (movementThreshold * 0.8)%float
             || gt tipMovement movementThreshold
          then
            match isPalmMovingSignificantly currentPositions lastPositions with
            | Some isPalmMovement =>
                if negb isPalmMovement || gt extensionChange (movementThreshold * 1.5)%float
                then detect_loop rest currentPositions lastPositions (movedFingers ++ [i])
                else detect_loop rest currentPositions lastPositions movedFingers
            | None => None
            end
          else detect_loop rest currentPositions lastPositions movedFingers
      | _, _ => None
      end
  end.

Definition detectFingerMovement (currentPositions lastPositions : list Finger.t)
  : option (list nat) :=
  detect_loop [0; 1; 2; 3; 4]%nat currentPositions lastPositions [].

(** ** Pitch Mapper (the body of the loop of [playNotesForFingers]) *)

Definition clampedNoteIndex (scale : list string) (height : float) : float :=
  let noteIndex := Math_floor (height * Number_of_nat (List.length scale))%float in
  Math_max 0 (Math_min (Number_of_nat (List.length scale) - 1)%float noteIndex).

Definition noteForHeight (scale : list string) (height : float) : value :=
  array_get scale (clampedNoteIndex scale height).

Fixpoint notes_loop (movedFingers : list nat) (fingerPositions : list Finger.t)
    (notesToPlay : list value) : option (list value) :=
  match movedFingers with
  | [] => Some notesToPlay
  | fingerIndex :: rest =>
      match nth_error fingerPositions fingerIndex with
      | Some position =>
          let note := noteForHeight currentScale (Finger.height position) in
          notes_loop rest fingerPositions (notesToPlay ++ [note])
      | None => None
      end
  end.

(** ** Synthesizer handles

    [synth] only ever holds an object built by a Tone.js constructor: the
    [create] functions of [instruments] and the fallback [new Tone.Synth()].
    Tone.js is not part of the repository.  What the script relies on is the
    method set of each class, which it probes at run time: every instrument
    has [triggerAttack], [triggerRelease], [triggerAttackRelease] and
    [dispose]; [releaseAll] exists on the classes that sound several notes
    at once ([Tone.Sampler], [Tone.PolySynth]) and not on the monophonic
    ones ([Tone.MonoSynth], [Tone.Synth]).  The script itself uses them so:
    it calls [triggerAttackRelease] with a chord on every instrument but
    the bass, and falls back to [triggerRelease] "for monophonic synths
    like MonoSynth". *)

Inductive ToneClass : Type :=
| Sampler
| PolySynth
| MonoSynth
| BasicSynth.  (* Tone.Synth *)

(** A voice that supports concurrent notes. *)
Definition polyphonic (c : ToneClass) : bool :=
  match c with
  | Sampler | PolySynth => true
  | MonoSynth | BasicSynth => false
  end.

(** The argument of a note-start call: one note or an array of notes. *)
Inductive NoteArg : Type :=
| OneNote (note : value)
| Chord (notes : list value).

(** What the library does is not known to the script: whether a note-start
    call throws is a property of the handle. *)
Record Behaviour : Type := {
  attack_throws : NoteArg -> bool;
  attackRelease_throws : NoteArg -> bool
}.

Record Synth : Type := {
  class : ToneClass;
  behaviour : Behaviour
}.

Definition has_releaseAll (s : Synth) : bool := polyphonic (class s).
Definition has_triggerRelease (s : Synth) : bool := true.
Definition has_triggerAttack (s : Synth) : bool := true.
Definition has_triggerAttackRelease (s : Synth) : bool := true.
Definition has_dispose (s : Synth) : bool := true.

(** [instruments]: the class each [create] constructs. *)
Definition instruments (name : string) : option ToneClass :=
  if (name =? "piano")%string then Some Sampler
  else if (name =? "synth")%string then Some PolySynth
  else if (name =? "marimba")%string then Some PolySynth
  else if (name =? "guitar")%string then Some PolySynth
  else if (name =? "bass")%string then Some MonoSynth
  else None.

(** The calls that reach a synthesizer, in the order they are made. *)
Inductive Call : Type :=
| releaseAll
| triggerRelease
| triggerAttack (notes : NoteArg)
| triggerAttackRelease (notes : NoteArg) (duration : string)
| dispose
| fallbackTestNote.  (* [fallbackSynth.triggerAttackRelease("C4", "8n")] *)

(** ** Program state *)

(** The callbacks handed to [setTimeout]. *)
Inductive Task : Type :=
| StartNotes (notesToPlay : list value)
| AutoReleaseBass
| TestNote (selectedInstrument : string).

Record State : Type := {
  synth : option Synth;
  isPlaying : bool;
  lastNoteTime : float;
  currentNotes : list value;
  lastFingerPositions : option (list Finger.t);
  instrumentSelect : string;  (* [instrumentSelect.value] *)
  cameraRunning : bool;
  timers : list (Z * Task);  (* delay in ms, callback *)
  trace : list Call
}.

Definition set_synth (v : option Synth) (st : State) : State :=
  {| synth := v; isPlaying := isPlaying st; lastNoteTime := lastNoteTime st;
     currentNotes := currentNotes st; lastFingerPositions := lastFingerPositions st;
     instrumentSelect := instrumentSelect st; cameraRunning := cameraRunning st;
     timers := timers st; trace := trace st |}.

Definition set_isPlaying (v : bool) (st : State) : State :=
  {| synth := synth st; isPlaying := v; lastNoteTime := lastNoteTime st;
     currentNotes := currentNotes st; lastFingerPositions := lastFingerPositions st;
     instrumentSelect := instrumentSelect st; cameraRunning := cameraRunning st;
     timers := timers st; trace := trace st |}.

Definition set_lastNoteTime (v : float) (st : State) : State :=
  {| synth := synth st; isPlaying := isPlaying st; lastNoteTime := v;
     currentNotes := currentNotes st; lastFingerPositions := lastFingerPositions st;
     instrumentSelect := instrumentSelect st; cameraRunning := cameraRunning st;
     timers := timers st; trace := trace st |}.

Definition set_currentNotes (v : list value) (st : State) : State :=
  {| synth := synth st; isPlaying := isPlaying st; lastNoteTime := lastNoteTime st;
     currentNotes := v; lastFingerPositions := lastFingerPositions st;
     instrumentSelect := instrumentSelect st; cameraRunning := cameraRunning st;
     timers := timers st; trace := trace st |}.

Definition set_lastFingerPositions (v : option (list Finger.t)) (st : State) : State :=
  {| synth := synth st; isPlaying := isPlaying st; lastNoteTime := lastNoteTime st;
     currentNotes := currentNotes st; lastFingerPositions := v;
     instrumentSelect := instrumentSelect st; cameraRunning := cameraRunning st;
     timers := timers st; trace := trace st |}.

Definition set_instrumentSelect (v : string) (st : State) : State :=
  {| synth := synth st; isPlaying := isPlaying st; lastNoteTime := lastNoteTime st;
     currentNotes := currentNotes st; lastFingerPositions := lastFingerPositions st;
     instrumentSelect := v; cameraRunning := cameraRunning st;
     timers := timers st; trace := trace st |}.

Definition set_cameraRunning (v : bool) (st : State) : State :=
  {| synth := synth st; isPlaying := isPlaying st; lastNoteTime := lastNoteTime st;
     currentNotes := currentNotes st; lastFingerPositions := lastFingerPositions st;
     instrumentSelect := instrumentSelect st; cameraRunning := v;
     timers := timers st; trace := trace st |}.

Definition set_timers (v : list (Z * Task)) (st : State) : State :=
  {| synth := synth st; isPlaying := isPlaying st; lastNoteTime := lastNoteTime st;
     currentNotes := currentNotes st; lastFingerPositions := lastFingerPositions st;
     instrumentSelect := instrumentSelect st; cameraRunning := cameraRunning st;
     timers := v; trace := trace st |}.

Definition set_trace (v : list Call) (st : State) : State :=
  {| synth := synth st; isPlaying := isPlaying st; lastNoteTime := lastNoteTime st;
     currentNotes := currentNotes st; lastFingerPositions := lastFingerPositions st;
     instrumentSelect := instrumentSelect st; cameraRunning := cameraRunning st;
     timers := timers st; trace := v |}.

(** The state when the script has loaded; [selected] is the instrument the
    page's select element shows. *)
Definition initial (selected : string) : State :=
  {| synth := None; isPlaying := false; lastNoteTime := 0%float;
     currentNotes := []; lastFingerPositions := None;
     instrumentSelect := selected; cameraRunning := false;
     timers := []; trace := [] |}.

(** ** Statements that change the state and may throw *)

Inductive Result (A : Type) : Type :=
| Returned (a : A) (st : State)
| Thrown (st : State).

Arguments Returned {A} a st.
Arguments Thrown {A} st.

Definition M (A : Type) : Type := State -> Result A.

Definition ret {A : Type} (a : A) : M A := fun st => Returned a st.

Definition bind {A B : Type} (m : M A) (k : A -> M B) : M B :=
  fun st =>
    match m st with
    | Returned a st' => k a st'
    | Thrown st' => Thrown st'
    end.

Definition throw {A : Type} : M A := fun st => Thrown st.

(** [try { body } catch { handler }] *)
Definition tryCatch {A : Type} (body handler : M A) : M A :=
  fun st =>
    match body st with
    | Returned a st' => Returned a st'
    | Thrown st' => handler st'
    end.

Definition get : M State := fun st => Returned st st.

Definition modify (f : State -> State) : M unit := fun st => Returned tt (f st).

(** A value that must not be [undefined] where it is used. *)
Definition defined {A : Type} (o : option A) : M A :=
  match o with
  | Some a => ret a
  | None => throw
  end.

Notation "x <- m ;; k" := (bind m (fun x => k))
  (at level 61, m at next level, right associativity).
Notation "m ;; k" := (bind m (fun _ => k))
  (at level 61, right associativity).

(** The state a statement leaves behind, returned or thrown. *)
Definition final {A : Type} (r : Result A) : State :=
  match r with
  | Returned _ st => st
  | Thrown st => st
  end.

Definition threw {A : Type} (r : Result A) : bool :=
  match r with
  | Returned _ _ => false
  | Thrown _ => true
  end.

Definition call (c : Call) : M unit := modify (fun st => set_trace (trace st ++ [c]) st).

Definition setTimeout (task : Task) (delay : Z) : M unit :=
  modify (fun st => set_timers (timers st ++ [(delay, task)]) st).

(** [synth.triggerAttack(notes)] *)
Definition do_triggerAttack (s : Synth) (notes : NoteArg) : M unit :=
  if negb (has_triggerAttack s) || attack_throws (behaviour s) notes then throw
  else call (triggerAttack notes).

(** [synth.triggerAttackRelease(notes, duration)] *)
Definition do_triggerAttackRelease (s : Synth) (notes : NoteArg) (duration : string)
  : M unit :=
  if negb (has_triggerAttackRelease s) || attackRelease_throws (behaviour s) notes
  then throw
  else call (triggerAttackRelease notes duration).

(** [if (synth.releaseAll) synth.releaseAll();
     else if (synth.triggerRelease) synth.triggerRelease();] *)
Definition releaseNotes (s : Synth) : M unit :=
  if has_releaseAll s then call releaseAll
  else if has_triggerRelease s then call triggerRelease
  else ret tt.

(** ** Playback Controller *)

Definition playNotesForFingers (movedFingers : list nat)
    (fingerPositions : list Finger.t) : M unit :=
  st <- get ;;
  match synth st with
  | Some s =>
      if (0 <? List.length (currentNotes st))%nat
      then releaseNotes s ;; modify (set_currentNotes [])
      else ret tt
  | None => ret tt
  end ;;
  notesToPlay <- defined (notes_loop movedFingers fingerPositions []) ;;
  st <- get ;;
  match synth st with
  | Some _ =>
      if (0 <? List.length notesToPlay)%nat
      then setTimeout (StartNotes notesToPlay) 10
      else ret tt
  | None => ret tt
  end.

(** The callback of the 10 ms timer of [playNotesForFingers]. *)
Definition startNotes (notesToPlay : list value) : M unit :=
  tryCatch
    (st <- get ;;
     s <- defined (synth st) ;;
     (if has_triggerAttack s && negb (has_triggerAttackRelease s)
      then do_triggerAttack s (Chord notesToPlay)
      else if has_triggerAttack s
      then do_triggerAttack s (OneNote (hd undefined notesToPlay))
      else ret tt) ;;
     modify (set_currentNotes notesToPlay) ;;
     modify (set_isPlaying true) ;;
     st <- get ;;
     if (instrumentSelect st =? "bass")%string
     then setTimeout AutoReleaseBass 800
     else ret tt)
    (tryCatch
       (st <- get ;;
        s <- defined (synth st) ;;
        if (List.length notesToPlay =? 1)%nat
        then do_triggerAttackRelease s (OneNote (hd undefined notesToPlay)) "8n"
        else do_triggerAttackRelease s (Chord notesToPlay) "8n")
       (ret tt)).

(** The callback of the 800 ms timer set for the bass. *)
Definition autoReleaseBass : M unit :=
  st <- get ;;
  match synth st with
  | Some s =>
      if has_triggerRelease s && isPlaying st then call triggerRelease else ret tt
  | None => ret tt
  end.

(** The callback of the 500 ms timer of [changeInstrument];
    [contextRunning] is [Tone.context.state === 'running'], and
    [fallbackCreated] is what [new Tone.Synth().toDestination()] builds in
    the catch block; [None] when it throws.  Nothing catches what the catch
    block throws. *)
Definition testNote (selectedInstrument : string) (contextRunning : bool)
    (fallbackCreated : option Behaviour) : M unit :=
  if contextRunning then
    tryCatch
      (st <- get ;;
       s <- defined (synth st) ;;
       if (selectedInstrument =? "bass")%string
       then do_triggerAttackRelease s (OneNote (str "C3")) "8n"
       else do_triggerAttackRelease s (Chord [str "C4"; str "E4"; str "G4"]) "8n")
      (b <- defined fallbackCreated ;;
       if attackRelease_throws b (OneNote (str "C4")) then throw
       else call fallbackTestNote)
  else ret tt.

Definition runTask (task : Task) (contextRunning : bool)
    (fallbackCreated : option Behaviour) : M unit :=
  match task with
  | StartNotes notesToPlay => startNotes notesToPlay
  | AutoReleaseBass => autoReleaseBass
  | TestNote selectedInstrument =>
      testNote selectedInstrument contextRunning fallbackCreated
  end.

Fixpoint remove_nth {A : Type} (k : nat) (l : list A) : list A :=
  match l, k with
  | [], _ => []
  | _ :: l', O => l'
  | a :: l', S k' => a :: remove_nth k' l'
  end.

(** The [k]-th pending timer fires. *)
Definition fireTimer (k : nat) (contextRunning : bool)
    (fallbackCreated : option Behaviour) : M unit :=
  st <- get ;;
  match nth_error (timers st) k with
  | Some (_, task) =>
      modify (set_timers (remove_nth k (timers st))) ;;
      runTask task contextRunning fallbackCreated
  | None => ret tt
  end.

(** ** Instrument and camera control *)

(** [created] is what [instruments[selectedInstrument].create()] builds and
    [fallbackCreated] what [new Tone.Synth()] builds; [None] when the
    constructor throws. *)
Definition changeInstrument (created fallbackCreated : option Behaviour) : M unit :=
  st <- get ;;
  let selectedInstrument := instrumentSelect st in
  match synth st with
  | Some s =>
      releaseNotes s ;;
      if has_dispose s then call dispose else ret tt
  | None => ret tt
  end ;;
  modify (set_isPlaying false) ;;
  modify (set_currentNotes []) ;;
  tryCatch
    (c <- defined (instruments selectedInstrument) ;;
     b <- defined created ;;
     modify (set_synth (Some {| class := c; behaviour := b |})) ;;
     setTimeout (TestNote selectedInstrument) 500)
    (b <- defined fallbackCreated ;;
     modify (set_synth (Some {| class := BasicSynth; behaviour := b |}))).

(** The click on the start button; [audioStarted] and [cameraStarted] tell
    whether [Tone.start()] and [camera.start()] resolve.  A rejection is
    reported with an alert and goes no further. *)
Definition startCamera (audioStarted : bool) (created fallbackCreated : option Behaviour)
    (cameraStarted : bool) : M unit :=
  if audioStarted then
    tryCatch
      (changeInstrument created fallbackCreated ;;
       if cameraStarted then modify (set_cameraRunning true) else ret tt)
      (ret tt)
  else ret tt.

Definition stopCamera : M unit :=
  modify (set_cameraRunning false) ;;
  st <- get ;;
  match synth st with
  | Some s => if has_releaseAll s then call releaseAll else throw
  | None => ret tt
  end.

(** ** Frame Orchestrator *)

(** [now] and [now'] are the two readings of [Tone.now()]. *)
Definition playMusicFromHandPosition (landmarks : list Landmark.t) (now now' : float)
  : M unit :=
  fingerPositions <- defined (calculateFingerPositions landmarks) ;;
  st <- get ;;
  match lastFingerPositions st with
  | Some lastPositions =>
      movedFingers <- defined (detectFingerMovement fingerPositions lastPositions) ;;
      if (0 <? List.length movedFingers)%nat && gt (now - lastNoteTime st)%float 0.1%float
      then playNotesForFingers movedFingers fingerPositions ;;
           modify (set_lastNoteTime now')
      else ret tt
  | None => ret tt
  end ;;
  modify (set_lastFingerPositions (Some fingerPositions)).

(** [multiHandLandmarks] is the tracker's list of hands ([undefined] counts
    as empty). *)
Definition onHandResults (multiHandLandmarks : list (list Landmark.t)) (now now' : float)
  : M unit :=
  match multiHandLandmarks with
  | landmarks :: _ => playMusicFromHandPosition landmarks now now'
  | [] =>
      st <- get ;;
      match synth st with
      | Some s =>
          if isPlaying st
          then releaseNotes s ;;
               modify (set_isPlaying false) ;;
               modify (set_currentNotes [])
          else ret tt
      | None => ret tt
      end
  end.

(** A run of [n] frames without a hand. *)
Fixpoint noHandRun (n : nat) (times : nat -> float) (st : State) : State :=
  match n with
  | O => st
  | S n' => noHandRun n' (fun k => times (S k))
              (final (onHandResults [] (times O) (times O) st))
  end.

(** ** The running program: what can happen, in any order *)

Inductive Input : Type :=
| StartCamera (audioStarted : bool) (created fallbackCreated : option Behaviour)
    (cameraStarted : bool)
| StopCamera
| SelectInstrument (name : string) (created fallbackCreated : option Behaviour)
| Frame (multiHandLandmarks : list (list Landmark.t)) (now now' : float)
| Timer (k : nat) (contextRunning : bool) (fallbackCreated : option Behaviour).

Definition handle (i : Input) : M unit :=
  match i with
  | StartCamera a c f k => startCamera a c f k
  | StopCamera => stopCamera
  | SelectInstrument name c f =>
      modify (set_instrumentSelect name) ;; changeInstrument c f
  | Frame hands now now' => onHandResults hands now now'
  | Timer k running fallback => fireTimer k running fallback
  end.

Inductive reachable (selected : string) : State -> Prop :=
| reach_initial : reachable selected (initial selected)
| reach_step (i : Input) (st : State) :
    reachable selected st -> reachable selected (final (handle i st)).

(** ** Reading aids for the statements *)

(** The test that makes a finger a candidate. *)
Definition candidateMoved (current last : Finger.t) : bool :=
  gt (extensionChangeOf current last) (0.8 * 0.015)%float
  || gt (tipDistance current last) 0.015%float.

(** The test that overrides the palm veto. *)
Definition strongBend (current last : Finger.t) : bool :=
  gt (extensionChangeOf current last) (1.5 * 0.015)%float.

Definition keepsFinger (currentPositions lastPositions : list Finger.t) (palm : bool)
    (i : nat) : bool :=
  match nth_error currentPositions i, nth_error lastPositions i with
  | Some current, Some last =>
      candidateMoved current last && (negb palm || strongBend current last)
  | _, _ => false
  end.

(** The frames of the end-to-end scenario, built on any five records. *)
Definition atRest (p : Finger.t) : Finger.t :=
  {| Finger.x := Finger.x p; Finger.y := 0.5%float; Finger.z := Finger.z p;
     Finger.relativeX := Finger.relativeX p; Finger.relativeY := Finger.relativeY p;
     Finger.relativeZ := Finger.relativeZ p;
     Finger.extension := 0.1%float; Finger.height := 0.5%float |}.

Definition raised (p : Finger.t) : Finger.t :=
  {| Finger.x := Finger.x p; Finger.y := (0.5 - 0.05)%float; Finger.z := Finger.z p;
     Finger.relativeX := Finger.relativeX p; Finger.relativeY := Finger.relativeY p;
     Finger.relativeZ := Finger.relativeZ p;
     Finger.extension := 0.2%float; Finger.height := (1 - (0.5 - 0.05))%float |}.

(** The stop call [releaseNotes] makes on a handle. *)
Definition released (s : Synth) : list Call :=
  if has_releaseAll s then [releaseAll]
  else if has_triggerRelease s then [triggerRelease]
  else [].

(** The state after the first statement of [playNotesForFingers]. *)
Definition afterRelease (st : State) : State :=
  match synth st with
  | Some s =>
      if (0 <? List.length (currentNotes st))%nat
      then set_currentNotes [] (set_trace (trace st ++ released s) st)
      else st
  | None => st
  end.

(** The state in which [playNotesForFingers] returns when it has resolved
    the notes [notesToPlay]. *)
Definition afterPlayNotes (notesToPlay : list value) (st : State) : State :=
  match synth st with
  | Some _ =>
      if (0 <? List.length notesToPlay)%nat
      then set_timers (timers (afterRelease st) ++ [(10, StartNotes notesToPlay)])
                      (afterRelease st)
      else afterRelease st
  | None => afterRelease st
  end.

(** The argument of the note-start call of [startNotes], and that of its
    fallback. *)
Definition attackArg (notesToPlay : list value) : NoteArg :=
  OneNote (hd undefined notesToPlay).

Definition fallbackArg (notesToPlay : list value) : NoteArg :=
  if (List.length notesToPlay =? 1)%nat
  then OneNote (hd undefined notesToPlay)
  else Chord notesToPlay.

(** The state after the try block of [startNotes] has run to its end. *)
Definition afterStart (notesToPlay : list value) (st : State) : State :=
  let st1 := set_isPlaying true
               (set_currentNotes notesToPlay
                  (set_trace (trace st ++ [triggerAttack (attackArg notesToPlay)]) st)) in
  if (instrumentSelect st =? "bass")%string
  then set_timers (timers st1 ++ [(800, AutoReleaseBass)]) st1
  else st1.

(** The state after the fallback of [startNotes]. *)
Definition afterFallback (s : Synth) (notesToPlay : list value) (st : State) : State :=
  if attackRelease_throws (behaviour s) (fallbackArg notesToPlay) then st
  else set_trace (trace st ++ [triggerAttackRelease (fallbackArg notesToPlay) "8n"]) st.

(** The state after a frame without a hand. *)
Definition afterNoHand (st : State) : State :=
  match synth st with
  | Some s =>
      if isPlaying st
      then set_currentNotes [] (set_isPlaying false (set_trace (trace st ++ released s) st))
      else st
  | None => st
  end.

(** What holds of every state the program reaches. *)
Definition Inv (st : State) : Prop :=
  (isPlaying st = true -> synth st <> None) /\
  (forall lastPositions,
      lastFingerPositions st = Some lastPositions -> List.length lastPositions = 5%nat).

(** ** Sample data

    Handles whose calls succeed (the polyphonic voice of the instrument
    "synth", the monophonic voice of the bass), a handle whose note-start
    call throws, frames of five fingers, and states built on them. *)
Definition quiet : Behaviour :=
  {| attack_throws := fun _ => false; attackRelease_throws := fun _ => false |}.

(** A voice that cannot start "G4" with [triggerAttack]. *)
Definition failing : Behaviour :=
  {| attack_throws := fun notes =>
       match notes with
       | OneNote (str s) => (s =? "G4")%string
       | _ => false
       end;
     attackRelease_throws := fun _ => false |}.

(** A voice whose [triggerAttackRelease] refuses an array of notes. *)
Definition noChords : Behaviour :=
  {| attack_throws := fun _ => false;
     attackRelease_throws := fun notes =>
       match notes with
       | Chord _ => true
       | OneNote _ => false
       end |}.

Definition polySynth : Synth := {| class := PolySynth; behaviour := quiet |}.

Definition bassSynth : Synth := {| class := MonoSynth; behaviour := quiet |}.

Definition failingSynth : Synth := {| class := PolySynth; behaviour := failing |}.

Definition fingerAt (x y extension : float) : Finger.t :=
  {| Finger.x := x; Finger.y := y; Finger.z := 0%float;
     Finger.relativeX := 0%float; Finger.relativeY := 0%float;
     Finger.relativeZ := 0%float;
     Finger.extension := extension; Finger.height := (1 - y)%float |}.

Definition restFrame : list Finger.t :=
  [fingerAt 0.3 0.5 0.1; fingerAt 0.4 0.5 0.1; fingerAt 0.5 0.5 0.1;
   fingerAt 0.6 0.5 0.1; fingerAt 0.7 0.5 0.1]%float.

(** Index finger raised to height 0.55, middle finger to height 0.8. *)
Definition twoFingerFrame : list Finger.t :=
  [fingerAt 0.3 0.5 0.1; fingerAt 0.4 0.45 0.2; fingerAt 0.5 0.2 0.2;
   fingerAt 0.6 0.5 0.1; fingerAt 0.7 0.5 0.1]%float.

(** The whole hand moved sideways by 0.03; the index finger bent a little
    (extension change 0.02), the middle finger a lot (0.1). *)
Definition shiftedFrame : list Finger.t :=
  [fingerAt 0.33 0.5 0.1; fingerAt 0.43 0.5 0.12; fingerAt 0.53 0.5 0.2;
   fingerAt 0.63 0.5 0.1; fingerAt 0.73 0.5 0.1]%float.

Definition withSynth (s : Synth) : State := set_synth (Some s) (initial "synth").

(** The voice [s] is sounding [note]. *)
Definition playing (s : Synth) (note : string) : State :=
  set_isPlaying true (set_currentNotes [str note] (withSynth s)).

(** A tracked hand: the wrist, and for each finger three joints at the
    height of its base and a tip; only the tip of the index finger varies. *)
Definition point (x y : float) : Landmark.t :=
  {| Landmark.x := x; Landmark.y := y; Landmark.z := 0%float |}.

Definition hand (indexTipY : float) : list Landmark.t :=
  [point 0.5 0.9;
   point 0.3 0.6; point 0.3 0.6; point 0.3 0.6; point 0.3 0.5;
   point 0.4 0.6; point 0.4 0.6; point 0.4 0.6; point 0.4 indexTipY;
   point 0.5 0.6; point 0.5 0.6; point 0.5 0.6; point 0.5 0.5;
   point 0.6 0.6; point 0.6 0.6; point 0.6 0.6; point 0.6 0.5;
   point 0.7 0.6; point 0.7 0.6; point 0.7 0.6; point 0.7 0.5]%float.

Fixpoint runInputs (inputs : list Input) (st : State) : State :=
  match inputs with
  | [] => st
  | i :: rest => runInputs rest (final (handle i st))
  end.



(** A session on the instrument "synth": the camera is started, the hand is
    seen, the index finger rises, and the 10 ms timer fires. *)
Definition session : list Input :=
  [StartCamera true (Some quiet) (Some quiet) true;
   Frame [hand 0.5] 1 1;
   Frame [hand 0.45] 1.2 1.2;
   Timer 1 true (Some quiet)]%float.

Definition sessionState : State := runInputs session (initial "synth").

Definition handPositions (indexTipY : float) : list Finger.t :=
  match calculateFingerPositions (hand indexTipY) with
  | Some positions => positions
  | None => []
  end.

(** The state once the camera runs and one frame has been seen. *)
Definition watching : State :=
  runInputs [StartCamera true (Some quiet) (Some quiet) true; Frame [hand 0.5] 1 1]%float
            (initial "synth").

(** Runs the statements of a computation in [M] on the state at hand. *)
Ltac run :=
  cbv [bind get ret throw tryCatch defined modify call setTimeout];
  cbn [synth isPlaying lastNoteTime currentNotes lastFingerPositions instrumentSelect
       cameraRunning timers trace set_synth set_isPlaying set_lastNoteTime
       set_currentNotes set_lastFingerPositions set_instrumentSelect
       set_cameraRunning set_timers set_trace final threw].

(** ** Drawing helpers

    The calls made on the canvas context, in order.  [options] is the
    object literal the caller passes; a property it lacks is [None]. *)

Inductive CanvasOp : Type :=
| save
| restore
| clearRect (x y w h : float)
| drawImage (x y w h : float)  (* of [results.image] *)
| beginPath
| moveTo (x y : float)
| lineTo (x y : float)
| set_strokeStyle (style : string)
| set_lineWidth (width : float)
| stroke
| arc (x y radius startAngle endAngle : float)
| set_fillStyle (style : string)
| fill.

Record DrawOptions : Type := {
  color : option string;
  lineWidth : option float
}.

(** A number counts as true unless it is [0], [-0] or NaN. *)
Definition truthy (d : float) : bool := negb (is_zero d || is_nan d).

(** [options.color || fallback] *)
Definition color_or (options : DrawOptions) (fallback : string) : string :=
  match color options with
  | Some c => if (c =? "")%string then fallback else c
  | None => fallback
  end.

(** [options.lineWidth || 2] *)
Definition lineWidth_or_2 (options : DrawOptions) : float :=
  match lineWidth options with
  | Some w => if truthy w then w else 2%float
  | None => 2%float
  end.

(** [options.lineWidth * 2 || 4]; an absent width makes the product NaN. *)
Definition radius_or_4 (options : DrawOptions) : float :=
  let product := match lineWidth options with
                 | Some w => (w * 2)%float
                 | None => nan
                 end in
  if truthy product then product else 4%float.

Definition Math_PI : float := 3.141592653589793%float.

Definition HAND_CONNECTIONS : list (nat * nat) :=
  [(0, 1); (1, 2); (2, 3); (3, 4);
   (0, 5); (5, 6); (6, 7); (7, 8);
   (5, 9); (9, 10); (10, 11); (11, 12);
   (9, 13); (13, 14); (14, 15); (15, 16);
   (13, 17); (17, 18); (18, 19); (19, 20);
   (0, 17); (5, 9); (9, 13); (13, 17)]%nat.

(** One turn of the loop of [drawConnectors]: a connection with a missing
    end is skipped. *)
Definition drawConnector (width height : float) (landmarks : list Landmark.t)
    (connection : nat * nat) (options : DrawOptions) : list CanvasOp :=
  match nth_error landmarks (fst connection), nth_error landmarks (snd connection) with
  | Some from, Some to =>
      [beginPath;
       moveTo (Landmark.x from * width)%float (Landmark.y from * height)%float;
       lineTo (Landmark.x to * width)%float (Landmark.y to * height)%float;
       set_strokeStyle (color_or options "white");
       set_lineWidth (lineWidth_or_2 options);
       stroke]
  | _, _ => []
  end.

(** [width] and [height] are those of the canvas. *)
Fixpoint drawConnectors (width height : float) (landmarks : list Landmark.t)
    (connections : list (nat * nat)) (options : DrawOptions) : list CanvasOp :=
  match connections with
  | [] => []
  | connection :: rest =>
      drawConnector width height landmarks connection options
      ++ drawConnectors width height landmarks rest options
  end.

Fixpoint drawLandmarks (width height : float) (landmarks : list Landmark.t)
    (options : DrawOptions) : list CanvasOp :=
  match landmarks with
  | [] => []
  | landmark :: rest =>
      [beginPath;
       arc (Landmark.x landmark * width)%float (Landmark.y landmark * height)%float
           (radius_or_4 options) 0%float (2 * Math_PI)%float;
       set_fillStyle (color_or options "red");
       fill]
      ++ drawLandmarks width height rest options
  end.

(** The body of the loop over the hands in [onHandResults]. *)
Definition drawHand (width height : float) (landmarks : list Landmark.t) : list CanvasOp :=
  drawConnectors width height landmarks HAND_CONNECTIONS
                 {| color := Some "#00FF00"; lineWidth := Some 5%float |}
  ++ drawLandmarks width height landmarks
                   {| color := Some "#FF0000"; lineWidth := Some 2%float |}.

(** The calls [onHandResults] makes on the canvas, [width] and [height]
    being those of the canvas element: the video frame, then every hand of
    the list, then - unless [playMusicFromHandPosition] has thrown -
    [restore]. *)
Definition onHandResults_canvas (width height : float)
    (multiHandLandmarks : list (list Landmark.t)) (now now' : float) (st : State)
  : list CanvasOp :=
  [save; clearRect 0 0 width height; drawImage 0 0 width height]
  ++ flat_map (drawHand width height) multiHandLandmarks
  ++ (if threw (onHandResults multiHandLandmarks now now' st) then [] else [restore]).

(** ** Debug panel

    The numbers [updateDebugInfo] shows under "Movement Detection" for each
    finger: the movement of the tip and the change of the extension, both
    against [lastFingerPositions] as it is when the panel is drawn.  The
    text around them is not modelled. *)
Fixpoint debug_loop (indices : list nat) (fingerPositions lastPositions : list Finger.t)
    (shown : list (float * float)) : option (list (float * float)) :=
  match indices with
  | [] => Some shown
  | i :: rest =>
      match nth_error fingerPositions i, nth_error lastPositions i with
      | Some current, Some last =>
          let extensionChange := extensionChangeOf current last in
          let movement := tipDistance current last in
          debug_loop rest fingerPositions lastPositions
                     (shown ++ [(movement, extensionChange)])
      | _, _ => None
      end
  end.

Definition updateDebugInfo (fingerPositions : list Finger.t) (st : State)
  : option (list (float * float)) :=
  match lastFingerPositions st with
  | Some lastPositions => debug_loop [0; 1; 2; 3; 4]%nat fingerPositions lastPositions []
  | None => Some []
  end.

(** ** More reading aids *)

(** The record [calculateFingerPositions] builds from a tip, a base and the
    wrist. *)
Definition fingerOf (tip base wrist : Landmark.t) : Finger.t :=
  {| Finger.x := Landmark.x tip;
     Finger.y := Landmark.y tip;
     Finger.z := Landmark.z tip;
     Finger.relativeX := (Landmark.x tip - Landmark.x wrist)%float;
     Finger.relativeY := (Landmark.y tip - Landmark.y wrist)%float;
     Finger.relativeZ := (Landmark.z tip - Landmark.z wrist)%float;
     Finger.extension :=
       Math_sqrt (Math_pow2 (Landmark.x tip - Landmark.x base)
                  + Math_pow2 (Landmark.y tip - Landmark.y base)
                  + Math_pow2 (Landmark.z tip - Landmark.z base))%float;
     Finger.height := (1 - Landmark.y tip)%float |}.

(** The list is strictly increasing and stays below [bound]. *)
Fixpoint increasing_below (bound : nat) (l : list nat) : Prop :=
  match l with
  | [] => True
  | i :: rest =>
      (i < bound)%nat /\ increasing_below bound rest /\
      match rest with
      | [] => True
      | j :: _ => (i < j)%nat
      end
  end.

(** The sign of a number is not negative (NaN and the zeros included). *)
Definition SFnot_negative (d : spec_float) : Prop :=
  match d with
  | S754_infinity true | S754_finite true _ _ => False
  | _ => True
  end.

(** A note the Pitch Mapper can return on the active scale. *)
Definition scaleNote (v : value) : Prop :=
  v = undefined \/ exists s, v = str s /\ In s currentScale.

(** What the script asks of a voice: [triggerAttack] with one note of the
    scale, never with a chord; [triggerAttackRelease] for an eighth note. *)
Definition expectedCall (c : Call) : Prop :=
  match c with
  | triggerAttack (OneNote v) => scaleNote v
  | triggerAttack (Chord _) => False
  | triggerAttackRelease _ duration => duration = "8n"
  | _ => True
  end.

(** The delay each callback is armed with. *)
Definition expectedTimer (timer : Z * Task) : Prop :=
  match snd timer with
  | StartNotes notesToPlay =>
      fst timer = 10 /\ notesToPlay <> [] /\ Forall scaleNote notesToPlay
  | AutoReleaseBass => fst timer = 800
  | TestNote _ => fst timer = 500
  end.

(** How many callbacks a pending timer can still lead to: a start of notes
    may arm the release of the bass. *)
Definition taskWeight (task : Task) : nat :=
  match task with
  | StartNotes _ => 2
  | AutoReleaseBass | TestNote _ => 1
  end.

Definition pendingWeight (pending : list (Z * Task)) : nat :=
  list_sum (map (fun timer => taskWeight (snd timer)) pending).

(** Timers fire one after another, each named by its position among the
    pending ones; [None] when a position names no pending timer. *)
Fixpoint fireTimers (ks : list nat) (contextRunning : bool)
    (fallbackCreated : option Behaviour) (st : State) : option State :=
  match ks with
  | [] => Some st
  | k :: rest =>
      if (k <? List.length (timers st))%nat
      then fireTimers rest contextRunning fallbackCreated
                      (final (fireTimer k contextRunning fallbackCreated st))
      else None
  end.

(** What holds of the calls made so far, of the pending timers and of the
    recorded notes in every state the program reaches. *)
Definition Settled (st : State) : Prop :=
  (synth st = None -> trace st = [] /\ timers st = [] /\ currentNotes st = []) /\
  (cameraRunning st = true -> synth st <> None) /\
  (currentNotes st <> [] -> isPlaying st = true) /\
  Forall scaleNote (currentNotes st) /\
  Forall expectedTimer (timers st) /\
  Forall expectedCall (trace st).

(** * Properties

    ** Binary64 arithmetic: comparison by exact value *)

Lemma digits2_pos_bounds (p : positive) :
  2 ^ (Zpos (digits2_pos p) - 1) <= Zpos p < 2 ^ Zpos (digits2_pos p).
Proof.
  induction p as [p IH | p IH |]; cbn [digits2_pos].
  - rewrite Pos2Z.inj_succ, (Pos2Z.inj_xI p).
    replace (Z.succ (Zpos (digits2_pos p)) - 1) with (Z.succ (Zpos (digits2_pos p) - 1)) by lia.
    rewrite !Z.pow_succ_r by lia.
    revert IH. generalize (2 ^ (Zpos (digits2_pos p) - 1)) (2 ^ Zpos (digits2_pos p)). lia.
  - rewrite Pos2Z.inj_succ, (Pos2Z.inj_xO p).
    replace (Z.succ (Zpos (digits2_pos p)) - 1) with (Z.succ (Zpos (digits2_pos p) - 1)) by lia.
    rewrite !Z.pow_succ_r by lia.
    revert IH. generalize (2 ^ (Zpos (digits2_pos p) - 1)) (2 ^ Zpos (digits2_pos p)). lia.
  - cbn. lia.
Qed.

Lemma valid_finite_bounds s m e :
  valid_binary (S754_finite s m e) = true ->
  -1074 <= e <= 971 /\ Zpos (digits2_pos m) <= 53 /\
  (-1074 < e -> Zpos (digits2_pos m) = 53).
Proof.
  cbn [SpecFloat.valid_binary].
  unfold bounded, canonical_mantissa, fexp, SpecFloat.emin, prec, emax.
  intros H. apply andb_prop in H. destruct H as [H1 H2].
  apply Z.eqb_eq in H1. apply Z.leb_le in H2. lia.
Qed.

Lemma finite_val_bounds s m e :
  valid_binary (S754_finite s m e) = true ->
  0 < Zpos m * 2 ^ (e + 1074) < 2 ^ 2098.
Proof.
  intros H. apply valid_finite_bounds in H. destruct H as (He & Hd & _).
  pose proof (digits2_pos_bounds m) as [_ Hm].
  assert (Hp : 0 < 2 ^ (e + 1074)) by (apply Z.pow_pos_nonneg; lia).
  split; [lia|].
  apply Z.lt_le_trans with (2 ^ 53 * 2 ^ (e + 1074)).
  - apply Z.mul_lt_mono_pos_r; [exact Hp|].
    eapply Z.lt_le_trans; [exact Hm|]. apply Z.pow_le_mono_r; lia.
  - rewrite <- Z.pow_add_r by lia. apply Z.pow_le_mono_r; lia.
Qed.

Lemma finite_val_lt_exp m1 e1 m2 e2 s1 s2 :
  valid_binary (S754_finite s1 m1 e1) = true ->
  valid_binary (S754_finite s2 m2 e2) = true ->
  e1 < e2 ->
  Zpos m1 * 2 ^ (e1 + 1074) < Zpos m2 * 2 ^ (e2 + 1074).
Proof.
  intros H1 H2 Hlt.
  apply valid_finite_bounds in H1. destruct H1 as (He1 & Hd1 & _).
  apply valid_finite_bounds in H2. destruct H2 as (He2 & _ & Hn2).
  pose proof (digits2_pos_bounds m1) as [_ Hm1].
  pose proof (digits2_pos_bounds m2) as [Hm2 _].
  rewrite Hn2 in Hm2 by lia. change (2 ^ (53 - 1)) with (2 ^ 52) in Hm2.
  assert (Hm1' : Zpos m1 < 2 ^ 53).
  { eapply Z.lt_le_trans; [exact Hm1|]. apply Z.pow_le_mono_r; lia. }
  assert (Hp : 0 < 2 ^ (e1 + 1074)) by (apply Z.pow_pos_nonneg; lia).
  replace (e2 + 1074) with ((e2 - e1 - 1) + 1 + (e1 + 1074)) by lia.
  rewrite (Z.pow_add_r 2 (e2 - e1 - 1 + 1) (e1 + 1074)) by lia.
  rewrite (Z.pow_add_r 2 (e2 - e1 - 1) 1) by lia.
  assert (Hq : 1 <= 2 ^ (e2 - e1 - 1)) by (apply (Z.pow_le_mono_r 2 0); lia).
  change (2 ^ 1) with 2.
  apply Z.lt_le_trans with (2 ^ 53 * 2 ^ (e1 + 1074)).
  - apply Z.mul_lt_mono_pos_r; assumption.
  - rewrite Z.mul_assoc. apply Z.mul_le_mono_nonneg_r; [lia|].
    change (2 ^ 53) with (2 ^ 52 * 1 * 2).
    apply Z.mul_le_mono_nonneg; lia.
Qed.

Lemma finite_val_lt_Vinf s m e :
  valid_binary (S754_finite s m e) = true ->
  0 < Zpos m * 2 ^ (e + 1074) < Vinf.
Proof.
  intros H. destruct (finite_val_bounds s m e H) as [H0 H1]. split; [exact H0|].
  eapply Z.lt_trans; [exact H1|]. vm_compute. reflexivity.
Qed.

Lemma SFcompare_val (x y : spec_float) :
  valid_binary x = true -> valid_binary y = true ->
  SFis_nan x = false -> SFis_nan y = false ->
  SFcompare x y = Some (SFval x ?= SFval y).
Proof.
  intros Vx Vy Nx Ny.
  assert (HI : 0 < Vinf) by reflexivity.
  destruct x as [sx | sx | | sx mx ex]; try discriminate Nx;
  destruct y as [sy | sy | | sy my ey]; try discriminate Ny; clear Nx Ny;
  try pose proof (finite_val_lt_Vinf _ _ _ Vx) as Bx;
  try pose proof (finite_val_lt_Vinf _ _ _ Vy) as By.
  all: cbn [SFcompare SFval cond_Zopp].
  all: try (destruct sx; cbn [cond_Zopp]); try (destruct sy; cbn [cond_Zopp]).
  all: try reflexivity.
  all: f_equal; symmetry.
  all: try (apply Z.compare_lt_iff; try revert Bx; try revert By; revert HI;
            generalize Vinf; lia).
  all: try (apply Z.compare_gt_iff; try revert Bx; try revert By; revert HI;
            generalize Vinf; lia).
  all: try (apply Z.compare_eq_iff; lia).
  - (* both negative *)
    rewrite Z.compare_opp.
    destruct (Z.compare_spec ex ey) as [E | L | G].
    + subst ey.
      rewrite <- Zmult_compare_compat_r
        by (apply Z.lt_gt, Z.pow_pos_nonneg; [lia| apply valid_finite_bounds in Vx; lia]).
      cbn [Z.compare]. apply Pos.compare_antisym.
    + apply Z.compare_gt_iff. eapply finite_val_lt_exp; eauto.
    + apply Z.compare_lt_iff. eapply finite_val_lt_exp; eauto.
  - (* both positive *)
    destruct (Z.compare_spec ex ey) as [E | L | G].
    + subst ey.
      rewrite <- Zmult_compare_compat_r
        by (apply Z.lt_gt, Z.pow_pos_nonneg; [lia| apply valid_finite_bounds in Vx; lia]).
      reflexivity.
    + apply Z.compare_lt_iff. eapply finite_val_lt_exp; eauto.
    + apply Z.compare_gt_iff. eapply finite_val_lt_exp; eauto.
Qed.

Lemma iter_pos_iter {A} (f : A -> A) (k : positive) (x : A) :
  iter_pos f k x = Pos.iter f x k.
Proof.
  revert x. induction k as [k IH | k IH |]; intros x; cbn [iter_pos Pos.iter].
  - rewrite !IH, !Pos.iter_swap. reflexivity.
  - rewrite !IH. reflexivity.
  - reflexivity.
Qed.

Lemma shr_strip_zeros (k p : positive) :
  iter_pos shr_1 k (shr_exact (Zpos (Pos.iter xO p k))) = shr_exact (Zpos p).
Proof.
  rewrite iter_pos_iter.
  induction k as [| k IH] using Pos.peano_ind.
  - reflexivity.
  - rewrite !Pos.iter_succ, <- Pos.iter_swap. exact IH.
Qed.

Lemma digits2_pos_shl (k p : positive) :
  Zpos (digits2_pos (Pos.iter xO p k)) = Zpos (digits2_pos p) + Zpos k.
Proof.
  induction k as [| k IH] using Pos.peano_ind.
  - cbn [Pos.iter digits2_pos]. lia.
  - rewrite Pos.iter_succ. cbn [digits2_pos]. lia.
Qed.

Lemma shr_fexp_canonical (p : positive) (e : Z) :
  canonical_mantissa prec emax p e = true ->
  shr_fexp prec emax (Zpos p) e loc_Exact = (shr_exact (Zpos p), e).
Proof.
  unfold canonical_mantissa, shr_fexp. intros H. apply Z.eqb_eq in H.
  cbn [Zdigits2]. rewrite H, Z.sub_diag. reflexivity.
Qed.

Lemma binary_round_aux_canonical (s : bool) (p : positive) (e : Z) :
  canonical_mantissa prec emax p e = true ->
  binary_round_aux prec emax s (Zpos p) e loc_Exact =
  if e <=? emax - prec then S754_finite s p e else S754_infinity s.
Proof.
  intros H. unfold binary_round_aux.
  rewrite (shr_fexp_canonical p e H).
  cbn [shr_exact shr_m loc_of_shr_record round_nearest_even].
  rewrite (shr_fexp_canonical p e H). reflexivity.
Qed.

Lemma binary_round_aux_shl (s : bool) (p k : positive) (e : Z) :
  canonical_mantissa prec emax p e = true ->
  binary_round_aux prec emax s (Zpos (Pos.iter xO p k)) (e - Zpos k) loc_Exact =
  if e <=? emax - prec then S754_finite s p e else S754_infinity s.
Proof.
  intros H. unfold binary_round_aux.
  assert (E : shr_fexp prec emax (Zpos (Pos.iter xO p k)) (e - Zpos k) loc_Exact
              = (shr_exact (Zpos p), e)).
  { unfold shr_fexp. cbn [Zdigits2]. rewrite digits2_pos_shl.
    unfold canonical_mantissa in H. apply Z.eqb_eq in H.
    replace (Zpos (digits2_pos p) + Zpos k + (e - Zpos k))
      with (Zpos (digits2_pos p) + e) by lia.
    rewrite H. replace (e - (e - Zpos k)) with (Zpos k) by lia.
    cbn [shr shr_record_of_loc]. fold (shr_exact (Zpos (Pos.iter xO p k))).
    rewrite shr_strip_zeros. f_equal. lia. }
  rewrite E.
  cbn [shr_exact shr_m loc_of_shr_record round_nearest_even].
  rewrite (shr_fexp_canonical p e H). reflexivity.
Qed.

Lemma SFmul8_finite (s : bool) (m : positive) (e : Z) :
  valid_binary (S754_finite s m e) = true ->
  exists r, SF64mul (S754_finite s m e) SF8 = r /\ SFis_nan r = false /\
     (SFval r = 8 * SFval (S754_finite s m e) \/
      (r = S754_infinity s /\ 2 ^ 2098 <= Zpos m * 2 ^ (e + 1074) * 8)).
Proof.
  intros V. pose proof (valid_finite_bounds _ _ _ V) as (He & Hd & Hn).
  unfold SF64mul, SFmul, SF8. rewrite xorb_false_r.
  rewrite (Pos.mul_comm m).
  assert (Hc : forall p e', Zpos (digits2_pos p) <= 53 ->
            e' = Z.max (Zpos (digits2_pos p) + e' - 53) (-1074) ->
            canonical_mantissa prec emax p e' = true).
  { intros p e' _ E. unfold canonical_mantissa, fexp, SpecFloat.emin, prec, emax.
    apply Z.eqb_eq. lia. }
  destruct (Z.eq_dec (Zpos (digits2_pos m)) 53) as [D53 | D53].
  - (* normal *)
    change (Zpos (4503599627370496 * m)) with (Zpos (Pos.iter xO m 52)).
    replace (e + -49) with ((e + 3) - 52) by lia.
    rewrite binary_round_aux_shl by (apply Hc; lia).
    destruct (Z.leb_spec (e + 3) (emax - prec)) as [L | G].
    + eexists; split; [reflexivity|split; [reflexivity|left]].
      cbn [SFval]. replace (e + 3 + 1074) with (3 + (e + 1074)) by lia.
      rewrite Z.pow_add_r by lia. destruct s; cbn [cond_Zopp]; lia.
    + eexists; split; [reflexivity|split; [reflexivity|right]]. split; [reflexivity|].
      unfold emax, prec in G.
      pose proof (digits2_pos_bounds m) as [Hm _]. rewrite D53 in Hm.
      change (2 ^ (53 - 1)) with (2 ^ 52) in Hm.
      apply Z.le_trans with (2 ^ 52 * 2 ^ (969 + 1074) * 8);
        [apply Z.leb_le; vm_compute; reflexivity|].
      apply Z.mul_le_mono_nonneg_r; [lia|].
      apply Z.mul_le_mono_nonneg; try lia.
      apply Z.pow_le_mono_r; lia.
  - (* subnormal *)
    assert (e = -1074) by lia. subst e.
    assert (Zpos (digits2_pos m) <= 50 \/ Zpos (digits2_pos m) = 51
            \/ Zpos (digits2_pos m) = 52) as [D | [D | D]] by lia.
    + change (Zpos (4503599627370496 * m)) with (Zpos (Pos.iter xO (m~0~0~0)%positive 49)).
      replace (-1074 + -49) with (-1074 - 49) by lia.
      rewrite binary_round_aux_shl by (apply Hc; cbn [digits2_pos]; lia).
      eexists; split; [reflexivity|split; [reflexivity|left]].
      change (-1074 <=? emax - prec) with true. cbv iota. cbn [SFval].
      change (2 ^ (-1074 + 1074)) with 1.
      change (Zpos m~0~0~0) with (8 * Zpos m).
      destruct s; cbn [cond_Zopp]; lia.
    + change (Zpos (4503599627370496 * m)) with (Zpos (Pos.iter xO (m~0~0)%positive 50)).
      replace (-1074 + -49) with (-1073 - 50) by lia.
      rewrite binary_round_aux_shl by (apply Hc; cbn [digits2_pos]; lia).
      eexists; split; [reflexivity|split; [reflexivity|left]].
      change (-1073 <=? emax - prec) with true. cbv iota. cbn [SFval].
      change (2 ^ (-1073 + 1074)) with 2. change (2 ^ (-1074 + 1074)) with 1.
      change (Zpos m~0~0) with (4 * Zpos m).
      destruct s; cbn [cond_Zopp]; lia.
    + change (Zpos (4503599627370496 * m)) with (Zpos (Pos.iter xO (m~0)%positive 51)).
      replace (-1074 + -49) with (-1072 - 51) by lia.
      rewrite binary_round_aux_shl by (apply Hc; cbn [digits2_pos]; lia).
      eexists; split; [reflexivity|split; [reflexivity|left]].
      change (-1072 <=? emax - prec) with true. cbv iota. cbn [SFval].
      change (2 ^ (-1072 + 1074)) with 4. change (2 ^ (-1074 + 1074)) with 1.
      change (Zpos m~0) with (2 * Zpos m).
      destruct s; cbn [cond_Zopp]; lia.
Qed.

Lemma SFcompare_refl (x : spec_float) :
  SFcompare x x = if SFis_nan x then None else Some Eq.
Proof.
  destruct x as [s | s | | s m e]; cbn [SFcompare SFis_nan]; try reflexivity.
  - destruct s; reflexivity.
  - rewrite Z.compare_refl. fold (Pos.compare m m). rewrite Pos.compare_refl.
    destruct s; reflexivity.
Qed.

Lemma is_nan_spec (x : float) : is_nan x = SFis_nan (Prim2SF x).
Proof.
  unfold is_nan. rewrite eqb_spec. unfold SFeqb. rewrite SFcompare_refl.
  destruct (SFis_nan (Prim2SF x)); reflexivity.
Qed.

Lemma compare_val (x y : float) :
  is_nan x = false -> is_nan y = false ->
  SFcompare (Prim2SF x) (Prim2SF y) = Some (Fval x ?= Fval y).
Proof.
  rewrite !is_nan_spec. intros Hx Hy.
  apply SFcompare_val; auto using Prim2SF_valid.
Qed.

Lemma ltb_val (x y : float) :
  is_nan x = false -> is_nan y = false ->
  (x <? y)%float = (Fval x <? Fval y).
Proof.
  intros Hx Hy. rewrite ltb_spec. unfold SFltb. rewrite (compare_val x y Hx Hy).
  unfold Z.ltb. destruct (Fval x ?= Fval y); reflexivity.
Qed.

Lemma leb_val (x y : float) :
  is_nan x = false -> is_nan y = false ->
  (x <=? y)%float = (Fval x <=? Fval y).
Proof.
  intros Hx Hy. rewrite leb_spec. unfold SFleb. rewrite (compare_val x y Hx Hy).
  unfold Z.leb. destruct (Fval x ?= Fval y); reflexivity.
Qed.

Lemma ltb_nan_l (x y : float) : is_nan x = true -> (x <? y)%float = false.
Proof.
  rewrite is_nan_spec, ltb_spec. unfold SFltb.
  destruct (Prim2SF x); try discriminate. reflexivity.
Qed.

Lemma ltb_nan_r (x y : float) : is_nan y = true -> (x <? y)%float = false.
Proof.
  rewrite is_nan_spec, ltb_spec. unfold SFltb.
  destruct (Prim2SF y); try discriminate. destruct (Prim2SF x); reflexivity.
Qed.

Lemma leb_nan_l (x y : float) : is_nan x = true -> (x <=? y)%float = false.
Proof.
  rewrite is_nan_spec, leb_spec. unfold SFleb.
  destruct (Prim2SF x); try discriminate. reflexivity.
Qed.

Lemma leb_nan_r (x y : float) : is_nan y = true -> (x <=? y)%float = false.
Proof.
  rewrite is_nan_spec, leb_spec. unfold SFleb.
  destruct (Prim2SF y); try discriminate. destruct (Prim2SF x); reflexivity.
Qed.

(** [x - x] is [+0] for every finite [x] and NaN otherwise. *)
Lemma float_sub_self (x : float) : (x - x)%float = 0%float \/ (x - x)%float = nan.
Proof.
  assert (H : Prim2SF (x - x) = S754_zero false \/ Prim2SF (x - x) = S754_nan).
  { rewrite sub_spec. unfold SF64sub, SFsub.
    destruct (Prim2SF x) as [s | s | | s m e]; try destruct s; auto.
    all: cbv zeta; rewrite Z.sub_diag; left; reflexivity. }
  destruct H as [H | H]; [left | right]; apply Prim2SF_inj; rewrite H; reflexivity.
Qed.

Lemma unit1074_pos : 0 < unit1074.
Proof. reflexivity. Qed.

Lemma Zpos_shl (k p : positive) : Zpos (Pos.iter xO p k) = Zpos p * 2 ^ Zpos k.
Proof.
  induction k as [| k IH] using Pos.peano_ind.
  - cbn [Pos.iter]. rewrite (Pos2Z.inj_xO p). change (2 ^ 1) with 2. lia.
  - rewrite Pos.iter_succ, (Pos2Z.inj_xO (Pos.iter xO p k)), IH, Pos2Z.inj_succ,
      Z.pow_succ_r by lia.
    lia.
Qed.

Lemma of_uint63_pos_spec (p : positive) :
  Zpos p < 2 ^ 53 ->
  let x := of_uint63 (Uint63.of_Z (Zpos p)) in
  is_nan x = false /\ Fval x = Zpos p * unit1074.
Proof.
  intros Hp x. unfold Fval. rewrite is_nan_spec. subst x.
  rewrite of_uint63_spec, Uint63.of_Z_spec.
  rewrite Z.mod_small by (split; [lia|]; eapply Z.lt_trans; [exact Hp | reflexivity]).
  cbn [binary_normalize]. unfold binary_round.
  pose proof (digits2_pos_bounds p) as [Hlo Hhi].
  assert (Hd : Zpos (digits2_pos p) <= 53).
  { destruct (Z.le_gt_cases (Zpos (digits2_pos p)) 53) as [L | G]; [exact L|].
    exfalso. assert (2 ^ 53 <= 2 ^ (Zpos (digits2_pos p) - 1)) by (apply Z.pow_le_mono_r; lia).
    lia. }
  assert (Hf : fexp prec emax (Zpos (digits2_pos p) + 0) = Zpos (digits2_pos p) - 53).
  { unfold fexp, SpecFloat.emin, prec, emax. lia. }
  rewrite Hf. unfold shl_align.
  destruct (Zpos (digits2_pos p) - 53 - 0) as [| q | q] eqn:E; try lia.
  - rewrite binary_round_aux_canonical.
    + replace (Zpos (digits2_pos p) - 53) with 0 by lia.
      change (0 <=? emax - prec) with true. cbv iota. cbn [SFis_nan SFval cond_Zopp].
      split; [reflexivity|]. reflexivity.
    + unfold canonical_mantissa. rewrite Hf. apply Z.eqb_eq. lia.
  - rewrite binary_round_aux_canonical.
    + replace (Zpos (digits2_pos p) - 53 <=? emax - prec) with true
        by (symmetry; apply Z.leb_le; unfold emax, prec; lia).
      split; [reflexivity|]. cbn [SFval cond_Zopp]. rewrite Zpos_shl.
      rewrite <- Z.mul_assoc, <- Z.pow_add_r by lia.
      unfold unit1074. do 2 f_equal. lia.
    + unfold canonical_mantissa, fexp, SpecFloat.emin, prec, emax.
      rewrite digits2_pos_shl. apply Z.eqb_eq. lia.
Qed.

Lemma SFval_opp (y : spec_float) : SFval (SFopp y) = - SFval y.
Proof. destruct y as [s | s | | s m e]; try destruct s; cbn; lia. Qed.

Lemma SFis_nan_opp (y : spec_float) : SFis_nan (SFopp y) = SFis_nan y.
Proof. destruct y; reflexivity. Qed.

Lemma Z2F_spec (z : Z) :
  Z.abs z < 2 ^ 53 ->
  is_nan (Z2F z) = false /\ Fval (Z2F z) = z * unit1074.
Proof.
  destruct z as [| p | p]; intros Hz.
  - split; reflexivity.
  - apply of_uint63_pos_spec. exact Hz.
  - cbn [Z2F]. destruct (of_uint63_pos_spec p Hz) as [Hn Hv].
    rewrite is_nan_spec in Hn |- *. unfold Fval in Hv |- *.
    rewrite opp_spec, SFis_nan_opp, SFval_opp, Hv. split; [exact Hn | lia].
Qed.

(** [Math_floor] rounds the exact value down to a whole number. *)
Lemma Math_floor_spec (x : float) :
  is_nan x = false ->
  is_nan (Math_floor x) = false /\
  Fval (Math_floor x) = Fval x / unit1074 * unit1074.
Proof.
  intros Hn. unfold Math_floor.
  pose proof (Prim2SF_valid x) as V.
  pose proof Hn as Hn'. rewrite is_nan_spec in Hn'.
  unfold Fval at 2.
  destruct (Prim2SF x) as [s | s | | s m e] eqn:E; try discriminate.
  - split; [exact Hn|]. unfold Fval. rewrite E. reflexivity.
  - split; [exact Hn|]. unfold Fval. rewrite E. destruct s; vm_compute; reflexivity.
  - pose proof (valid_finite_bounds _ _ _ V) as (He & Hd & _).
    destruct (Z.leb_spec 0 e) as [L | G].
    + split; [exact Hn|]. unfold Fval. rewrite E. cbn [SFval].
      replace (cond_Zopp s (Zpos m * 2 ^ (e + 1074)))
        with (cond_Zopp s (Zpos m * 2 ^ e) * unit1074).
      * rewrite Z.div_mul by (pose proof unit1074_pos; lia). reflexivity.
      * rewrite Z.pow_add_r by lia. unfold unit1074. destruct s; cbn [cond_Zopp]; lia.
    + assert (Hq : Z.shiftr (cond_Zopp s (Zpos m)) (- e)
                   = SFval (S754_finite s m e) / unit1074).
      { rewrite Z.shiftr_div_pow2 by lia. cbn [SFval].
        replace unit1074 with (2 ^ (- e) * 2 ^ (e + 1074))
          by (rewrite <- Z.pow_add_r by lia; unfold unit1074; f_equal; lia).
        replace (cond_Zopp s (Zpos m * 2 ^ (e + 1074)))
          with (cond_Zopp s (Zpos m) * 2 ^ (e + 1074))
          by (destruct s; cbn [cond_Zopp]; lia).
        rewrite Z.div_mul_cancel_r; [reflexivity| |];
          apply Z.neq_sym, Z.lt_neq, Z.pow_pos_nonneg; lia. }
      rewrite <- Hq. apply Z2F_spec.
      pose proof (digits2_pos_bounds m) as [_ Hm].
      assert (Hm' : Zpos m < 2 ^ 53).
      { eapply Z.lt_le_trans; [exact Hm|]. apply Z.pow_le_mono_r; lia. }
      rewrite Z.shiftr_div_pow2 by lia.
      assert (Hp : 0 < 2 ^ (- e)) by (apply Z.pow_pos_nonneg; lia).
      assert (H2 : 2 <= 2 ^ (- e)) by (apply (Z.pow_le_mono_r 2 1); lia).
      destruct s; cbn [cond_Zopp].
      * assert (- 2 ^ 53 < - Zpos m / 2 ^ (- e) <= 0); [|lia]. split.
        -- apply Z.lt_le_trans with (- Zpos m); [lia|].
           apply Z.div_le_lower_bound; [lia|]. nia.
        -- apply Z.div_le_upper_bound; lia.
      * assert (0 <= Zpos m / 2 ^ (- e) < 2 ^ 53); [|lia]. split.
        -- apply Z.div_pos; lia.
        -- apply Z.div_lt_upper_bound; [lia|]. nia.
Qed.

Lemma Math_min_spec (a b : float) :
  is_nan a = false -> is_nan b = false ->
  is_nan (Math_min a b) = false /\ Fval (Math_min a b) = Z.min (Fval a) (Fval b).
Proof.
  intros Ha Hb. unfold Math_min. rewrite Ha, Hb. cbn [orb].
  rewrite (ltb_val a b Ha Hb), (ltb_val b a Hb Ha).
  destruct (Z.ltb_spec (Fval a) (Fval b)); [split; [assumption | lia]|].
  destruct (Z.ltb_spec (Fval b) (Fval a)); [split; [assumption | lia]|].
  destruct (get_sign a); split; solve [assumption | lia].
Qed.

Lemma Math_max_spec (a b : float) :
  is_nan a = false -> is_nan b = false ->
  is_nan (Math_max a b) = false /\ Fval (Math_max a b) = Z.max (Fval a) (Fval b).
Proof.
  intros Ha Hb. unfold Math_max. rewrite Ha, Hb. cbn [orb].
  rewrite (ltb_val a b Ha Hb), (ltb_val b a Hb Ha).
  destruct (Z.ltb_spec (Fval a) (Fval b)); [split; [assumption | lia]|].
  destruct (Z.ltb_spec (Fval b) (Fval a)); [split; [assumption | lia]|].
  destruct (get_sign a); split; solve [assumption | lia].
Qed.

Lemma Math_min_nan (a b : float) :
  is_nan a || is_nan b = true -> Math_min a b = nan.
Proof. intros H. unfold Math_min. rewrite H. reflexivity. Qed.

Lemma Math_max_nan (a b : float) :
  is_nan a || is_nan b = true -> Math_max a b = nan.
Proof. intros H. unfold Math_max. rewrite H. reflexivity. Qed.

(** A number whose exact value is the whole number [k >= 0] is the array
    index [k]. *)
Lemma array_index_spec (x : float) (k : Z) :
  is_nan x = false -> 0 <= k -> Fval x = k * unit1074 -> k * unit1074 < Vinf ->
  array_index x = Some k.
Proof.
  intros Hn Hk Hv Hlt. unfold array_index. unfold Fval in Hv.
  pose proof (Prim2SF_valid x) as V. rewrite is_nan_spec in Hn.
  pose proof unit1074_pos as Hu.
  destruct (Prim2SF x) as [s | s | | s m e]; try discriminate; cbn [SFval] in Hv.
  - f_equal. nia.
  - exfalso. destruct s; cbn [cond_Zopp] in Hv; [|lia].
    assert (0 < Vinf) by reflexivity. nia.
  - pose proof (valid_finite_bounds _ _ _ V) as (He & _ & _).
    assert (Hp : 0 < 2 ^ (e + 1074)) by (apply Z.pow_pos_nonneg; lia).
    destruct s; cbn [cond_Zopp] in Hv; [exfalso; nia|].
    destruct (Z.leb_spec 0 e) as [L | G].
    + f_equal. rewrite Z.pow_add_r in Hv by lia. fold unit1074 in Hv.
      rewrite Z.mul_assoc in Hv. apply Z.mul_cancel_r in Hv; lia.
    + assert (Hm : Zpos m = k * 2 ^ (- e)).
      { replace unit1074 with (2 ^ (- e) * 2 ^ (e + 1074)) in Hv
          by (rewrite <- Z.pow_add_r by lia; unfold unit1074; f_equal; lia).
        rewrite Z.mul_assoc in Hv. apply Z.mul_cancel_r in Hv; lia. }
      assert (Hq : 0 < 2 ^ (- e)) by (apply Z.pow_pos_nonneg; lia).
      rewrite Hm, Z.mod_mul, Z.eqb_refl, Z.div_mul by lia. reflexivity.
Qed.

Lemma clamp_floor_spec (y : float) :
  is_nan y = false ->
  array_index (Math_max 0 (Math_min 7 (Math_floor y))) = Some (clampZ (Fval y / unit1074)).
Proof.
  intros Hn.
  destruct (Math_floor_spec y Hn) as [Hfn Hfv].
  destruct (Math_min_spec 7 (Math_floor y) eq_refl Hfn) as [Hmn Hmv].
  destruct (Math_max_spec 0 _ eq_refl Hmn) as [Hxn Hxv].
  pose proof unit1074_pos as Hu.
  assert (H7 : Fval 7 = 7 * unit1074) by (vm_compute; reflexivity).
  assert (H0 : Fval 0 = 0) by reflexivity.
  apply array_index_spec; [exact Hxn | unfold clampZ; lia | |].
  - rewrite Hxv, Hmv, Hfv, H7, H0. unfold clampZ.
    rewrite Z.mul_min_distr_nonneg_r by lia.
    rewrite <- (Z.mul_max_distr_nonneg_r 0 _ unit1074) by lia. reflexivity.
  - apply Z.le_lt_trans with (7 * unit1074); [|vm_compute; reflexivity].
    apply Z.mul_le_mono_nonneg_r; [lia | unfold clampZ; lia].
Qed.

Lemma clampZ_mono (p q : Z) : p <= q -> clampZ p <= clampZ q.
Proof. unfold clampZ. lia. Qed.

Lemma clampZ_range (q : Z) : 0 <= clampZ q <= 7.
Proof. unfold clampZ. lia. Qed.

Lemma clampZ_high (q : Z) : 7 <= q -> clampZ q = 7.
Proof. unfold clampZ. lia. Qed.

Lemma clampZ_low (q : Z) : q <= 0 -> clampZ q = 0.
Proof. unfold clampZ. lia. Qed.

Lemma mul8_spec (h : float) :
  is_nan h = false ->
  is_nan (h * 8)%float = false /\
  clampZ (Fval (h * 8)%float / unit1074) = clampZ (8 * Fval h / unit1074).
Proof.
  intros Hn. pose proof (Prim2SF_valid h) as V.
  rewrite is_nan_spec in Hn |- *. unfold Fval. rewrite mul_spec.
  change (Prim2SF 8) with SF8.
  pose proof unit1074_pos as Hu.
  destruct (Prim2SF h) as [s | s | | s m e]; try discriminate.
  - split; reflexivity.
  - split; [reflexivity|]. destruct s; vm_compute; reflexivity.
  - destruct (SFmul8_finite s m e V) as (r & -> & Hr & [Hv | [-> Hov]]).
    + split; [exact Hr|]. rewrite Hv. reflexivity.
    + split; [reflexivity|].
      pose proof (finite_val_bounds s m e V) as [Hpos _].
      cbn [SFval]. destruct s; cbn [cond_Zopp xorb].
      * transitivity 0; [vm_compute; reflexivity|].
        symmetry. apply clampZ_low. apply Z.div_le_upper_bound; lia.
      * transitivity 7; [vm_compute; reflexivity|].
        symmetry. apply clampZ_high. apply Z.div_le_lower_bound; [lia|].
        apply Z.le_trans with (2 ^ 2098); [vm_compute; discriminate | lia].
Qed.

(** The index computed for a height [h] over a scale of eight notes:
    [Math.max(0, Math.min(8 - 1, Math.floor(h * 8)))]. *)
Lemma pitch_index_spec (h : float) :
  is_nan h = false ->
  array_index (Math_max 0 (Math_min (8 - 1) (Math_floor (h * 8)))) =
  Some (clampZ (8 * Fval h / unit1074)).
Proof.
  intros Hn. destruct (mul8_spec h Hn) as [Hm <-].
  change (8 - 1)%float with 7%float.
  apply clamp_floor_spec. exact Hm.
Qed.

Lemma pitch_index_nan :
  array_index (Math_max 0 (Math_min (8 - 1) (Math_floor (nan * 8)))) = None.
Proof. vm_compute. reflexivity. Qed.

(** ** The number model on concrete inputs *)

Example Math_floor_examples :
  (Math_floor 4.4 = 4 /\ Math_floor 7.992 = 7 /\ Math_floor (-0.5) = -1 /\
   Math_floor (-2.4) = -3 /\ Math_floor 0.3 = 0 /\ Math_floor 8 = 8 /\
   Math_floor infinity = infinity)%float /\
  Prim2SF (Math_floor (-0)) = S754_zero true /\
  Prim2SF (Math_floor nan) = S754_nan.
Proof. vm_compute. repeat split; reflexivity. Qed.

Example Math_max_min_examples :
  (Math_min 7 8 = 7 /\ Math_min 7 (-3) = -3 /\ Math_max 0 (-3) = 0 /\
   Math_max 0 7 = 7 /\ Math_min 7 infinity = 7)%float /\
  Prim2SF (Math_max 0 (-0)) = S754_zero false /\
  Prim2SF (Math_min 0 (-0)) = S754_zero true /\
  Prim2SF (Math_max 0 nan) = S754_nan /\
  Prim2SF (Math_min nan 7) = S754_nan.
Proof. vm_compute. repeat split; reflexivity. Qed.

Example array_get_examples :
  (array_get cMajor 4 = str "G4" /\ array_get cMajor (-0) = str "C4" /\
   array_get cMajor 8 = undefined /\ array_get cMajor 4.5 = undefined /\
   array_get cMajor (-1) = undefined /\ array_get cMajor nan = undefined)%float.
Proof. vm_compute. repeat split; reflexivity. Qed.

Example noteForHeight_examples :
  (noteForHeight cMajor 0.55 = str "G4" /\ noteForHeight cMajor 0.125 = str "D4" /\
   noteForHeight cMajor 0.12499999999999999 = str "C4" /\
   noteForHeight cMajor (-3) = str "C4" /\ noteForHeight cMajor 17 = str "C5" /\
   noteForHeight cMajor infinity = str "C5" /\
   noteForHeight cMajor neg_infinity = str "C4")%float.
Proof. vm_compute. repeat split; reflexivity. Qed.

(** ** Order of numbers *)

Lemma ltb_true_not_nan (a b : float) :
  (a <? b)%float = true -> is_nan a = false /\ is_nan b = false.
Proof.
  intros H. split.
  - destruct (is_nan a) eqn:E; [|reflexivity]. rewrite (ltb_nan_l a b E) in H. discriminate.
  - destruct (is_nan b) eqn:E; [|reflexivity]. rewrite (ltb_nan_r a b E) in H. discriminate.
Qed.

Lemma leb_true_not_nan (a b : float) :
  (a <=? b)%float = true -> is_nan a = false /\ is_nan b = false.
Proof.
  intros H. split.
  - destruct (is_nan a) eqn:E; [|reflexivity]. rewrite (leb_nan_l a b E) in H. discriminate.
  - destruct (is_nan b) eqn:E; [|reflexivity]. rewrite (leb_nan_r a b E) in H. discriminate.
Qed.

Lemma ltb_trans (a b c : float) :
  (a <? b)%float = true -> (b <? c)%float = true -> (a <? c)%float = true.
Proof.
  intros H1 H2.
  destruct (ltb_true_not_nan _ _ H1) as [Na Nb].
  destruct (ltb_true_not_nan _ _ H2) as [_ Nc].
  rewrite ltb_val in * by assumption.
  apply Z.ltb_lt in H1, H2. apply Z.ltb_lt. lia.
Qed.

Lemma leb_not_gt (a b : float) :
  (a <=? b)%float = true -> gt a b = false.
Proof.
  intros H. destruct (leb_true_not_nan _ _ H) as [Na Nb]. unfold gt.
  rewrite leb_val in H by assumption. rewrite ltb_val by assumption.
  apply Z.leb_le in H. apply Z.ltb_ge. exact H.
Qed.

Lemma leb_le_val (a b : float) :
  (a <=? b)%float = true -> Fval a <= Fval b.
Proof.
  intros H. destruct (leb_true_not_nan _ _ H) as [Na Nb].
  rewrite leb_val in H by assumption. apply Z.leb_le. exact H.
Qed.

(** ** Motion Detector *)

Lemma length5 {A : Type} (l : list A) :
  List.length l = 5%nat -> exists a b c d e, l = [a; b; c; d; e].
Proof.
  destruct l as [| a [| b [| c [| d [| e [| f l]]]]]]; try discriminate.
  intros _. now exists a, b, c, d, e.
Qed.

Lemma candidateMoved_unfold (current last : Finger.t) :
  gt (extensionChangeOf current last) (movementThreshold * 0.8)%float
  || gt (tipDistance current last) movementThreshold
  = candidateMoved current last.
Proof. reflexivity. Qed.

Lemma detect_loop_spec (cur last : list Finger.t) (palm : bool) (indices acc : list nat) :
  isPalmMovingSignificantly cur last = Some palm ->
  (forall i, In i indices -> (i < List.length cur)%nat /\ (i < List.length last)%nat) ->
  detect_loop indices cur last acc
  = Some (acc ++ filter (keepsFinger cur last palm) indices).
Proof.
  intros Hp. revert acc.
  induction indices as [| i rest IH]; intros acc Hin; cbn [detect_loop filter].
  - now rewrite app_nil_r.
  - destruct (Hin i (or_introl eq_refl)) as [Hc Hl].
    apply nth_error_Some in Hc, Hl. unfold keepsFinger at 1.
    destruct (nth_error cur i) as [c |]; [|congruence].
    destruct (nth_error last i) as [l |]; [|congruence].
    cbv zeta. rewrite candidateMoved_unfold, Hp.
    change (gt (extensionChangeOf c l) (movementThreshold * 1.5)%float)
      with (strongBend c l).
    assert (Hrest : forall j, In j rest ->
              (j < List.length cur)%nat /\ (j < List.length last)%nat)
      by (intros j Hj; apply Hin; now right).
    destruct (candidateMoved c l); cbn [andb].
    + destruct (negb palm || strongBend c l).
      * rewrite IH by exact Hrest. now rewrite <- app_assoc.
      * now apply IH.
    + now apply IH.
Qed.

Lemma isPalm_five (c0 c1 c2 c3 c4 l0 l1 l2 l3 l4 : Finger.t) :
  isPalmMovingSignificantly [c0; c1; c2; c3; c4] [l0; l1; l2; l3; l4]
  = Some (gt ((0 + tipDistance c0 l0 + tipDistance c1 l1 + tipDistance c2 l2
               + tipDistance c3 l3 + tipDistance c4 l4) / 5)%float 0.02%float).
Proof. reflexivity. Qed.

Lemma detect_five (cur last : list Finger.t) :
  List.length cur = 5%nat -> List.length last = 5%nat ->
  exists palm,
    isPalmMovingSignificantly cur last = Some palm /\
    detectFingerMovement cur last
    = Some (filter (keepsFinger cur last palm) [0; 1; 2; 3; 4]%nat).
Proof.
  intros Hc Hl.
  destruct (length5 cur Hc) as (c0 & c1 & c2 & c3 & c4 & ->).
  destruct (length5 last Hl) as (l0 & l1 & l2 & l3 & l4 & ->).
  eexists. split; [apply isPalm_five|].
  unfold detectFingerMovement.
  rewrite (detect_loop_spec _ _ _ _ [] (isPalm_five _ _ _ _ _ _ _ _ _ _)); [reflexivity|].
  intros i Hi. cbn in Hi |- *. lia.
Qed.

Lemma tipDistance_same (p : Finger.t) :
  tipDistance p p = 0%float \/ tipDistance p p = nan.
Proof.
  unfold tipDistance.
  destruct (float_sub_self (Finger.x p)) as [-> | ->];
  destruct (float_sub_self (Finger.y p)) as [-> | ->];
  destruct (float_sub_self (Finger.z p)) as [-> | ->];
  vm_compute; auto.
Qed.

Lemma candidateMoved_same (p : Finger.t) : candidateMoved p p = false.
Proof.
  unfold candidateMoved, extensionChangeOf.
  destruct (tipDistance_same p) as [-> | ->];
  destruct (float_sub_self (Finger.extension p)) as [-> | ->];
  vm_compute; reflexivity.
Qed.

Lemma keepsFinger_same (cur : list Finger.t) (palm : bool) (i : nat) :
  keepsFinger cur cur palm i = false.
Proof.
  unfold keepsFinger. destruct (nth_error cur i); [|reflexivity].
  now rewrite candidateMoved_same.
Qed.

Lemma filter_none {A : Type} (f : A -> bool) (l : list A) :
  (forall a, f a = false) -> filter f l = [].
Proof.
  intros H. induction l as [| a l IH]; [reflexivity|]. cbn. now rewrite H.
Qed.

Lemma keepsFinger_iff (cur last : list Finger.t) (palm : bool) (i : nat)
    (current l : Finger.t) :
  nth_error cur i = Some current -> nth_error last i = Some l ->
  List.length cur = 5%nat ->
  (In i (filter (keepsFinger cur last palm) [0; 1; 2; 3; 4]%nat) <->
   candidateMoved current l = true /\ (palm = false \/ strongBend current l = true)).
Proof.
  intros Hc Hl Hlen. rewrite filter_In. unfold keepsFinger. rewrite Hc, Hl.
  assert (Hi : (i < 5)%nat) by (rewrite <- Hlen; apply nth_error_Some; congruence).
  rewrite andb_true_iff, orb_true_iff, negb_true_iff.
  split.
  - intros [_ H]. exact H.
  - intros H. split; [|exact H]. cbn. lia.
Qed.

(** C3. For frames of five fingers, finger [i] is a candidate exactly when
    its extension changed by more than [0.8 * 0.015] or its tip moved by
    more than [0.015], both strictly, the movement of the tip being the 3D
    Euclidean distance [sqrt (dx * dx + dy * dy + dz * dz)] between its two
    positions; it is reported exactly when it is a candidate and survives
    the palm veto; and a frame compared with itself reports no finger. *)
Theorem C3_motion_candidates (currentPositions lastPositions : list Finger.t) :
  List.length currentPositions = 5%nat ->
  List.length lastPositions = 5%nat ->
  exists palm movedFingers,
    isPalmMovingSignificantly currentPositions lastPositions = Some palm /\
    detectFingerMovement currentPositions lastPositions = Some movedFingers /\
    (forall i current last,
        nth_error currentPositions i = Some current ->
        nth_error lastPositions i = Some last ->
        let dx := (Finger.x current - Finger.x last)%float in
        let dy := (Finger.y current - Finger.y last)%float in
        let dz := (Finger.z current - Finger.z last)%float in
        let tipMovement := sqrt (dx * dx + dy * dy + dz * dz)%float in
        let extensionChange :=
          abs (Finger.extension current - Finger.extension last)%float in
        let candidate := ((0.8 * 0.015 <? extensionChange)
                          || (0.015 <? tipMovement))%float in
        candidateMoved current last = candidate /\
        (candidate = true <->
         (0.8 * 0.015 <? extensionChange)%float = true
         \/ (0.015 <? tipMovement)%float = true) /\
        (In i movedFingers <->
         candidate = true
         /\ (palm = false \/ (1.5 * 0.015 <? extensionChange)%float = true))) /\
    detectFingerMovement currentPositions currentPositions = Some [].
Proof.
  intros Hc Hl.
  destruct (detect_five _ _ Hc Hl) as (palm & Hp & Hd).
  exists palm, (filter (keepsFinger currentPositions lastPositions palm) [0; 1; 2; 3; 4]%nat).
  split; [exact Hp|]. split; [exact Hd|]. split.
  - intros i current last Hi Hj dx dy dz tipMovement extensionChange candidate.
    split; [reflexivity|]. split; [apply orb_true_iff|].
    exact (keepsFinger_iff _ _ palm i current last Hi Hj Hc).
  - destruct (detect_five _ _ Hc Hc) as (palm' & _ & ->).
    f_equal. apply filter_none. apply keepsFinger_same.
Qed.

(** C4. The palm is judged moving exactly when the average of the five tip
    displacements, each the 3D Euclidean distance
    [sqrt (dx * dx + dy * dy + dz * dz)] between the tip's position in the
    current and in the previous frame, exceeds [0.02]; when it is, a finger
    whose extension changed by at most [1.5 * 0.015] is left out of the
    result, and a finger whose extension changed by more than that is in the
    result whatever the palm does. *)
Theorem C4_palm_veto (currentPositions lastPositions : list Finger.t) :
  List.length currentPositions = 5%nat ->
  List.length lastPositions = 5%nat ->
  let displacement := fun current last : Finger.t =>
        let dx := (Finger.x current - Finger.x last)%float in
        let dy := (Finger.y current - Finger.y last)%float in
        let dz := (Finger.z current - Finger.z last)%float in
        sqrt (dx * dx + dy * dy + dz * dz)%float in
  let extensionChange := fun current last : Finger.t =>
        abs (Finger.extension current - Finger.extension last)%float in
  exists c0 c1 c2 c3 c4 l0 l1 l2 l3 l4 movedFingers,
    currentPositions = [c0; c1; c2; c3; c4] /\
    lastPositions = [l0; l1; l2; l3; l4] /\
    isPalmMovingSignificantly currentPositions lastPositions
    = Some (0.02 <? (0 + displacement c0 l0 + displacement c1 l1 + displacement c2 l2
                     + displacement c3 l3 + displacement c4 l4) / 5)%float /\
    detectFingerMovement currentPositions lastPositions = Some movedFingers /\
    forall i current last,
      nth_error currentPositions i = Some current ->
      nth_error lastPositions i = Some last ->
      (isPalmMovingSignificantly currentPositions lastPositions = Some true ->
       (extensionChange current last <=? 1.5 * 0.015)%float = true ->
       ~ In i movedFingers) /\
      ((1.5 * 0.015 <? extensionChange current last)%float = true ->
       In i movedFingers).
Proof.
  intros Hc Hl displacement extensionChange.
  destruct (detect_five _ _ Hc Hl) as (palm & Hp & Hd).
  destruct (length5 _ Hc) as (c0 & c1 & c2 & c3 & c4 & Ec).
  destruct (length5 _ Hl) as (l0 & l1 & l2 & l3 & l4 & El).
  exists c0, c1, c2, c3, c4, l0, l1, l2, l3, l4.
  eexists. split; [exact Ec|]. split; [exact El|].
  split; [rewrite Ec, El; exact (isPalm_five c0 c1 c2 c3 c4 l0 l1 l2 l3 l4)|].
  split; [exact Hd|].
  intros i current last Hi Hj.
  rewrite (keepsFinger_iff _ _ palm i current last Hi Hj Hc).
  change (extensionChange current last) with (extensionChangeOf current last).
  split.
  - intros Hpalm Hle [_ [Hf | Hs]].
    + rewrite Hp in Hpalm. congruence.
    + unfold strongBend in Hs. rewrite (leb_not_gt _ _ Hle) in Hs. discriminate.
  - intros Hs. split; [|right; exact Hs].
    unfold candidateMoved. apply orb_true_iff. left.
    unfold gt in *. eapply ltb_trans; [|exact Hs]. vm_compute. reflexivity.
Qed.

Lemma C3_motion_candidates_witness :
  List.length twoFingerFrame = 5%nat /\
  List.length restFrame = 5%nat /\
  detectFingerMovement twoFingerFrame twoFingerFrame = Some [].
Proof.
  split; [reflexivity|]. split; [reflexivity|].
  destruct (C3_motion_candidates twoFingerFrame restFrame eq_refl eq_refl)
    as (palm & moved & _ & _ & _ & H).
  exact H.
Defined.

Lemma C4_palm_veto_witness :
  List.length shiftedFrame = 5%nat /\
  List.length restFrame = 5%nat /\
  isPalmMovingSignificantly shiftedFrame restFrame = Some true /\
  exists movedFingers,
    detectFingerMovement shiftedFrame restFrame = Some movedFingers /\
    ~ In 1%nat movedFingers /\ In 2%nat movedFingers.
Proof.
  split; [reflexivity|]. split; [reflexivity|].
  assert (Hp : isPalmMovingSignificantly shiftedFrame restFrame = Some true)
    by (vm_compute; reflexivity).
  split; [exact Hp|].
  destruct (C4_palm_veto shiftedFrame restFrame eq_refl eq_refl)
    as (c0 & c1 & c2 & c3 & c4 & l0 & l1 & l2 & l3 & l4 & moved & _ & _ & _ & Hd & H).
  exists moved. split; [exact Hd|]. split.
  - refine (proj1 (H 1%nat _ _ eq_refl eq_refl) Hp _). vm_compute. reflexivity.
  - refine (proj2 (H 2%nat _ _ eq_refl eq_refl) _). vm_compute. reflexivity.
Defined.

(** ** Playback Controller *)

Lemma releaseNotes_spec (s : Synth) (st : State) :
  releaseNotes s st = Returned tt (set_trace (trace st ++ released s) st).
Proof.
  unfold releaseNotes, released.
  destruct (has_releaseAll s); [reflexivity|].
  destruct (has_triggerRelease s); [reflexivity|].
  run. rewrite app_nil_r. now destruct st.
Qed.

Lemma playNotes_spec (movedFingers : list nat) (fingerPositions : list Finger.t)
    (notesToPlay : list value) (st : State) :
  notes_loop movedFingers fingerPositions [] = Some notesToPlay ->
  playNotesForFingers movedFingers fingerPositions st
  = Returned tt (afterPlayNotes notesToPlay st).
Proof.
  intros H. unfold playNotesForFingers, afterPlayNotes, afterRelease. rewrite H.
  destruct (synth st) as [s |] eqn:Es.
  - destruct (0 <? List.length (currentNotes st))%nat eqn:Ec.
    + run. rewrite Es, Ec. unfold bind. rewrite releaseNotes_spec. run. rewrite Es.
      destruct (0 <? List.length notesToPlay)%nat; reflexivity.
    + run. rewrite Es, Ec. run. rewrite Es.
      destruct (0 <? List.length notesToPlay)%nat; reflexivity.
  - run. rewrite Es. run. rewrite Es. reflexivity.
Qed.

Lemma candidateMoved_raised (p : Finger.t) : candidateMoved (raised p) (atRest p) = true.
Proof.
  unfold candidateMoved.
  assert (E : extensionChangeOf (raised p) (atRest p) = Math_abs (0.2 - 0.1)%float)
    by reflexivity.
  rewrite E. vm_compute (gt _ (0.8 * 0.015)%float). reflexivity.
Qed.

Lemma strongBend_raised (p : Finger.t) : strongBend (raised p) (atRest p) = true.
Proof. vm_compute. reflexivity. Qed.

(** C1. With a previous frame of five fingers at extension 0.1 and height
    0.5 and a current frame that differs only in the index finger (tip.y
    lower by 0.05, height 0.55, extension 0.2), the detector reports [[1]];
    height 0.55 maps to index 4 of the C-major scale, the note "G4"; and the
    note list the Playback Controller schedules is ["G4"] alone. *)
Theorem C1_end_to_end (p0 p1 p2 p3 p4 : Finger.t) (st : State) :
  let lastPositions := [atRest p0; atRest p1; atRest p2; atRest p3; atRest p4] in
  let currentPositions := [atRest p0; raised p1; atRest p2; atRest p3; atRest p4] in
  detectFingerMovement currentPositions lastPositions = Some [1%nat] /\
  Finger.height (raised p1) = 0.55%float /\
  Math_floor (0.55 * 8)%float = 4%float /\
  array_index (clampedNoteIndex cMajor 0.55%float) = Some 4 /\
  noteForHeight cMajor 0.55%float = str "G4" /\
  notes_loop [1%nat] currentPositions [] = Some [str "G4"] /\
  timers (final (playNotesForFingers [1%nat] currentPositions st))
  = timers st ++ match synth st with
                 | Some _ => [(10, StartNotes [str "G4"])]
                 | None => []
                 end.
Proof.
  intros lastPositions currentPositions.
  split; [|split; [|split; [|split; [|split; [|split]]]]]; try (vm_compute; reflexivity).
  - unfold detectFingerMovement, lastPositions, currentPositions.
    rewrite (detect_loop_spec _ _ _ _ [] (isPalm_five _ _ _ _ _ _ _ _ _ _)).
    + cbn [filter keepsFinger nth_error app].
      rewrite !candidateMoved_same, candidateMoved_raised, strongBend_raised, orb_true_r.
      reflexivity.
    + intros i Hi. cbn in Hi |- *. lia.
  - rewrite (playNotes_spec _ _ [str "G4"]) by (vm_compute; reflexivity).
    unfold afterPlayNotes, afterRelease. cbn [final].
    destruct (synth st) as [s |]; [|now rewrite app_nil_r].
    destruct (0 <? List.length (currentNotes st))%nat; reflexivity.
Qed.

(** ** Pitch Mapper *)

Lemma clampedNoteIndex_eight (scale : list string) (h : float) :
  List.length scale = 8%nat ->
  clampedNoteIndex scale h = Math_max 0 (Math_min (8 - 1)%float (Math_floor (h * 8)%float)).
Proof. intros E. unfold clampedNoteIndex. rewrite E. reflexivity. Qed.

Lemma array_get_in_range (scale : list string) (d : float) (k : Z) :
  array_index d = Some k -> 0 <= k < Z.of_nat (List.length scale) ->
  exists s, nth_error scale (Z.to_nat k) = Some s /\ array_get scale d = str s.
Proof.
  intros Hd Hk. unfold array_get. rewrite Hd.
  destruct (Z.ltb_spec k (Z.of_nat (List.length scale))) as [_ | ?]; [|lia].
  destruct (nth_error scale (Z.to_nat k)) as [s |] eqn:E.
  - now exists s.
  - apply nth_error_None in E. lia.
Qed.

(** C2.  Over a scale of eight notes and for every height - a number: the
    extractor computes it as [1 - tip.y] from a normalized coordinate, and
    NaN is no height - the Pitch Mapper returns
    [scale[clamp(floor(h * 8), 0, 7)]], the floor being that of the exact
    product; heights 0, 0.999 and 1 give the indices 0, 7 and 7; and the
    index does not decrease when the height increases.  The mapper reads
    nothing but its two arguments, so equal inputs give equal outputs. *)
Theorem C2_pitch_mapper (scale : list string) :
  List.length scale = 8%nat ->
  (forall h, is_nan h = false ->
     exists (k : Z) (s : string),
       array_index (clampedNoteIndex scale h) = Some k /\
       k = Z.max 0 (Z.min 7 (8 * Fval h / unit1074)) /\
       0 <= k <= 7 /\
       nth_error scale (Z.to_nat k) = Some s /\
       noteForHeight scale h = str s) /\
  array_index (clampedNoteIndex scale 0%float) = Some 0 /\
  array_index (clampedNoteIndex scale 0.999%float) = Some 7 /\
  array_index (clampedNoteIndex scale 1%float) = Some 7 /\
  (forall h1 h2 k1 k2,
     (h1 <=? h2)%float = true ->
     array_index (clampedNoteIndex scale h1) = Some k1 ->
     array_index (clampedNoteIndex scale h2) = Some k2 ->
     k1 <= k2).
Proof.
  intros Hlen.
  assert (Hidx : forall h, is_nan h = false ->
            array_index (clampedNoteIndex scale h)
            = Some (clampZ (8 * Fval h / unit1074))).
  { intros h Hn. rewrite (clampedNoteIndex_eight _ _ Hlen). now apply pitch_index_spec. }
  split; [|split; [|split; [|split]]].
  - intros h Hn. pose proof (clampZ_range (8 * Fval h / unit1074)) as Hr.
    destruct (array_get_in_range scale _ _ (Hidx h Hn)) as (s & Hs & Hg);
      [rewrite Hlen; lia|].
    exists (clampZ (8 * Fval h / unit1074)), s.
    split; [now apply Hidx|]. split; [reflexivity|]. split; [exact Hr|].
    split; [exact Hs | exact Hg].
  - rewrite (clampedNoteIndex_eight _ _ Hlen). vm_compute. reflexivity.
  - rewrite (clampedNoteIndex_eight _ _ Hlen). vm_compute. reflexivity.
  - rewrite (clampedNoteIndex_eight _ _ Hlen). vm_compute. reflexivity.
  - intros h1 h2 k1 k2 Hle H1 H2.
    destruct (leb_true_not_nan _ _ Hle) as [N1 N2].
    rewrite (Hidx h1 N1) in H1. rewrite (Hidx h2 N2) in H2.
    assert (E1 : k1 = clampZ (8 * Fval h1 / unit1074)) by congruence.
    assert (E2 : k2 = clampZ (8 * Fval h2 / unit1074)) by congruence.
    rewrite E1, E2.
    apply clampZ_mono. apply Z.div_le_mono; [apply unit1074_pos|].
    pose proof (leb_le_val _ _ Hle). lia.
Qed.

(** NaN, which is no height, would pass the clamp: the index would be no
    position of the scale and the note [undefined]. *)
Lemma clampedNoteIndex_of_nan :
  clampedNoteIndex cMajor nan = nan /\
  array_index (clampedNoteIndex cMajor nan) = None /\
  noteForHeight cMajor nan = undefined.
Proof. vm_compute. repeat split; reflexivity. Qed.

Lemma C2_pitch_mapper_witness :
  List.length cMajor = 8%nat /\
  array_index (clampedNoteIndex cMajor 1%float) = Some 7.
Proof.
  split; [reflexivity|].
  destruct (C2_pitch_mapper cMajor eq_refl) as (_ & _ & _ & H & _). exact H.
Defined.

(** ** The deferred start of the notes *)

Lemma startNotes_ok (notesToPlay : list value) (s : Synth) (st : State) :
  synth st = Some s ->
  attack_throws (behaviour s) (attackArg notesToPlay) = false ->
  startNotes notesToPlay st = Returned tt (afterStart notesToPlay st).
Proof.
  intros Es Ha. unfold startNotes, afterStart. run. rewrite Es. run.
  unfold do_triggerAttack. cbn [has_triggerAttack has_triggerAttackRelease negb andb orb].
  fold (attackArg notesToPlay). rewrite Ha. run.
  destruct (instrumentSelect st =? "bass")%string; reflexivity.
Qed.

Lemma startNotes_fallback (notesToPlay : list value) (s : Synth) (st : State) :
  synth st = Some s ->
  attack_throws (behaviour s) (attackArg notesToPlay) = true ->
  startNotes notesToPlay st = Returned tt (afterFallback s notesToPlay st).
Proof.
  intros Es Ha. unfold startNotes, afterFallback. run. rewrite Es. run.
  unfold do_triggerAttack. cbn [has_triggerAttack has_triggerAttackRelease negb andb orb].
  fold (attackArg notesToPlay). rewrite Ha. run. rewrite Es. run.
  unfold fallbackArg, do_triggerAttackRelease.
  cbn [has_triggerAttackRelease negb orb].
  destruct (List.length notesToPlay =? 1)%nat;
    destruct (attackRelease_throws (behaviour s) _); reflexivity.
Qed.

Lemma startNotes_no_synth (notesToPlay : list value) (st : State) :
  synth st = None -> startNotes notesToPlay st = Returned tt st.
Proof. intros Es. unfold startNotes. run. rewrite Es. run. rewrite Es. reflexivity. Qed.

Lemma startNotes_returns (notesToPlay : list value) (st : State) :
  threw (startNotes notesToPlay st) = false.
Proof.
  destruct (synth st) as [s |] eqn:Es.
  - destruct (attack_throws (behaviour s) (attackArg notesToPlay)) eqn:Ha.
    + now rewrite (startNotes_fallback _ s).
    + now rewrite (startNotes_ok _ s).
  - now rewrite startNotes_no_synth.
Qed.

Lemma autoReleaseBass_returns (st : State) : threw (autoReleaseBass st) = false.
Proof.
  unfold autoReleaseBass. run. destruct (synth st) as [s |]; [|reflexivity].
  destruct (has_triggerRelease s && isPlaying st); reflexivity.
Qed.

(** The test note leaves the state as it is or adds one call: the test on
    the voice, or "C4" on the fallback voice. *)
Lemma testNote_final (name : string) (running : bool) (fallback : option Behaviour)
    (st : State) :
  final (testNote name running fallback st) = st \/
  exists c,
    final (testNote name running fallback st) = set_trace (trace st ++ [c]) st /\
    (c = fallbackTestNote \/ exists arg, c = triggerAttackRelease arg "8n").
Proof.
  unfold testNote. destruct running; [|now left].
  unfold do_triggerAttackRelease. cbn [has_triggerAttackRelease negb orb].
  destruct fallback as [b |]; run;
    [destruct (attackRelease_throws b (OneNote (str "C4")))|];
    (destruct (synth st) as [s |];
     [destruct (name =? "bass")%string;
      destruct (attackRelease_throws (behaviour s) _)|]);
    run;
    first [ now left
          | right; eexists; split; [reflexivity|];
            first [now left | right; eexists; reflexivity] ].
Qed.

(** The callbacks that start notes and that release the bass never throw;
    the test note can, from its catch block. *)
Lemma fireTimer_throws (k : nat) (running : bool) (fallback : option Behaviour)
    (st : State) :
  threw (fireTimer k running fallback st) = true ->
  exists delay name, nth_error (timers st) k = Some (delay, TestNote name).
Proof.
  unfold fireTimer. run.
  destruct (nth_error (timers st) k) as [[delay task] |]; [|discriminate].
  destruct task as [notesToPlay | | name]; cbn [runTask]; run.
  - rewrite startNotes_returns. discriminate.
  - rewrite autoReleaseBass_returns. discriminate.
  - intros _. now exists delay, name.
Qed.

Lemma fireTimer_start_returns (k : nat) (delay : Z) (notesToPlay : list value)
    (running : bool) (fallback : option Behaviour) (st : State) :
  nth_error (timers st) k = Some (delay, StartNotes notesToPlay) ->
  threw (fireTimer k running fallback st) = false.
Proof.
  intros H. destruct (threw (fireTimer k running fallback st)) eqn:E; [|reflexivity].
  apply fireTimer_throws in E. destruct E as (d & name & E). congruence.
Qed.

Lemma remove_nth_last {A : Type} (l : list A) (a : A) :
  remove_nth (List.length l) (l ++ [a]) = l.
Proof. induction l as [| b l IH]; [reflexivity|]. cbn. now rewrite IH. Qed.

Lemma nth_error_last {A : Type} (l : list A) (a : A) :
  nth_error (l ++ [a]) (List.length l) = Some a.
Proof. induction l as [| b l IH]; [reflexivity|]. exact IH. Qed.

Lemma notes_loop_length (movedFingers : list nat) (fingerPositions : list Finger.t)
    (acc notesToPlay : list value) :
  notes_loop movedFingers fingerPositions acc = Some notesToPlay ->
  List.length notesToPlay = (List.length acc + List.length movedFingers)%nat.
Proof.
  revert acc. induction movedFingers as [| i rest IH]; intros acc H; cbn in H.
  - injection H as <-. cbn. lia.
  - destruct (nth_error fingerPositions i); [|discriminate].
    apply IH in H. rewrite H, length_app. cbn. lia.
Qed.


Lemma released_class (s : Synth) :
  released s = if polyphonic (class s) then [releaseAll] else [triggerRelease].
Proof. reflexivity. Qed.

Lemma length_zero_nil {A : Type} (l : list A) :
  (0 <? List.length l)%nat = false -> l = [].
Proof. destruct l; [reflexivity | discriminate]. Qed.

Lemma afterRelease_currentNotes (st : State) :
  currentNotes (afterRelease st) = [] \/ synth st = None.
Proof.
  unfold afterRelease. destruct (synth st) as [s |]; [left | now right].
  destruct (0 <? List.length (currentNotes st))%nat eqn:E; [reflexivity|].
  now apply length_zero_nil.
Qed.

Lemma fire_last_start (notesToPlay : list value) (running : bool) (fallback : option Behaviour) (st : State) :
  fireTimer (List.length (timers st)) running fallback
            (set_timers (timers st ++ [(10, StartNotes notesToPlay)]) st)
  = startNotes notesToPlay st.
Proof.
  unfold fireTimer. run. rewrite nth_error_last, remove_nth_last. run.
  cbn [runTask]. now destruct st.
Qed.

(** C5, as amended.  A call of the Playback Controller with a non-empty
    list of moved fingers first stops the notes recorded as sounding (with
    [releaseAll] on a polyphonic voice, [triggerRelease] on a monophonic
    one), empties [currentNotes] and schedules the start of the candidate
    notes.  When that deferred start runs and the note-start call does not
    throw, the start is recorded after the stop and [currentNotes] becomes
    the candidate list with [isPlaying] set; when the call throws,
    [currentNotes] stays empty. *)
Theorem C5_retrigger (movedFingers : list nat) (fingerPositions : list Finger.t)
    (notesToPlay : list value) (s : Synth) (st : State) (running : bool) (fallback : option Behaviour) :
  synth st = Some s ->
  movedFingers <> [] ->
  notes_loop movedFingers fingerPositions [] = Some notesToPlay ->
  let called := playNotesForFingers movedFingers fingerPositions st in
  let st1 := final called in
  let st2 := final (fireTimer (List.length (timers st)) running fallback st1) in
  threw called = false /\
  trace st1 = trace st ++ (if (0 <? List.length (currentNotes st))%nat
                           then (if polyphonic (class s)
                                 then [releaseAll] else [triggerRelease])
                           else []) /\
  currentNotes st1 = [] /\
  isPlaying st1 = isPlaying st /\
  timers st1 = timers st ++ [(10, StartNotes notesToPlay)] /\
  (attack_throws (behaviour s) (attackArg notesToPlay) = false ->
   trace st2 = trace st1 ++ [triggerAttack (attackArg notesToPlay)] /\
   currentNotes st2 = notesToPlay /\
   isPlaying st2 = true) /\
  (attack_throws (behaviour s) (attackArg notesToPlay) = true ->
   currentNotes st2 = [] /\
   isPlaying st2 = isPlaying st).
Proof.
  intros Es Hm Hn called st1 st2.
  assert (Hlen : (0 <? List.length notesToPlay)%nat = true).
  { apply notes_loop_length in Hn. apply Nat.ltb_lt.
    destruct movedFingers; [congruence | cbn in Hn; lia]. }
  assert (E1 : called = Returned tt (afterPlayNotes notesToPlay st))
    by (apply playNotes_spec; exact Hn).
  assert (Ea : afterPlayNotes notesToPlay st
               = set_timers (timers (afterRelease st) ++ [(10, StartNotes notesToPlay)])
                            (afterRelease st))
    by (unfold afterPlayNotes; now rewrite Es, Hlen).
  assert (Et : timers (afterRelease st) = timers st).
  { unfold afterRelease. rewrite Es.
    destruct (0 <? List.length (currentNotes st))%nat; reflexivity. }
  assert (Ec : currentNotes (afterRelease st) = [])
    by (destruct (afterRelease_currentNotes st) as [H | H]; [exact H | congruence]).
  assert (Ep : isPlaying (afterRelease st) = isPlaying st).
  { unfold afterRelease. rewrite Es.
    destruct (0 <? List.length (currentNotes st))%nat; reflexivity. }
  assert (Ey : synth (afterRelease st) = Some s).
  { unfold afterRelease. rewrite Es.
    destruct (0 <? List.length (currentNotes st))%nat; exact Es. }
  assert (E2 : fireTimer (List.length (timers st)) running fallback st1
               = startNotes notesToPlay (afterRelease st)).
  { unfold st1. rewrite E1. cbn [final]. rewrite Ea, <- Et. apply fire_last_start. }
  unfold st2. rewrite E2. unfold st1. rewrite E1. cbn [final threw]. rewrite Ea.
  cbn [trace currentNotes isPlaying timers set_timers]. rewrite Et, Ec, Ep.
  split; [reflexivity|]. split.
  { unfold afterRelease. rewrite Es, released_class.
    destruct (0 <? List.length (currentNotes st))%nat; [reflexivity|].
    now rewrite app_nil_r. }
  split; [reflexivity|]. split; [reflexivity|]. split; [reflexivity|]. split.
  - intros Ha. rewrite (startNotes_ok _ s _ Ey Ha). cbn [final]. unfold afterStart.
    destruct (instrumentSelect (afterRelease st) =? "bass")%string;
      repeat split; reflexivity.
  - intros Ha. rewrite (startNotes_fallback _ s _ Ey Ha). cbn [final].
    unfold afterFallback.
    destruct (attackRelease_throws (behaviour s) (fallbackArg notesToPlay));
      cbn [currentNotes isPlaying set_trace]; rewrite Ec, Ep; split; reflexivity.
Qed.

Lemma C5_retrigger_witness :
  synth (playing polySynth "C4") = Some polySynth /\
  [1%nat] <> [] /\
  notes_loop [1%nat] twoFingerFrame [] = Some [str "G4"] /\
  (let st1 := final (playNotesForFingers [1%nat] twoFingerFrame
                                         (playing polySynth "C4")) in
   trace (final (fireTimer 0 true (Some quiet) st1)))
  = [releaseAll; triggerAttack (OneNote (str "G4"))].
Proof.
  assert (H1 : synth (playing polySynth "C4") = Some polySynth) by reflexivity.
  assert (H2 : [1%nat] <> []) by discriminate.
  assert (H3 : notes_loop [1%nat] twoFingerFrame [] = Some [str "G4"])
    by (vm_compute; reflexivity).
  split; [exact H1|]. split; [exact H2|]. split; [exact H3|].
  destruct (C5_retrigger [1%nat] twoFingerFrame [str "G4"] polySynth
              (playing polySynth "C4") true (Some quiet) H1 H2 H3)
    as (_ & Ht & _ & _ & _ & Hok & _).
  destruct (Hok eq_refl) as (Ht2 & _ & _).
  change (List.length (timers (playing polySynth "C4"))) with 0%nat in Ht2.
  cbv zeta. rewrite Ht2, Ht. reflexivity.
Defined.

(** C5 as stated fails when the note-start call throws: "B4" is sounding
    and the index finger asks for "G4"; the previous note is stopped, the
    fallback sounds "G4", and [currentNotes] is left empty. *)
Lemma C5_counterexample :
  let st1 := final (playNotesForFingers [1%nat] twoFingerFrame
                                        (playing failingSynth "B4")) in
  let st2 := final (fireTimer 0 true (Some quiet) st1) in
  notes_loop [1%nat] twoFingerFrame [] = Some [str "G4"] /\
  trace st2 = [releaseAll; triggerAttackRelease (OneNote (str "G4")) "8n"] /\
  currentNotes st2 = [] /\
  currentNotes st2 <> [str "G4"].
Proof. vm_compute. repeat split; try reflexivity. discriminate. Qed.

(** ** Frames without a hand *)

Lemma onHandResults_no_hand (now now' : float) (st : State) :
  onHandResults [] now now' st = Returned tt (afterNoHand st).
Proof.
  unfold onHandResults, afterNoHand. run.
  destruct (synth st) as [s |]; [|reflexivity].
  destruct (isPlaying st); [|reflexivity].
  unfold bind. rewrite releaseNotes_spec. reflexivity.
Qed.







(** The start of the notes is deferred: one scheduled just before the hand
    disappears may fire between two frames without a hand, and the notes it
    starts are stopped by the next such frame. *)
Lemma pending_start_fires_in_no_hand_run :
  let st := runInputs [Frame [hand 0.45] 1.2 1.2; Frame [] 1.3 1.3; Timer 1 true (Some quiet);
                       Frame [] 1.4 1.4]%float watching in
  trace st = [triggerAttack (OneNote (str "G4")); releaseAll] /\
  isPlaying st = false /\ currentNotes st = [].
Proof. vm_compute. repeat split; reflexivity. Qed.

(** ** The probe for a polyphonic voice *)

(** Every handle has both [triggerAttack] and [triggerAttackRelease], so the
    branch that passes the whole list is never taken. *)
Lemma startNotes_first_note_only (notesToPlay : list value) (s : Synth) (st : State) :
  synth st = Some s ->
  attack_throws (behaviour s) (OneNote (hd undefined notesToPlay)) = false ->
  trace (final (startNotes notesToPlay st))
  = trace st ++ [triggerAttack (OneNote (hd undefined notesToPlay))].
Proof.
  intros Es Ha. rewrite (startNotes_ok _ s _ Es Ha). cbn [final]. unfold afterStart.
  destruct (instrumentSelect st =? "bass")%string; reflexivity.
Qed.

(** C7 fails on the code.  On the polyphonic voice the instrument "synth"
    builds, with the index and the middle finger moved, the candidate notes
    are "G4" and "B4" and only "G4" is started. *)
Theorem C7_polyphonic_starts_first_note_only :
  let st := withSynth polySynth in
  let st1 := final (playNotesForFingers [1; 2]%nat twoFingerFrame st) in
  let st2 := final (fireTimer 0 true (Some quiet) st1) in
  instruments "synth" = Some (class polySynth) /\
  polyphonic (class polySynth) = true /\
  detectFingerMovement twoFingerFrame restFrame = Some [1; 2]%nat /\
  timers st1 = [(10, StartNotes [str "G4"; str "B4"])] /\
  trace st2 = [triggerAttack (OneNote (str "G4"))] /\
  currentNotes st2 = [str "G4"; str "B4"].
Proof. vm_compute. repeat split; reflexivity. Qed.

(** ** Failure of the note start *)

(** C8, as amended.  When the note-start call throws, the controller falls
    back to one [triggerAttackRelease] of an eighth note: of the first
    candidate when there is exactly one, of the whole candidate list
    otherwise.  A failure of the fallback is swallowed; [currentNotes] and
    [isPlaying] are left as they were; and the timer callback in which a
    start runs never throws. *)
Theorem C8_start_failure (notesToPlay : list value) (s : Synth) (st : State) :
  synth st = Some s ->
  notesToPlay <> [] ->
  attack_throws (behaviour s) (OneNote (hd undefined notesToPlay)) = true ->
  let fallback := if (List.length notesToPlay =? 1)%nat
                  then OneNote (hd undefined notesToPlay)
                  else Chord notesToPlay in
  let st' := final (startNotes notesToPlay st) in
  threw (startNotes notesToPlay st) = false /\
  trace st' = trace st ++ (if attackRelease_throws (behaviour s) fallback
                           then []
                           else [triggerAttackRelease fallback "8n"]) /\
  currentNotes st' = currentNotes st /\
  isPlaying st' = isPlaying st /\
  timers st' = timers st /\
  (forall k delay notes running fallbackCreated st0,
      nth_error (timers st0) k = Some (delay, StartNotes notes) ->
      threw (fireTimer k running fallbackCreated st0) = false).
Proof.
  intros Es Hne Ha fallback st'. unfold st'.
  rewrite (startNotes_fallback _ s _ Es Ha). cbn [final threw].
  unfold afterFallback. fold fallback. change (fallbackArg notesToPlay) with fallback.
  split; [reflexivity|].
  destruct (attackRelease_throws (behaviour s) fallback).
  - rewrite app_nil_r. repeat split; try reflexivity. apply fireTimer_start_returns.
  - repeat split; try reflexivity. apply fireTimer_start_returns.
Qed.

Lemma C8_start_failure_witness :
  synth (withSynth failingSynth) = Some failingSynth /\
  [str "G4"] <> [] /\
  attack_throws (behaviour failingSynth) (OneNote (str "G4")) = true /\
  trace (final (startNotes [str "G4"] (withSynth failingSynth)))
  = [triggerAttackRelease (OneNote (str "G4")) "8n"].
Proof.
  assert (H1 : synth (withSynth failingSynth) = Some failingSynth) by reflexivity.
  assert (H2 : [str "G4"] <> []) by discriminate.
  assert (H3 : attack_throws (behaviour failingSynth) (OneNote (hd undefined [str "G4"]))
               = true) by reflexivity.
  split; [exact H1|]. split; [exact H2|]. split; [exact H3|].
  destruct (C8_start_failure [str "G4"] failingSynth (withSynth failingSynth) H1 H2 H3)
    as (_ & Ht & _).
  rewrite Ht. reflexivity.
Defined.

(** C8 as stated fails with two candidate notes: the fallback retries the
    whole chord, not the first note. *)
Lemma C8_counterexample :
  let st := withSynth failingSynth in
  let st1 := final (playNotesForFingers [1; 2]%nat twoFingerFrame st) in
  let st2 := final (fireTimer 0 true (Some quiet) st1) in
  timers st1 = [(10, StartNotes [str "G4"; str "B4"])] /\
  trace st2 = [triggerAttackRelease (Chord [str "G4"; str "B4"]) "8n"] /\
  trace st2 <> [triggerAttackRelease (OneNote (str "G4")) "8n"].
Proof. vm_compute. repeat split; try reflexivity. discriminate. Qed.

(** ** Instrument change and camera stop *)

Lemma changeInstrument_resets (created fallbackCreated : option Behaviour) (st : State) :
  let st' := final (changeInstrument created fallbackCreated st) in
  isPlaying st' = false /\ currentNotes st' = [] /\
  lastFingerPositions st' = lastFingerPositions st /\
  (threw (changeInstrument created fallbackCreated st) = false -> synth st' <> None).
Proof.
  unfold changeInstrument. run.
  destruct (synth st) as [s |].
  - rewrite releaseNotes_spec. cbn [has_dispose]. run.
    destruct (instruments (instrumentSelect st)) as [c |];
      destruct created as [b |]; destruct fallbackCreated as [b' |]; run;
      repeat split; congruence.
  - destruct (instruments (instrumentSelect st)) as [c |];
      destruct created as [b |]; destruct fallbackCreated as [b' |]; run;
      repeat split; congruence.
Qed.

Lemma stopCamera_keeps (st : State) :
  let st' := final (stopCamera st) in
  isPlaying st' = isPlaying st /\ currentNotes st' = currentNotes st /\
  synth st' = synth st /\ lastFingerPositions st' = lastFingerPositions st.
Proof.
  unfold stopCamera. run. destruct (synth st) as [s |] eqn:Es.
  - destruct (has_releaseAll s); run; now repeat split.
  - run. now repeat split.
Qed.

(** On a monophonic voice, which has no [releaseAll], the camera stop throws
    (after the camera has stopped) and makes no call at all. *)
Lemma stopCamera_bass_throws :
  let r := stopCamera (playing bassSynth "C3") in
  threw r = true /\ cameraRunning (final r) = false /\ trace (final r) = [] /\
  isPlaying (final r) = true.
Proof. vm_compute. repeat split; reflexivity. Qed.

(** C9 fails on the code for the camera stop.  After the session above the
    voice is sounding "G4"; stopping the camera releases the voice and
    leaves [isPlaying] set and [currentNotes] as it was.  (An instrument
    change does reset both: [changeInstrument_resets].) *)
Theorem C9_stopCamera_keeps_playback_state :
  let st := final (stopCamera sessionState) in
  threw (stopCamera sessionState) = false /\
  cameraRunning sessionState = true /\
  cameraRunning st = false /\
  trace st = trace sessionState ++ [releaseAll] /\
  isPlaying st = true /\
  currentNotes st = [str "G4"].
Proof. vm_compute. repeat split; reflexivity. Qed.

(** ** Rate limit *)

Lemma positions_loop_length (landmarks : list Landmark.t) (indices : list (nat * nat))
    (acc positions : list Finger.t) :
  positions_loop landmarks indices acc = Some positions ->
  List.length positions = (List.length acc + List.length indices)%nat.
Proof.
  revert acc. induction indices as [| [t b] rest IH]; intros acc H; cbn [positions_loop] in H.
  - injection H as <-. cbn. lia.
  - destruct (fingerPosition landmarks t b); [|discriminate].
    apply IH in H. rewrite H, length_app. cbn. lia.
Qed.

Lemma calculateFingerPositions_length (landmarks : list Landmark.t)
    (fingerPositions : list Finger.t) :
  calculateFingerPositions landmarks = Some fingerPositions ->
  List.length fingerPositions = 5%nat.
Proof. intros H. apply positions_loop_length in H. exact H. Qed.

(** C10. With a previous frame recorded, the Playback Controller runs only
    when the detector reports a finger and [Tone.now() - lastNoteTime]
    exceeds 0.1: otherwise the frame changes nothing but
    [lastFingerPositions] - no call reaches the synthesizer, no timer is
    set, [currentNotes], [isPlaying] and [lastNoteTime] stay as they are.
    When both hold, the controller runs and [lastNoteTime] is set. *)
Theorem C10_rate_limit (landmarks : list Landmark.t)
    (fingerPositions lastPositions : list Finger.t) (now now' : float) (st : State) :
  calculateFingerPositions landmarks = Some fingerPositions ->
  lastFingerPositions st = Some lastPositions ->
  List.length lastPositions = 5%nat ->
  exists movedFingers,
    detectFingerMovement fingerPositions lastPositions = Some movedFingers /\
    (gt (now - lastNoteTime st)%float 0.1%float = false ->
     playMusicFromHandPosition landmarks now now' st
     = Returned tt (set_lastFingerPositions (Some fingerPositions) st)) /\
    (movedFingers = [] ->
     playMusicFromHandPosition landmarks now now' st
     = Returned tt (set_lastFingerPositions (Some fingerPositions) st)) /\
    (movedFingers <> [] ->
     gt (now - lastNoteTime st)%float 0.1%float = true ->
     forall notesToPlay,
       notes_loop movedFingers fingerPositions [] = Some notesToPlay ->
       playMusicFromHandPosition landmarks now now' st
       = Returned tt (set_lastFingerPositions (Some fingerPositions)
                        (set_lastNoteTime now' (afterPlayNotes notesToPlay st)))).
Proof.
  intros Hc Hl Hlen.
  pose proof (calculateFingerPositions_length _ _ Hc) as Hlen'.
  destruct (detect_five _ _ Hlen' Hlen) as (palm & _ & Hd).
  eexists. split; [exact Hd|].
  set (movedFingers := filter _ _) in *.
  unfold playMusicFromHandPosition. rewrite Hc. run. rewrite Hl, Hd. run.
  split; [|split].
  - intros Hg. rewrite Hg, andb_false_r. reflexivity.
  - intros ->. reflexivity.
  - intros Hne Hg notesToPlay Hn. rewrite Hg.
    destruct movedFingers as [| i rest]; [congruence|]. cbn [List.length Nat.ltb Nat.leb andb].
    unfold bind. rewrite (playNotes_spec _ _ _ _ Hn). reflexivity.
Qed.

Lemma C10_rate_limit_witness :
  calculateFingerPositions (hand 0.45) = Some (handPositions 0.45) /\
  lastFingerPositions watching = Some (handPositions 0.5) /\
  List.length (handPositions 0.5) = 5%nat /\
  detectFingerMovement (handPositions 0.45) (handPositions 0.5) = Some [1%nat] /\
  gt (0.05 - lastNoteTime watching)%float 0.1%float = false /\
  playMusicFromHandPosition (hand 0.45) 0.05 0.05 watching
  = Returned tt (set_lastFingerPositions (Some (handPositions 0.45)) watching).
Proof.
  assert (H1 : calculateFingerPositions (hand 0.45) = Some (handPositions 0.45))
    by (vm_compute; reflexivity).
  assert (H2 : lastFingerPositions watching = Some (handPositions 0.5))
    by (vm_compute; reflexivity).
  assert (H3 : List.length (handPositions 0.5) = 5%nat) by (vm_compute; reflexivity).
  assert (H4 : gt (0.05 - lastNoteTime watching)%float 0.1%float = false)
    by (vm_compute; reflexivity).
  split; [exact H1|]. split; [exact H2|]. split; [exact H3|].
  split; [vm_compute; reflexivity|]. split; [exact H4|].
  destruct (C10_rate_limit (hand 0.45) (handPositions 0.45) (handPositions 0.5)
              0.05%float 0.05%float watching H1 H2 H3) as (moved & _ & Hlim & _).
  exact (Hlim H4).
Defined.

(** ** An invariant of the running program *)

Lemma playNotes_throws (movedFingers : list nat) (fingerPositions : list Finger.t)
    (st : State) :
  notes_loop movedFingers fingerPositions [] = None ->
  playNotesForFingers movedFingers fingerPositions st = Thrown (afterRelease st).
Proof.
  intros H. unfold playNotesForFingers, afterRelease. rewrite H. run.
  destruct (synth st) as [s |]; [|reflexivity].
  destruct (0 <? List.length (currentNotes st))%nat; [|reflexivity].
  rewrite releaseNotes_spec. reflexivity.
Qed.

Lemma afterRelease_keeps (st : State) :
  isPlaying (afterRelease st) = isPlaying st /\
  synth (afterRelease st) = synth st /\
  lastFingerPositions (afterRelease st) = lastFingerPositions st.
Proof.
  unfold afterRelease. destruct (synth st) as [s |] eqn:Es; [|now repeat split].
  destruct (0 <? List.length (currentNotes st))%nat; now repeat split.
Qed.

Lemma afterPlayNotes_keeps (notesToPlay : list value) (st : State) :
  isPlaying (afterPlayNotes notesToPlay st) = isPlaying st /\
  synth (afterPlayNotes notesToPlay st) = synth st /\
  lastFingerPositions (afterPlayNotes notesToPlay st) = lastFingerPositions st.
Proof.
  unfold afterPlayNotes. destruct (afterRelease_keeps st) as (H1 & H2 & H3).
  destruct (synth st) as [s |]; [|now repeat split].
  destruct (0 <? List.length notesToPlay)%nat; now repeat split.
Qed.

Lemma Inv_keeps (st st' : State) :
  isPlaying st' = isPlaying st -> synth st' = synth st ->
  lastFingerPositions st' = lastFingerPositions st ->
  Inv st -> Inv st'.
Proof. intros H1 H2 H3 [I1 I2]. split; rewrite ?H1, ?H2, ?H3; assumption. Qed.

Lemma Inv_silent (st st' : State) :
  isPlaying st' = false -> lastFingerPositions st' = lastFingerPositions st ->
  Inv st -> Inv st'.
Proof.
  intros H1 H3 [_ I2]. split; [rewrite H1; discriminate | now rewrite H3].
Qed.

Lemma changeInstrument_inv (created fallbackCreated : option Behaviour) (st : State) :
  Inv st -> Inv (final (changeInstrument created fallbackCreated st)).
Proof.
  intros I. destruct (changeInstrument_resets created fallbackCreated st)
    as (H1 & _ & H3 & _).
  now apply (Inv_silent st).
Qed.

Lemma startCamera_inv (a : bool) (c f : option Behaviour) (k : bool) (st : State) :
  Inv st -> Inv (final (startCamera a c f k st)).
Proof.
  intros I. unfold startCamera. destruct a; [|exact I].
  pose proof (changeInstrument_inv c f st I) as I'.
  unfold tryCatch, bind.
  destruct (changeInstrument c f st) as [[] st1 | st1]; cbn [final] in *; [|exact I'].
  destruct k; [|exact I'].
  now apply (Inv_keeps st1).
Qed.

Lemma playMusic_inv (landmarks : list Landmark.t) (now now' : float) (st : State) :
  Inv st -> Inv (final (playMusicFromHandPosition landmarks now now' st)).
Proof.
  intros I. unfold playMusicFromHandPosition.
  destruct (calculateFingerPositions landmarks) as [fp |] eqn:Ec; run; [|exact I].
  pose proof (calculateFingerPositions_length _ _ Ec) as Hlen.
  assert (Hset : forall st1, isPlaying st1 = isPlaying st -> synth st1 = synth st ->
            Inv (set_lastFingerPositions (Some fp) st1)).
  { intros st1 H1 H2. destruct I as [I1 _]. split; cbn.
    - rewrite H1, H2. exact I1.
    - intros l E. injection E as <-. exact Hlen. }
  destruct (lastFingerPositions st) as [last |]; [|now apply Hset].
  destruct (detectFingerMovement fp last) as [moved |]; run; [|exact I].
  destruct ((0 <? List.length moved)%nat && gt (now - lastNoteTime st) 0.1);
    [|now apply Hset].
  unfold bind.
  destruct (notes_loop moved fp []) as [notes |] eqn:En.
  - rewrite (playNotes_spec _ _ _ _ En). run.
    destruct (afterPlayNotes_keeps notes st) as (H1 & H2 & _). now apply Hset.
  - rewrite (playNotes_throws _ _ _ En). cbn [final].
    destruct (afterRelease_keeps st) as (H1 & H2 & H3). now apply (Inv_keeps st).
Qed.

Lemma onHandResults_inv (hands : list (list Landmark.t)) (now now' : float) (st : State) :
  Inv st -> Inv (final (onHandResults hands now now' st)).
Proof.
  intros I. destruct hands as [| landmarks rest].
  - rewrite onHandResults_no_hand. cbn [final]. unfold afterNoHand.
    destruct (synth st) as [s |] eqn:Es; [|exact I].
    destruct (isPlaying st) eqn:Ep; [|exact I].
    now apply (Inv_silent st).
  - now apply playMusic_inv.
Qed.

Lemma startNotes_inv (notesToPlay : list value) (st : State) :
  Inv st -> Inv (final (startNotes notesToPlay st)).
Proof.
  intros I. destruct (synth st) as [s |] eqn:Es.
  - destruct (attack_throws (behaviour s) (attackArg notesToPlay)) eqn:Ha.
    + rewrite (startNotes_fallback _ s _ Es Ha). cbn [final]. unfold afterFallback.
      destruct (attackRelease_throws (behaviour s) (fallbackArg notesToPlay));
        [exact I | now apply (Inv_keeps st)].
    + rewrite (startNotes_ok _ s _ Es Ha). cbn [final]. unfold afterStart.
      destruct I as [_ I2].
      destruct (instrumentSelect st =? "bass")%string; split; cbn;
        solve [intros _; rewrite Es; discriminate | exact I2].
  - rewrite (startNotes_no_synth _ _ Es). exact I.
Qed.

Lemma fireTimer_inv (k : nat) (running : bool) (fallback : option Behaviour) (st : State) :
  Inv st -> Inv (final (fireTimer k running fallback st)).
Proof.
  intros I. unfold fireTimer. run.
  destruct (nth_error (timers st) k) as [[delay task] |]; [|exact I].
  assert (I' : Inv (set_timers (remove_nth k (timers st)) st))
    by now apply (Inv_keeps st).
  revert I'. generalize (set_timers (remove_nth k (timers st)) st). intros st1 I1.
  destruct task; cbn [runTask].
  - now apply startNotes_inv.
  - unfold autoReleaseBass. run. destruct (synth st1) as [s |]; [|exact I1].
    destruct (has_triggerRelease s && isPlaying st1); [|exact I1].
    now apply (Inv_keeps st1).
  - destruct (testNote_final selectedInstrument running fallback st1)
      as [-> | (c & -> & _)]; [exact I1 | now apply (Inv_keeps st1)].
Qed.

Lemma handle_inv (i : Input) (st : State) : Inv st -> Inv (final (handle i st)).
Proof.
  intros I. destruct i; cbn [handle].
  - now apply startCamera_inv.
  - destruct (stopCamera_keeps st) as (H1 & _ & H2 & H3). now apply (Inv_keeps st).
  - unfold bind, modify. apply changeInstrument_inv. now apply (Inv_keeps st).
  - now apply onHandResults_inv.
  - now apply fireTimer_inv.
Qed.

(** Whenever [isPlaying] is set there is a synthesizer, and a recorded
    previous frame has five fingers: the premises of C5, C6 and C10 hold in
    every state the program reaches. *)
Lemma reachable_inv (selected : string) (st : State) : reachable selected st -> Inv st.
Proof.
  induction 1 as [| i st _ IH].
  - split; [discriminate | discriminate].
  - now apply handle_inv.
Qed.

Lemma runInputs_reachable (selected : string) (inputs : list Input) (st : State) :
  reachable selected st -> reachable selected (runInputs inputs st).
Proof.
  revert st. induction inputs as [| i rest IH]; intros st H; [exact H|].
  cbn [runInputs]. apply IH. now constructor.
Qed.



(** * Further properties of the code

    ** Finger Geometry Extractor: which landmarks it reads *)

Lemma fingerPosition_some (landmarks : list Landmark.t) (t b : nat) :
  (t < List.length landmarks)%nat -> (b < List.length landmarks)%nat ->
  (0 < List.length landmarks)%nat ->
  exists tip base wrist,
    nth_error landmarks t = Some tip /\ nth_error landmarks b = Some base /\
    nth_error landmarks 0 = Some wrist /\
    fingerPosition landmarks t b = Some (fingerOf tip base wrist).
Proof.
  intros Ht Hb Hw. unfold fingerPosition, wristIndex.
  destruct (nth_error landmarks t) as [tip |] eqn:Et;
    [|apply nth_error_None in Et; lia].
  destruct (nth_error landmarks b) as [base |] eqn:Eb;
    [|apply nth_error_None in Eb; lia].
  destruct (nth_error landmarks 0) as [wrist |] eqn:Ew;
    [|apply nth_error_None in Ew; lia].
  exists tip, base, wrist. repeat split; reflexivity.
Qed.

Lemma calculateFingerPositions_short (landmarks : list Landmark.t) :
  (List.length landmarks < 21)%nat -> calculateFingerPositions landmarks = None.
Proof.
  intros Hlen. unfold calculateFingerPositions. cbn [combine fingerTips fingerBases].
  cbn [positions_loop].
  destruct (fingerPosition landmarks 4 2) as [p0 |]; [|reflexivity].
  destruct (fingerPosition landmarks 8 5) as [p1 |]; [|reflexivity].
  destruct (fingerPosition landmarks 12 9) as [p2 |]; [|reflexivity].
  destruct (fingerPosition landmarks 16 13) as [p3 |]; [|reflexivity].
  unfold fingerPosition.
  destruct (nth_error landmarks 20) as [tip |] eqn:Et; [|reflexivity].
  assert (nth_error landmarks 20 <> None) as Hn by congruence.
  apply nth_error_Some in Hn. lia.
Qed.

Lemma calculateFingerPositions_long (landmarks : list Landmark.t) :
  (21 <= List.length landmarks)%nat ->
  exists t0 t1 t2 t3 t4 b0 b1 b2 b3 b4 wrist,
    nth_error landmarks 4 = Some t0 /\ nth_error landmarks 8 = Some t1 /\
    nth_error landmarks 12 = Some t2 /\ nth_error landmarks 16 = Some t3 /\
    nth_error landmarks 20 = Some t4 /\
    nth_error landmarks 2 = Some b0 /\ nth_error landmarks 5 = Some b1 /\
    nth_error landmarks 9 = Some b2 /\ nth_error landmarks 13 = Some b3 /\
    nth_error landmarks 17 = Some b4 /\
    nth_error landmarks 0 = Some wrist /\
    calculateFingerPositions landmarks
    = Some [fingerOf t0 b0 wrist; fingerOf t1 b1 wrist; fingerOf t2 b2 wrist;
            fingerOf t3 b3 wrist; fingerOf t4 b4 wrist].
Proof.
  intros Hlen.
  destruct (fingerPosition_some landmarks 4 2) as (t0 & b0 & w & E0 & F0 & W & P0); try lia.
  destruct (fingerPosition_some landmarks 8 5) as (t1 & b1 & w1 & E1 & F1 & W1 & P1); try lia.
  destruct (fingerPosition_some landmarks 12 9) as (t2 & b2 & w2 & E2 & F2 & W2 & P2); try lia.
  destruct (fingerPosition_some landmarks 16 13) as (t3 & b3 & w3 & E3 & F3 & W3 & P3); try lia.
  destruct (fingerPosition_some landmarks 20 17) as (t4 & b4 & w4 & E4 & F4 & W4 & P4); try lia.
  assert (w1 = w) by congruence. assert (w2 = w) by congruence.
  assert (w3 = w) by congruence. assert (w4 = w) by congruence. subst.
  exists t0, t1, t2, t3, t4, b0, b1, b2, b3, b4, w.
  repeat (split; [assumption|]).
  unfold calculateFingerPositions. cbn [combine fingerTips fingerBases positions_loop].
  rewrite P0, P1, P2, P3, P4. reflexivity.
Qed.

Lemma calculateFingerPositions_some (landmarks : list Landmark.t)
    (positions : list Finger.t) :
  calculateFingerPositions landmarks = Some positions ->
  (21 <= List.length landmarks)%nat.
Proof.
  intros H. destruct (Nat.lt_ge_cases (List.length landmarks) 21) as [L | G]; [|exact G].
  rewrite (calculateFingerPositions_short _ L) in H. discriminate.
Qed.

(** X1.  [calculateFingerPositions] throws exactly when the hand has fewer than
    21 landmarks; otherwise it returns five records, the [i]-th built from
    the tip [fingerTips[i]], the base [fingerBases[i]] and the wrist
    (landmark 0): the tip's coordinates, its offset from the wrist, its
    distance from the base, and [height = 1 - tip.y]. *)
Theorem calculateFingerPositions_defined (landmarks : list Landmark.t) :
  (calculateFingerPositions landmarks = None <-> (List.length landmarks < 21)%nat) /\
  (forall positions,
      calculateFingerPositions landmarks = Some positions ->
      List.length positions = 5%nat /\
      forall i t b,
        nth_error fingerTips i = Some t -> nth_error fingerBases i = Some b ->
        exists tip base wrist,
          nth_error landmarks t = Some tip /\ nth_error landmarks b = Some base /\
          nth_error landmarks 0 = Some wrist /\
          nth_error positions i = Some (fingerOf tip base wrist) /\
          Finger.height (fingerOf tip base wrist) = (1 - Landmark.y tip)%float).
Proof.
  split.
  - split; [|apply calculateFingerPositions_short].
    intros Hnone. destruct (Nat.lt_ge_cases (List.length landmarks) 21) as [L | G];
      [exact L|].
    destruct (calculateFingerPositions_long _ G)
      as (t0 & t1 & t2 & t3 & t4 & b0 & b1 & b2 & b3 & b4 & w & H).
    destruct H as (_ & _ & _ & _ & _ & _ & _ & _ & _ & _ & _ & H). congruence.
  - intros positions Hsome.
    pose proof (calculateFingerPositions_some _ _ Hsome) as G.
    destruct (calculateFingerPositions_long _ G)
      as (t0 & t1 & t2 & t3 & t4 & b0 & b1 & b2 & b3 & b4 & w & H).
    destruct H as (E0 & E1 & E2 & E3 & E4 & F0 & F1 & F2 & F3 & F4 & W & H).
    rewrite H in Hsome. injection Hsome as <-. split; [reflexivity|].
    intros i t b Ht Hb.
    destruct i as [| [| [| [| [| i]]]]]; cbn in Ht, Hb;
      try (destruct i; discriminate);
      injection Ht as <-; injection Hb as <-;
      eexists _, _, _; repeat split; eassumption || reflexivity.
Qed.

Lemma calculateFingerPositions_defined_witness :
  calculateFingerPositions (hand 0.45) = Some (handPositions 0.45) /\
  List.length (handPositions 0.45) = 5%nat /\
  calculateFingerPositions (firstn 20 (hand 0.45)) = None.
Proof.
  assert (H : calculateFingerPositions (hand 0.45) = Some (handPositions 0.45))
    by (vm_compute; reflexivity).
  split; [exact H|].
  destruct (calculateFingerPositions_defined (hand 0.45)) as [_ Hsome].
  split; [exact (proj1 (Hsome _ H))|].
  apply (proj2 (proj1 (calculateFingerPositions_defined (firstn 20 (hand 0.45))))).
  cbn. lia.
Defined.

(** ** Signs: square roots are not negative, and differences change sign
    when their operands are swapped *)

Lemma binary_round_aux_opp (s : bool) (m e : Z) (l : location) :
  binary_round_aux prec emax (negb s) m e l
  = SFopp (binary_round_aux prec emax s m e l).
Proof.
  unfold binary_round_aux.
  destruct (shr_fexp prec emax m e l) as [mrs' e'].
  destruct (shr_fexp prec emax _ e' loc_Exact) as [mrs'' e''].
  destruct (shr_m mrs'') as [| p | p]; [reflexivity | | reflexivity].
  destruct (e'' <=? emax - prec); reflexivity.
Qed.

Lemma binary_round_aux_not_negative (m e : Z) (l : location) :
  SFnot_negative (binary_round_aux prec emax false m e l).
Proof.
  unfold binary_round_aux.
  destruct (shr_fexp prec emax m e l) as [mrs' e'].
  destruct (shr_fexp prec emax _ e' loc_Exact) as [mrs'' e''].
  destruct (shr_m mrs'') as [| p | p]; [exact I | | exact I].
  destruct (e'' <=? emax - prec); exact I.
Qed.

Lemma SFsqrt_not_negative (d : spec_float) : SFnot_negative (SFsqrt prec emax d).
Proof.
  destruct d as [[|] | [|] | | [|] m e]; try exact I.
  unfold SFsqrt. destruct (SFsqrt_core_binary prec emax (Zpos m) e) as [[mz ez] lz].
  apply binary_round_aux_not_negative.
Qed.

Lemma SFnot_negative_ltb (d : spec_float) :
  SFnot_negative d -> SFltb d (S754_zero false) = false.
Proof. destruct d as [[|] | [|] | | [|] m e]; intros H; try reflexivity; destruct H. Qed.

(** [Math.sqrt] never returns a negative number. *)
Lemma Math_sqrt_not_negative (d : float) : (Math_sqrt d <? 0)%float = false.
Proof.
  unfold Math_sqrt. rewrite ltb_spec, sqrt_spec. change (Prim2SF 0) with (S754_zero false).
  apply SFnot_negative_ltb. apply SFsqrt_not_negative.
Qed.

Lemma binary_normalize_opp (m e : Z) :
  m <> 0 ->
  binary_normalize prec emax (- m) e false
  = SFopp (binary_normalize prec emax m e false).
Proof.
  intros Hm. destruct m as [| p | p]; [congruence | |]; cbn [Z.opp binary_normalize];
    unfold binary_round;
    destruct (shl_align p e (fexp prec emax (Zpos (digits2_pos p) + e))) as [mz ez].
  - apply (binary_round_aux_opp false).
  - change false with (negb true) at 1. rewrite (binary_round_aux_opp true).
    now destruct (binary_round_aux prec emax true (Zpos mz) ez loc_Exact) as [[|] | [|] | | [|] ? ?].
Qed.

(** [b - a] is the opposite of [a - b], except that both are [+0] when the
    finite operands are equal. *)
Lemma SFsub_swap (a b : spec_float) :
  SFsub prec emax b a = SFopp (SFsub prec emax a b)
  \/ (SFsub prec emax a b = S754_zero false /\ SFsub prec emax b a = S754_zero false).
Proof.
  destruct a as [[|] | [|] | | sa ma ea]; destruct b as [[|] | [|] | | sb mb eb];
    try (left; reflexivity); try (right; split; reflexivity);
    try (left; cbn; now rewrite negb_involutive).
  unfold SFsub. cbv zeta. rewrite (Z.min_comm eb ea).
  set (ez := Z.min ea eb).
  set (A := cond_Zopp sa (Zpos (fst (shl_align ma ea ez)))).
  set (B := cond_Zopp sb (Zpos (fst (shl_align mb eb ez)))).
  destruct (Z.eq_dec (A - B) 0) as [E | N].
  - right. replace (B - A) with 0 by lia. rewrite E. split; reflexivity.
  - left. replace (B - A) with (- (A - B)) by lia. now apply binary_normalize_opp.
Qed.

Lemma float_sub_swap (a b : float) :
  (b - a)%float = (- (a - b))%float
  \/ ((a - b)%float = 0%float /\ (b - a)%float = 0%float).
Proof.
  destruct (SFsub_swap (Prim2SF a) (Prim2SF b)) as [H | [H1 H2]]; [left | right].
  - apply Prim2SF_inj. rewrite opp_spec, !sub_spec. exact H.
  - split; apply Prim2SF_inj; rewrite sub_spec; assumption.
Qed.

Lemma SFmul_opp_opp (d : spec_float) :
  SFmul prec emax (SFopp d) (SFopp d) = SFmul prec emax d d.
Proof. destruct d as [[|] | [|] | | [|] m e]; reflexivity. Qed.

Lemma Math_pow2_opp (d : float) : Math_pow2 (- d) = Math_pow2 d.
Proof.
  unfold Math_pow2. apply Prim2SF_inj. rewrite !mul_spec, opp_spec. apply SFmul_opp_opp.
Qed.

Lemma Math_abs_opp (d : float) : Math_abs (- d) = Math_abs d.
Proof.
  unfold Math_abs. apply Prim2SF_inj. rewrite !abs_spec, opp_spec.
  now destruct (Prim2SF d).
Qed.

Lemma Math_pow2_sub_swap (a b : float) : Math_pow2 (b - a) = Math_pow2 (a - b).
Proof.
  destruct (float_sub_swap a b) as [-> | [-> ->]]; [apply Math_pow2_opp | reflexivity].
Qed.

Lemma Math_abs_sub_swap (a b : float) : Math_abs (b - a) = Math_abs (a - b).
Proof.
  destruct (float_sub_swap a b) as [-> | [-> ->]]; [apply Math_abs_opp | reflexivity].
Qed.

Lemma tipDistance_swap (p q : Finger.t) : tipDistance q p = tipDistance p q.
Proof.
  unfold tipDistance.
  now rewrite (Math_pow2_sub_swap (Finger.x p)), (Math_pow2_sub_swap (Finger.y p)),
    (Math_pow2_sub_swap (Finger.z p)).
Qed.

Lemma extensionChangeOf_swap (p q : Finger.t) :
  extensionChangeOf q p = extensionChangeOf p q.
Proof. unfold extensionChangeOf. apply Math_abs_sub_swap. Qed.

Lemma fingerOf_In (landmarks : list Landmark.t) (positions : list Finger.t)
    (p : Finger.t) :
  calculateFingerPositions landmarks = Some positions -> In p positions ->
  exists tip base wrist,
    In tip landmarks /\ In base landmarks /\ In wrist landmarks /\
    p = fingerOf tip base wrist.
Proof.
  intros Hsome Hin.
  pose proof (calculateFingerPositions_some _ _ Hsome) as G.
  destruct (calculateFingerPositions_long _ G)
    as (t0 & t1 & t2 & t3 & t4 & b0 & b1 & b2 & b3 & b4 & w & H).
  destruct H as (E0 & E1 & E2 & E3 & E4 & F0 & F1 & F2 & F3 & F4 & W & H).
  rewrite H in Hsome. injection Hsome as <-.
  apply nth_error_In in E0, E1, E2, E3, E4, F0, F1, F2, F3, F4, W.
  destruct Hin as [<- | [<- | [<- | [<- | [<- | []]]]]];
    eexists _, _, _; repeat split; eassumption || reflexivity.
Qed.

Lemma Math_abs_not_negative (d : float) : (Math_abs d <? 0)%float = false.
Proof.
  unfold Math_abs. rewrite ltb_spec, abs_spec. change (Prim2SF 0) with (S754_zero false).
  now destruct (Prim2SF d) as [[|] | [|] | | [|] m e].
Qed.

(** X2.  No distance the script computes is negative: the extension of a finger,
    the displacement of a tip between two frames and the change of an
    extension are each NaN or at least zero, so the threshold tests of the
    detector compare magnitudes. *)
Theorem distances_never_negative :
  (forall landmarks positions p,
      calculateFingerPositions landmarks = Some positions -> In p positions ->
      (Finger.extension p <? 0)%float = false) /\
  (forall current last, (tipDistance current last <? 0)%float = false) /\
  (forall current last, (extensionChangeOf current last <? 0)%float = false).
Proof.
  split; [|split].
  - intros landmarks positions p Hsome Hin.
    destruct (fingerOf_In _ _ _ Hsome Hin) as (tip & base & wrist & _ & _ & _ & ->).
    apply Math_sqrt_not_negative.
  - intros current last. apply Math_sqrt_not_negative.
  - intros current last. apply Math_abs_not_negative.
Qed.

Lemma distances_never_negative_witness :
  calculateFingerPositions (hand 0.45) = Some (handPositions 0.45) /\
  In (fingerOf (point 0.4 0.45) (point 0.4 0.6) (point 0.5 0.9)) (handPositions 0.45) /\
  (Finger.extension (fingerOf (point 0.4 0.45) (point 0.4 0.6) (point 0.5 0.9)) <? 0)%float
  = false.
Proof.
  assert (H : calculateFingerPositions (hand 0.45) = Some (handPositions 0.45))
    by (vm_compute; reflexivity).
  assert (Hin : In (fingerOf (point 0.4 0.45) (point 0.4 0.6) (point 0.5 0.9))
                   (handPositions 0.45))
    by (right; left; vm_compute; reflexivity).
  split; [exact H|]. split; [exact Hin|].
  exact (proj1 distances_never_negative _ _ _ H Hin).
Defined.

(** ** Motion Detector: frames of any length, and the order of the frames *)

Lemma palm_loop_swap (indices : list nat) (cur last : list Finger.t) (total : float) :
  palm_loop indices last cur total = palm_loop indices cur last total.
Proof.
  revert total. induction indices as [| i rest IH]; intros total; cbn [palm_loop];
    [reflexivity|].
  destruct (nth_error cur i) as [c |], (nth_error last i) as [l |]; try reflexivity.
  rewrite (tipDistance_swap c l). apply IH.
Qed.

Lemma isPalm_swap (cur last : list Finger.t) :
  isPalmMovingSignificantly last cur = isPalmMovingSignificantly cur last.
Proof. unfold isPalmMovingSignificantly. cbv zeta. now rewrite palm_loop_swap. Qed.

Lemma detect_loop_swap (indices : list nat) (cur last : list Finger.t) (acc : list nat) :
  detect_loop indices last cur acc = detect_loop indices cur last acc.
Proof.
  revert acc. induction indices as [| i rest IH]; intros acc; cbn [detect_loop];
    [reflexivity|].
  destruct (nth_error cur i) as [c |], (nth_error last i) as [l |]; try reflexivity.
  cbv zeta. rewrite (tipDistance_swap c l), (extensionChangeOf_swap c l), (isPalm_swap cur last).
  destruct (gt (extensionChangeOf c l) (movementThreshold * 0.8)%float
            || gt (tipDistance c l) movementThreshold); [|apply IH].
  destruct (isPalmMovingSignificantly cur last) as [palm |]; [|reflexivity].
  destruct (negb palm || gt (extensionChangeOf c l) (movementThreshold * 1.5)%float);
    apply IH.
Qed.

(** X3.  The detector does not tell the frames apart: it reports the same
    fingers, and the same palm verdict, when the current and the previous
    frame are exchanged (frames of any length, any numbers, NaN included). *)
Theorem detectFingerMovement_symmetric (currentPositions lastPositions : list Finger.t) :
  detectFingerMovement lastPositions currentPositions
  = detectFingerMovement currentPositions lastPositions /\
  isPalmMovingSignificantly lastPositions currentPositions
  = isPalmMovingSignificantly currentPositions lastPositions /\
  (forall current last,
      tipDistance last current = tipDistance current last /\
      extensionChangeOf last current = extensionChangeOf current last).
Proof.
  split; [apply detect_loop_swap|]. split; [apply isPalm_swap|].
  intros current last. split; [apply tipDistance_swap | apply extensionChangeOf_swap].
Qed.

Lemma palm_loop_none (indices : list nat) (cur last : list Finger.t) (total : float)
    (k : nat) :
  In k indices -> nth_error cur k = None \/ nth_error last k = None ->
  palm_loop indices cur last total = None.
Proof.
  intros Hin Hk. revert total.
  induction indices as [| i rest IH]; intros total; [destruct Hin|].
  cbn [palm_loop].
  destruct (nth_error cur i) as [c |] eqn:Ec; [|reflexivity].
  destruct (nth_error last i) as [l |] eqn:El; [|reflexivity].
  destruct Hin as [-> | Hin]; [destruct Hk; congruence|].
  now apply IH.
Qed.

Lemma detect_loop_none (indices : list nat) (cur last : list Finger.t) (acc : list nat)
    (k : nat) :
  In k indices -> nth_error cur k = None \/ nth_error last k = None ->
  isPalmMovingSignificantly cur last = None ->
  detect_loop indices cur last acc = None.
Proof.
  intros Hin Hk Hp. revert acc.
  induction indices as [| i rest IH]; intros acc; [destruct Hin|].
  cbn [detect_loop].
  destruct (nth_error cur i) as [c |] eqn:Ec; [|reflexivity].
  destruct (nth_error last i) as [l |] eqn:El; [|reflexivity].
  assert (Hrest : In k rest) by (destruct Hin as [-> | Hin]; [destruct Hk; congruence | exact Hin]).
  cbv zeta. rewrite Hp.
  destruct (gt (extensionChangeOf c l) (movementThreshold * 0.8)%float
            || gt (tipDistance c l) movementThreshold); [reflexivity|].
  now apply IH.
Qed.

Lemma short_frame_index {A : Type} (l : list A) :
  (List.length l < 5)%nat ->
  In (List.length l) [0; 1; 2; 3; 4]%nat /\ nth_error l (List.length l) = None.
Proof.
  intros H. split; [|apply nth_error_None; lia].
  cbn. lia.
Qed.

Lemma detect_short (cur last : list Finger.t) :
  (List.length cur < 5)%nat \/ (List.length last < 5)%nat ->
  isPalmMovingSignificantly cur last = None /\ detectFingerMovement cur last = None.
Proof.
  intros H.
  assert (Hk : exists k, In k [0; 1; 2; 3; 4]%nat /\
                 (nth_error cur k = None \/ nth_error last k = None)).
  { destruct H as [H | H]; destruct (short_frame_index _ H) as [Hin Hn];
      eexists; split; eauto. }
  destruct Hk as (k & Hin & Hk).
  assert (Hp : isPalmMovingSignificantly cur last = None).
  { unfold isPalmMovingSignificantly. cbv zeta.
    now rewrite (palm_loop_none _ _ _ _ k Hin Hk). }
  split; [exact Hp|]. now apply (detect_loop_none _ _ _ _ k).
Qed.

Lemma palm_loop_ext (indices : list nat) (cur last cur' last' : list Finger.t)
    (total : float) :
  (forall i, In i indices ->
     nth_error cur' i = nth_error cur i /\ nth_error last' i = nth_error last i) ->
  palm_loop indices cur' last' total = palm_loop indices cur last total.
Proof.
  revert total. induction indices as [| i rest IH]; intros total H; [reflexivity|].
  cbn [palm_loop]. destruct (H i (or_introl eq_refl)) as [-> ->].
  destruct (nth_error cur i) as [c |], (nth_error last i) as [l |]; try reflexivity.
  apply IH. intros j Hj. apply H. now right.
Qed.

Lemma detect_loop_ext (indices : list nat) (cur last cur' last' : list Finger.t)
    (acc : list nat) :
  (forall i, In i indices ->
     nth_error cur' i = nth_error cur i /\ nth_error last' i = nth_error last i) ->
  isPalmMovingSignificantly cur' last' = isPalmMovingSignificantly cur last ->
  detect_loop indices cur' last' acc = detect_loop indices cur last acc.
Proof.
  intros H Hp. revert acc. induction indices as [| i rest IH]; intros acc; [reflexivity|].
  cbn [detect_loop]. destruct (H i (or_introl eq_refl)) as [-> ->]. rewrite Hp.
  assert (Hrest : forall j, In j rest ->
            nth_error cur' j = nth_error cur j /\ nth_error last' j = nth_error last j)
    by (intros j Hj; apply H; now right).
  destruct (nth_error cur i) as [c |], (nth_error last i) as [l |]; try reflexivity.
  cbv zeta.
  destruct (gt (extensionChangeOf c l) (movementThreshold * 0.8)%float
            || gt (tipDistance c l) movementThreshold); [|now apply IH].
  destruct (isPalmMovingSignificantly cur last) as [palm |]; [|reflexivity].
  destruct (negb palm || gt (extensionChangeOf c l) (movementThreshold * 1.5)%float);
    now apply IH.
Qed.

Lemma firstn5_nth {A : Type} (l : list A) (i : nat) :
  In i [0; 1; 2; 3; 4]%nat -> nth_error (firstn 5 l) i = nth_error l i.
Proof.
  intros H. rewrite nth_error_firstn.
  destruct (Nat.ltb_spec i 5) as [_ | G]; [reflexivity|]. cbn in H. lia.
Qed.

Lemma detect_firstn (cur last : list Finger.t) :
  isPalmMovingSignificantly (firstn 5 cur) (firstn 5 last)
  = isPalmMovingSignificantly cur last /\
  detectFingerMovement (firstn 5 cur) (firstn 5 last) = detectFingerMovement cur last.
Proof.
  assert (H : forall i, In i [0; 1; 2; 3; 4]%nat ->
            nth_error (firstn 5 cur) i = nth_error cur i /\
            nth_error (firstn 5 last) i = nth_error last i)
    by (intros i Hi; split; now apply firstn5_nth).
  assert (Hp : isPalmMovingSignificantly (firstn 5 cur) (firstn 5 last)
               = isPalmMovingSignificantly cur last).
  { unfold isPalmMovingSignificantly. cbv zeta. now rewrite (palm_loop_ext _ cur last). }
  split; [exact Hp|]. now apply detect_loop_ext.
Qed.

Lemma detect_long (cur last : list Finger.t) :
  (5 <= List.length cur)%nat -> (5 <= List.length last)%nat ->
  exists palm,
    isPalmMovingSignificantly cur last = Some palm /\
    detectFingerMovement cur last
    = Some (filter (keepsFinger (firstn 5 cur) (firstn 5 last) palm) [0; 1; 2; 3; 4]%nat).
Proof.
  intros Hc Hl. destruct (detect_firstn cur last) as [<- <-].
  apply detect_five; rewrite length_firstn; lia.
Qed.

Lemma filter_increasing (f : nat -> bool) :
  increasing_below 5 (filter f [0; 1; 2; 3; 4]%nat).
Proof.
  cbn [filter].
  destruct (f 0%nat), (f 1%nat), (f 2%nat), (f 3%nat), (f 4%nat);
    cbn [increasing_below]; repeat split; lia.
Qed.

(** X4.  [detectFingerMovement] throws exactly when one of the two frames has
    fewer than five records; it reads the first five records of each and
    nothing else; and what it returns lists finger indices below 5 in
    strictly increasing order, so no finger is reported twice. *)
Theorem detectFingerMovement_defined (currentPositions lastPositions : list Finger.t) :
  (detectFingerMovement currentPositions lastPositions = None <->
   (List.length currentPositions < 5)%nat \/ (List.length lastPositions < 5)%nat) /\
  (forall movedFingers,
      detectFingerMovement currentPositions lastPositions = Some movedFingers ->
      increasing_below 5 movedFingers) /\
  detectFingerMovement (firstn 5 currentPositions) (firstn 5 lastPositions)
  = detectFingerMovement currentPositions lastPositions.
Proof.
  split; [|split].
  - split; [|intros H; apply (detect_short _ _ H)].
    intros Hnone.
    destruct (Nat.lt_ge_cases (List.length currentPositions) 5) as [L | Gc]; [now left|].
    destruct (Nat.lt_ge_cases (List.length lastPositions) 5) as [L | Gl]; [now right|].
    destruct (detect_long _ _ Gc Gl) as (palm & _ & H). congruence.
  - intros movedFingers Hsome.
    destruct (Nat.lt_ge_cases (List.length currentPositions) 5) as [L | Gc];
      [rewrite (proj2 (detect_short _ _ (or_introl L))) in Hsome; discriminate|].
    destruct (Nat.lt_ge_cases (List.length lastPositions) 5) as [L | Gl];
      [rewrite (proj2 (detect_short _ _ (or_intror L))) in Hsome; discriminate|].
    destruct (detect_long _ _ Gc Gl) as (palm & _ & H).
    rewrite H in Hsome. injection Hsome as <-. apply filter_increasing.
  - apply detect_firstn.
Qed.

Lemma detectFingerMovement_defined_witness :
  detectFingerMovement twoFingerFrame restFrame = Some [1; 2]%nat /\
  increasing_below 5 [1; 2]%nat /\
  detectFingerMovement (firstn 4 twoFingerFrame) restFrame = None.
Proof.
  assert (H : detectFingerMovement twoFingerFrame restFrame = Some [1; 2]%nat)
    by (vm_compute; reflexivity).
  split; [exact H|].
  split; [exact (proj1 (proj2 (detectFingerMovement_defined twoFingerFrame restFrame)) _ H)|].
  apply (proj2 (proj1 (detectFingerMovement_defined (firstn 4 twoFingerFrame) restFrame))).
  left. cbn. lia.
Defined.

(** ** Pitch Mapper: the bands of the scale, and where [undefined] comes from *)

Lemma shr_1_nonneg (mrs : shr_record) : 0 <= shr_m mrs -> 0 <= shr_m (shr_1 mrs).
Proof. destruct mrs as [[| [p | p |] | p] r s]; cbn; lia. Qed.

Lemma iter_shr_1_nonneg (k : positive) (mrs : shr_record) :
  0 <= shr_m mrs -> 0 <= shr_m (iter_pos shr_1 k mrs).
Proof.
  revert mrs. induction k as [k IH | k IH |]; intros mrs H; cbn [iter_pos];
    auto using shr_1_nonneg.
Qed.

Lemma shr_fexp_nonneg (m e : Z) (l : location) :
  0 <= m -> 0 <= shr_m (fst (shr_fexp prec emax m e l)).
Proof.
  intros H. unfold shr_fexp, shr.
  assert (H0 : 0 <= shr_m (shr_record_of_loc m l)) by (destruct l as [| []]; exact H).
  destruct (fexp prec emax (Zdigits2 m + e) - e); cbn [fst]; try exact H0.
  now apply iter_shr_1_nonneg.
Qed.

Lemma round_nearest_even_nonneg (m : Z) (l : location) :
  0 <= m -> 0 <= round_nearest_even m l.
Proof.
  intros H. destruct l as [| []]; cbn [round_nearest_even]; try lia.
  destruct (Z.even m); lia.
Qed.

Lemma binary_round_aux_not_nan (s : bool) (m e : Z) (l : location) :
  0 <= m -> SFis_nan (binary_round_aux prec emax s m e l) = false.
Proof.
  intros H. unfold binary_round_aux.
  pose proof (shr_fexp_nonneg m e l H) as H1.
  destruct (shr_fexp prec emax m e l) as [mrs' e']. cbn [fst] in H1.
  pose proof (shr_fexp_nonneg _ e' loc_Exact
                (round_nearest_even_nonneg _ (loc_of_shr_record mrs') H1)) as H2.
  destruct (shr_fexp prec emax _ e' loc_Exact) as [mrs'' e'']. cbn [fst] in H2.
  destruct (shr_m mrs'') as [| p | p]; [reflexivity | | lia].
  destruct (e'' <=? emax - prec); reflexivity.
Qed.

Lemma binary_normalize_not_nan (m e : Z) :
  SFis_nan (binary_normalize prec emax m e false) = false.
Proof.
  destruct m as [| p | p]; [reflexivity | |]; cbn [binary_normalize]; unfold binary_round;
    destruct (shl_align p e (fexp prec emax (Zpos (digits2_pos p) + e))) as [mz ez];
    apply binary_round_aux_not_nan; lia.
Qed.

(** [1 - y] is NaN only when [y] is. *)
Lemma one_minus_nan (y : float) : is_nan (1 - y)%float = is_nan y.
Proof.
  rewrite !is_nan_spec, sub_spec.
  change (Prim2SF 1) with (S754_finite false 4503599627370496 (-52)).
  unfold SF64sub, SFsub.
  destruct (Prim2SF y) as [sy | sy | | sy my ey]; try reflexivity.
  cbv zeta. apply binary_normalize_not_nan.
Qed.

Lemma is_nan_eq (d : float) : is_nan d = true -> d = nan.
Proof.
  rewrite is_nan_spec. intros H. apply Prim2SF_inj.
  destruct (Prim2SF d); try discriminate. reflexivity.
Qed.

Lemma noteForHeight_scale (h : float) :
  is_nan h = false ->
  exists s, noteForHeight currentScale h = str s /\ In s currentScale.
Proof.
  intros Hn. unfold noteForHeight.
  pose proof (pitch_index_spec h Hn) as Hidx.
  rewrite <- (clampedNoteIndex_eight currentScale h eq_refl) in Hidx.
  pose proof (clampZ_range (8 * Fval h / unit1074)) as Hr.
  destruct (array_get_in_range currentScale _ _ Hidx) as (s & Hs & Hg);
    [change (Z.of_nat (List.length currentScale)) with 8; lia|].
  exists s. split; [exact Hg|]. now apply nth_error_In in Hs.
Qed.

Lemma noteForHeight_nan (h : float) :
  is_nan h = true -> noteForHeight currentScale h = undefined.
Proof. intros H. rewrite (is_nan_eq h H). vm_compute. reflexivity. Qed.

Lemma div_ge_iff (v T k : Z) : 0 < T -> (k <= 8 * v / (8 * T) <-> k * T <= v).
Proof.
  intros HT. split; intros H.
  - destruct (Z.le_gt_cases (k * T) v) as [L | G]; [exact L|].
    assert (8 * v / (8 * T) < k) by (apply Z.div_lt_upper_bound; lia). lia.
  - apply Z.div_le_lower_bound; lia.
Qed.

Lemma threshold_val (k : Z) :
  1 <= k <= 8 ->
  is_nan (Z2F k / 8)%float = false /\ Fval (Z2F k / 8)%float = k * 2 ^ 1071.
Proof.
  intros H.
  assert (E : k = 1 \/ k = 2 \/ k = 3 \/ k = 4 \/ k = 5 \/ k = 6 \/ k = 7 \/ k = 8) by lia.
  destruct E as [-> | [-> | [-> | [-> | [-> | [-> | [-> | ->]]]]]]];
    split; vm_compute; reflexivity.
Qed.

(** X5.  The scale is cut into eight bands of width 1/8 with no rounding at the
    edges: for a height that is a number, the index [k] is selected exactly
    when [k/8 <= h < (k+1)/8] in the comparison of numbers, the lowest band
    being open below and the highest open above. *)
Theorem pitch_bands (h : float) (k : Z) :
  is_nan h = false -> 0 <= k <= 7 ->
  (array_index (clampedNoteIndex currentScale h) = Some k <->
   (k = 0 \/ (Z2F k / 8 <=? h)%float = true) /\
   (k = 7 \/ (h <? Z2F (k + 1) / 8)%float = true)).
Proof.
  intros Hn Hk.
  rewrite (clampedNoteIndex_eight currentScale h eq_refl), (pitch_index_spec h Hn).
  assert (HT : 0 < 2 ^ 1071) by reflexivity.
  assert (EU : unit1074 = 8 * 2 ^ 1071) by reflexivity.
  assert (Hlo : forall j, 1 <= j <= 8 ->
            ((Z2F j / 8 <=? h)%float = true <-> j <= 8 * Fval h / unit1074)).
  { intros j Hj. destruct (threshold_val j Hj) as [Nj Vj].
    rewrite (leb_val _ _ Nj Hn), Vj, EU, (div_ge_iff _ _ _ HT). apply Z.leb_le. }
  assert (Hhi : forall j, 1 <= j <= 8 ->
            ((h <? Z2F j / 8)%float = true <-> 8 * Fval h / unit1074 < j)).
  { intros j Hj. destruct (threshold_val j Hj) as [Nj Vj].
    rewrite (ltb_val _ _ Hn Nj), Vj, Z.ltb_lt.
    pose proof (div_ge_iff (Fval h) _ j HT) as D. rewrite <- EU in D. lia. }
  revert Hlo Hhi. generalize (8 * Fval h / unit1074). intros q Hlo Hhi.
  unfold clampZ.
  destruct (Z.eq_dec k 0) as [-> | N0].
  - specialize (Hhi 1 ltac:(lia)). change (0 + 1) with 1.
    split.
    + intros E. split; [now left|]. right. apply Hhi. injection E as E. lia.
    + intros [_ [E | E]]; [discriminate|]. apply Hhi in E. f_equal. lia.
  - specialize (Hlo k ltac:(lia)).
    destruct (Z.eq_dec k 7) as [-> | N7].
    + split.
      * intros E. split; [|now left]. right. apply Hlo. injection E as E. lia.
      * intros [[E | E] _]; [discriminate|]. apply Hlo in E. f_equal. lia.
    + specialize (Hhi (k + 1) ltac:(lia)).
      split.
      * intros E. injection E as E. split; right; [apply Hlo | apply Hhi]; lia.
      * intros [[E | E] [F | F]]; try lia. apply Hlo in E. apply Hhi in F. f_equal. lia.
Qed.

Lemma pitch_bands_witness :
  is_nan 0.55%float = false /\ 0 <= 4 <= 7 /\
  (Z2F 4 / 8 <=? 0.55)%float = true /\ (0.55 <? Z2F (4 + 1) / 8)%float = true /\
  array_index (clampedNoteIndex currentScale 0.55%float) = Some 4.
Proof.
  assert (H1 : is_nan 0.55%float = false) by reflexivity.
  assert (H2 : 0 <= 4 <= 7) by lia.
  assert (H3 : (Z2F 4 / 8 <=? 0.55)%float = true) by (vm_compute; reflexivity).
  assert (H4 : (0.55 <? Z2F (4 + 1) / 8)%float = true) by (vm_compute; reflexivity).
  split; [exact H1|]. split; [exact H2|]. split; [exact H3|]. split; [exact H4|].
  apply (proj2 (pitch_bands 0.55%float 4 H1 H2)). split; right; assumption.
Defined.

Lemma notes_loop_spec (movedFingers : list nat) (fingerPositions : list Finger.t)
    (acc notesToPlay : list value) :
  notes_loop movedFingers fingerPositions acc = Some notesToPlay ->
  exists notes,
    notesToPlay = acc ++ notes /\
    Forall2 (fun i note =>
               exists position,
                 nth_error fingerPositions i = Some position /\
                 note = noteForHeight currentScale (Finger.height position))
            movedFingers notes.
Proof.
  revert acc. induction movedFingers as [| i rest IH]; intros acc H; cbn [notes_loop] in H.
  - injection H as <-. exists []. split; [now rewrite app_nil_r | constructor].
  - destruct (nth_error fingerPositions i) as [position |] eqn:E; [|discriminate].
    cbv zeta in H. destruct (IH _ H) as (notes & -> & HF).
    exists (noteForHeight currentScale (Finger.height position) :: notes).
    split; [now rewrite <- app_assoc|]. constructor; [|exact HF].
    now exists position.
Qed.

(** X6.  The notes handed to the synthesizer: one per moved finger, in the order
    of the fingers; a finger whose tip has a numeric [y] gives a note of the
    C-major scale, and a finger whose tip has [y = NaN], and only such a
    finger, gives [undefined]. *)
Theorem notes_for_hand (landmarks : list Landmark.t) (positions : list Finger.t)
    (movedFingers : list nat) (notesToPlay : list value) :
  calculateFingerPositions landmarks = Some positions ->
  notes_loop movedFingers positions [] = Some notesToPlay ->
  Forall2 (fun i note =>
             exists t tip,
               nth_error fingerTips i = Some t /\ nth_error landmarks t = Some tip /\
               (is_nan (Landmark.y tip) = false ->
                exists s, note = str s /\ In s cMajor) /\
               (is_nan (Landmark.y tip) = true -> note = undefined))
          movedFingers notesToPlay.
Proof.
  intros Hc Hn.
  pose proof (calculateFingerPositions_some _ _ Hc) as G.
  destruct (calculateFingerPositions_long _ G)
    as (t0 & t1 & t2 & t3 & t4 & b0 & b1 & b2 & b3 & b4 & w & H).
  destruct H as (E0 & E1 & E2 & E3 & E4 & _ & _ & _ & _ & _ & _ & H).
  rewrite H in Hc. injection Hc as <-.
  destruct (notes_loop_spec _ _ _ _ Hn) as (notes & -> & HF). cbn [app]. clear Hn.
  induction HF as [| i note rest notes (position & Hp & ->) _ IH]; [constructor|].
  constructor; [|exact IH].
  assert (Hnote : forall tip, Finger.height position = (1 - Landmark.y tip)%float ->
            (is_nan (Landmark.y tip) = false ->
             exists s, noteForHeight currentScale (Finger.height position) = str s /\
                       In s cMajor) /\
            (is_nan (Landmark.y tip) = true ->
             noteForHeight currentScale (Finger.height position) = undefined)).
  { intros tip ->. rewrite <- (one_minus_nan (Landmark.y tip)).
    split; [apply noteForHeight_scale | apply noteForHeight_nan]. }
  destruct i as [| [| [| [| [| i]]]]]; cbn [nth_error] in Hp;
    try (destruct i; discriminate); injection Hp as <-.
  - exists 4%nat, t0. repeat split; try assumption; now apply Hnote.
  - exists 8%nat, t1. repeat split; try assumption; now apply Hnote.
  - exists 12%nat, t2. repeat split; try assumption; now apply Hnote.
  - exists 16%nat, t3. repeat split; try assumption; now apply Hnote.
  - exists 20%nat, t4. repeat split; try assumption; now apply Hnote.
Qed.

Lemma notes_for_hand_witness :
  calculateFingerPositions (hand 0.45) = Some (handPositions 0.45) /\
  notes_loop [1%nat] (handPositions 0.45) [] = Some [str "G4"] /\
  Forall2 (fun i note =>
             exists t tip,
               nth_error fingerTips i = Some t /\ nth_error (hand 0.45) t = Some tip /\
               (is_nan (Landmark.y tip) = false ->
                exists s, note = str s /\ In s cMajor) /\
               (is_nan (Landmark.y tip) = true -> note = undefined))
          [1%nat] [str "G4"].
Proof.
  assert (H1 : calculateFingerPositions (hand 0.45) = Some (handPositions 0.45))
    by (vm_compute; reflexivity).
  assert (H2 : notes_loop [1%nat] (handPositions 0.45) [] = Some [str "G4"])
    by (vm_compute; reflexivity).
  split; [exact H1|]. split; [exact H2|].
  exact (notes_for_hand (hand 0.45) (handPositions 0.45) [1%nat] [str "G4"] H1 H2).
Defined.

(** ** Playback Controller: fingers without a position, no voice, no finger *)

Lemma notes_loop_none (movedFingers : list nat) (fingerPositions : list Finger.t)
    (acc : list value) :
  notes_loop movedFingers fingerPositions acc = None <->
  exists i, In i movedFingers /\ (List.length fingerPositions <= i)%nat.
Proof.
  revert acc. induction movedFingers as [| i rest IH]; intros acc; cbn [notes_loop].
  - split; [discriminate | intros (i & [] & _)].
  - destruct (nth_error fingerPositions i) as [position |] eqn:E.
    + cbv zeta. rewrite IH. split.
      * intros (j & Hj & Hlen). exists j. split; [now right | exact Hlen].
      * intros (j & [<- | Hj] & Hlen).
        -- apply nth_error_None in Hlen. congruence.
        -- now exists j.
    + split; [|reflexivity]. intros _. exists i. split; [now left|].
      now apply nth_error_None.
Qed.

(** X7.  [playNotesForFingers] throws exactly when a moved finger has no record in
    [fingerPositions]; by then the notes that were sounding have been
    released and [currentNotes] emptied, and no start is scheduled.  Without
    a synthesizer it changes nothing at all; with an empty list of fingers
    it releases the sounding notes and schedules nothing. *)
Theorem playNotesForFingers_edge_cases (movedFingers : list nat)
    (fingerPositions : list Finger.t) (st : State) :
  let r := playNotesForFingers movedFingers fingerPositions st in
  (threw r = true <->
   exists i, In i movedFingers /\ (List.length fingerPositions <= i)%nat) /\
  (threw r = true ->
   timers (final r) = timers st /\ isPlaying (final r) = isPlaying st /\
   forall s, synth st = Some s ->
     currentNotes (final r) = [] /\
     trace (final r)
     = trace st ++ (if (0 <? List.length (currentNotes st))%nat
                    then (if polyphonic (class s) then [releaseAll] else [triggerRelease])
                    else [])) /\
  (synth st = None -> final r = st) /\
  (forall s, synth st = Some s ->
     let r0 := playNotesForFingers [] fingerPositions st in
     threw r0 = false /\ timers (final r0) = timers st /\ currentNotes (final r0) = [] /\
     trace (final r0)
     = trace st ++ (if (0 <? List.length (currentNotes st))%nat
                    then (if polyphonic (class s) then [releaseAll] else [triggerRelease])
                    else [])).
Proof.
  intros r.
  assert (Hrel : forall s, synth st = Some s ->
            timers (afterRelease st) = timers st /\
            isPlaying (afterRelease st) = isPlaying st /\
            currentNotes (afterRelease st) = [] /\
            trace (afterRelease st)
            = trace st ++ (if (0 <? List.length (currentNotes st))%nat
                           then (if polyphonic (class s) then [releaseAll]
                                 else [triggerRelease])
                           else [])).
  { intros s Es. unfold afterRelease. rewrite Es.
    destruct (0 <? List.length (currentNotes st))%nat eqn:Ec.
    - repeat split; reflexivity.
    - repeat split; try reflexivity; [now apply length_zero_nil | now rewrite app_nil_r]. }
  assert (Hnone : synth st = None -> afterRelease st = st)
    by (intros Es; unfold afterRelease; now rewrite Es).
  split; [|split; [|split]].
  - rewrite <- (notes_loop_none movedFingers fingerPositions []). unfold r.
    destruct (notes_loop movedFingers fingerPositions []) as [notes |] eqn:En.
    + rewrite (playNotes_spec _ _ _ _ En). split; discriminate.
    + rewrite (playNotes_throws _ _ _ En). split; reflexivity.
  - unfold r. destruct (notes_loop movedFingers fingerPositions []) as [notes |] eqn:En.
    + rewrite (playNotes_spec _ _ _ _ En). discriminate.
    + rewrite (playNotes_throws _ _ _ En). intros _. cbn [final].
      destruct (synth st) as [s |] eqn:Es.
      * destruct (Hrel s eq_refl) as (H1 & H2 & H3 & H4).
        split; [exact H1|]. split; [exact H2|].
        intros s' E. injection E as <-. now split.
      * rewrite (Hnone eq_refl). split; [reflexivity|]. split; [reflexivity|]. discriminate.
  - intros Es. unfold r.
    destruct (notes_loop movedFingers fingerPositions []) as [notes |] eqn:En.
    + rewrite (playNotes_spec _ _ _ _ En). cbn [final]. unfold afterPlayNotes.
      rewrite Es. now apply Hnone.
    + rewrite (playNotes_throws _ _ _ En). now apply Hnone.
  - intros s Es r0. unfold r0. rewrite (playNotes_spec [] fingerPositions [] st eq_refl).
    cbn [final threw]. unfold afterPlayNotes. rewrite Es. cbn [List.length Nat.ltb Nat.leb].
    destruct (Hrel s Es) as (H1 & H2 & H3 & H4). now repeat split.
Qed.

Lemma playNotesForFingers_edge_cases_witness :
  threw (playNotesForFingers [5%nat] restFrame (playing polySynth "C4")) = true /\
  trace (final (playNotesForFingers [5%nat] restFrame (playing polySynth "C4")))
  = [releaseAll] /\
  timers (final (playNotesForFingers [5%nat] restFrame (playing polySynth "C4"))) = [].
Proof.
  pose proof (playNotesForFingers_edge_cases [5%nat] restFrame (playing polySynth "C4"))
    as (Hiff & Hthrown & _).
  cbv zeta in Hiff, Hthrown.
  assert (H : threw (playNotesForFingers [5%nat] restFrame (playing polySynth "C4")) = true).
  { apply Hiff. exists 5%nat. split; [now left | cbn; lia]. }
  split; [exact H|].
  destruct (Hthrown H) as (Ht & _ & Hs).
  destruct (Hs polySynth eq_refl) as (_ & Htr).
  split; [exact Htr | exact Ht].
Defined.

(** ** The bass: notes that stop by themselves *)

Lemma fire_last (task : Task) (delay : Z) (running : bool) (fallback : option Behaviour) (st : State) :
  fireTimer (List.length (timers st)) running fallback
            (set_timers (timers st ++ [(delay, task)]) st)
  = runTask task running fallback st.
Proof.
  unfold fireTimer. run. rewrite nth_error_last, remove_nth_last. run.
  now destruct st.
Qed.

(** X8.  A start that succeeds while the select element shows "bass" arms an
    800 ms timer, and on no other instrument.  When that timer fires the
    voice gets [triggerRelease], and [isPlaying] and [currentNotes] stay as
    the start left them: the note is recorded as sounding after it was
    stopped.  A timer that fires when nothing is recorded as playing makes
    no call. *)
Theorem bass_auto_release (notesToPlay : list value) (s : Synth) (st : State)
    (running : bool) (fallback : option Behaviour) :
  synth st = Some s ->
  attack_throws (behaviour s) (OneNote (hd undefined notesToPlay)) = false ->
  let st1 := final (startNotes notesToPlay st) in
  let st2 := final (fireTimer (List.length (timers st)) running fallback st1) in
  timers st1 = timers st ++ (if (instrumentSelect st =? "bass")%string
                             then [(800, AutoReleaseBass)] else []) /\
  (instrumentSelect st = "bass" ->
   trace st2 = trace st ++ [triggerAttack (OneNote (hd undefined notesToPlay));
                            triggerRelease] /\
   isPlaying st2 = true /\ currentNotes st2 = notesToPlay /\ timers st2 = timers st) /\
  (forall st', isPlaying st' = false -> autoReleaseBass st' = Returned tt st').
Proof.
  intros Es Ha st1 st2.
  assert (E1 : st1 = afterStart notesToPlay st)
    by (unfold st1; now rewrite (startNotes_ok _ s _ Es Ha)).
  split; [|split].
  - rewrite E1. unfold afterStart.
    destruct (instrumentSelect st =? "bass")%string; cbn; [reflexivity|].
    now rewrite app_nil_r.
  - intros Eb. unfold st2. rewrite E1. unfold afterStart. rewrite Eb.
    change ("bass" =? "bass")%string with true. cbv iota zeta.
    set (st0 := set_isPlaying true _).
    change (timers st) with (timers st0).
    rewrite (fire_last AutoReleaseBass 800 running fallback st0). cbn [runTask].
    unfold autoReleaseBass. run. subst st0. run. rewrite Es.
    cbn [has_triggerRelease andb]. run. rewrite <- app_assoc. now repeat split.
  - intros st' Hp. unfold autoReleaseBass. run.
    destruct (synth st') as [s' |]; [|reflexivity].
    now rewrite Hp, andb_false_r.
Qed.

Lemma bass_auto_release_witness :
  let st := set_instrumentSelect "bass" (withSynth bassSynth) in
  synth st = Some bassSynth /\
  attack_throws (behaviour bassSynth) (OneNote (hd undefined [str "C4"])) = false /\
  trace (final (fireTimer 0 true (Some quiet) (final (startNotes [str "C4"] st))))
  = [triggerAttack (OneNote (str "C4")); triggerRelease] /\
  isPlaying (final (fireTimer 0 true (Some quiet) (final (startNotes [str "C4"] st)))) = true.
Proof.
  cbv zeta.
  assert (H1 : synth (set_instrumentSelect "bass" (withSynth bassSynth)) = Some bassSynth)
    by reflexivity.
  assert (H2 : attack_throws (behaviour bassSynth) (OneNote (hd undefined [str "C4"]))
               = false) by reflexivity.
  split; [exact H1|]. split; [exact H2|].
  destruct (bass_auto_release [str "C4"] bassSynth
              (set_instrumentSelect "bass" (withSynth bassSynth)) true (Some quiet) H1 H2)
    as (_ & H & _).
  destruct (H eq_refl) as (Ht & Hp & _).
  split; [exact Ht | exact Hp].
Defined.

(** ** Instrument change: the old voice, the new voice, the test note *)

Lemma changeInstrument_spec (created fallbackCreated : option Behaviour) (st : State) :
  let st0 := set_currentNotes []
               (set_isPlaying false
                  (set_trace (trace st ++ match synth st with
                                          | Some s => released s ++ [dispose]
                                          | None => []
                                          end) st)) in
  changeInstrument created fallbackCreated st
  = match instruments (instrumentSelect st), created with
    | Some c, Some b =>
        Returned tt (set_timers (timers st ++ [(500, TestNote (instrumentSelect st))])
                       (set_synth (Some {| class := c; behaviour := b |}) st0))
    | _, _ =>
        match fallbackCreated with
        | Some b => Returned tt (set_synth (Some {| class := BasicSynth; behaviour := b |}) st0)
        | None => Thrown st0
        end
    end.
Proof.
  unfold changeInstrument. run.
  destruct (synth st) as [s |].
  - rewrite releaseNotes_spec. cbn [has_dispose]. run. rewrite <- app_assoc.
    destruct (instruments (instrumentSelect st)) as [c |];
      destruct created as [b |]; destruct fallbackCreated as [b' |]; reflexivity.
  - rewrite app_nil_r.
    destruct (instruments (instrumentSelect st)) as [c |];
      destruct created as [b |]; destruct fallbackCreated as [b' |]; run;
      now destruct st.
Qed.

(** X9.  [changeInstrument] releases and then disposes the old voice, in that
    order.  It throws exactly when the selected instrument cannot be built
    (its name is not in [instruments], or its [create] throws) and the
    fallback [new Tone.Synth()] throws too; [synth] then still holds the
    handle that was just disposed.  A successful [create] arms the 500 ms
    test note; the fallback voice, a monophonic [Tone.Synth], gets none. *)
Theorem changeInstrument_outcome (created fallbackCreated : option Behaviour) (st : State) :
  let r := changeInstrument created fallbackCreated st in
  let selected := instrumentSelect st in
  trace (final r) = trace st ++ match synth st with
                                | Some s => (if polyphonic (class s) then [releaseAll]
                                             else [triggerRelease]) ++ [dispose]
                                | None => []
                                end /\
  (threw r = true <->
   (instruments selected = None \/ created = None) /\ fallbackCreated = None) /\
  (threw r = true -> synth (final r) = synth st /\ timers (final r) = timers st) /\
  (forall c b, instruments selected = Some c -> created = Some b ->
     threw r = false /\
     synth (final r) = Some {| class := c; behaviour := b |} /\
     timers (final r) = timers st ++ [(500, TestNote selected)]) /\
  (forall b, instruments selected = None \/ created = None -> fallbackCreated = Some b ->
     threw r = false /\
     synth (final r) = Some {| class := BasicSynth; behaviour := b |} /\
     timers (final r) = timers st).
Proof.
  intros r selected. unfold r, selected. rewrite changeInstrument_spec. cbv zeta.
  split; [|split; [|split; [|split]]].
  - destruct (instruments (instrumentSelect st)) as [c |];
      destruct created as [b |]; destruct fallbackCreated as [b' |]; reflexivity.
  - destruct (instruments (instrumentSelect st)) as [c |];
      destruct created as [b |]; destruct fallbackCreated as [b' |]; cbn [threw];
      intuition congruence.
  - destruct (instruments (instrumentSelect st)) as [c |];
      destruct created as [b |]; destruct fallbackCreated as [b' |]; cbn [threw final];
      intros H; try discriminate H; now split.
  - intros c b -> ->. now repeat split.
  - intros b H ->.
    destruct (instruments (instrumentSelect st)) as [c |];
      destruct created as [b' |]; try (now repeat split).
    destruct H; discriminate.
Qed.

Lemma changeInstrument_outcome_witness :
  let st := set_instrumentSelect "theremin" (playing polySynth "C4") in
  (instruments "theremin" = None \/ Some quiet = None) /\
  trace (final (changeInstrument (Some quiet) (Some quiet) st)) = [releaseAll; dispose] /\
  synth (final (changeInstrument (Some quiet) (Some quiet) st))
  = Some {| class := BasicSynth; behaviour := quiet |} /\
  timers (final (changeInstrument (Some quiet) (Some quiet) st)) = [].
Proof.
  cbv zeta.
  assert (H : instruments "theremin" = None \/ Some quiet = None) by (left; reflexivity).
  split; [exact H|].
  destruct (changeInstrument_outcome (Some quiet) (Some quiet)
              (set_instrumentSelect "theremin" (playing polySynth "C4")))
    as (Ht & _ & _ & _ & Hf).
  destruct (Hf quiet H eq_refl) as (_ & Hs & Hm).
  split; [exact Ht|]. split; [exact Hs | exact Hm].
Defined.

Lemma select_spec (name : string) (created fallbackCreated : option Behaviour) (st : State) :
  handle (SelectInstrument name created fallbackCreated) st
  = changeInstrument created fallbackCreated (set_instrumentSelect name st).
Proof. reflexivity. Qed.

(** The test note on a voice: its argument, and what the catch block does
    when the call on the voice throws. *)
Lemma testNote_spec (selectedInstrument : string) (fallback : option Behaviour)
    (s : Synth) (st : State) :
  synth st = Some s ->
  let arg := if (selectedInstrument =? "bass")%string
             then OneNote (str "C3")
             else Chord [str "C4"; str "E4"; str "G4"] in
  testNote selectedInstrument true fallback st
  = if attackRelease_throws (behaviour s) arg
    then match fallback with
         | Some b =>
             if attackRelease_throws b (OneNote (str "C4")) then Thrown st
             else Returned tt (set_trace (trace st ++ [fallbackTestNote]) st)
         | None => Thrown st
         end
    else Returned tt (set_trace (trace st ++ [triggerAttackRelease arg "8n"]) st).
Proof.
  intros Es. unfold testNote. run. rewrite Es. run. unfold do_triggerAttackRelease.
  cbn [has_triggerAttackRelease negb orb].
  destruct (selectedInstrument =? "bass")%string;
    destruct (attackRelease_throws (behaviour s) _); try reflexivity;
    destruct fallback as [b |]; try reflexivity;
    destruct (attackRelease_throws b (OneNote (str "C4"))); reflexivity.
Qed.

(** X10.  The test note is chosen by the instrument selected when the timer was
    armed and played on the voice held when it fires.  After two changes of
    instrument within the 500 ms both test notes are pending, and the first
    sounds on the second instrument: the chord of the piano on the bass,
    say.  When the test note throws, the catch block builds a fresh
    [Tone.Synth] and plays "C4" on it; nothing catches a failure there, so
    the timer callback throws when that voice cannot be built or its call
    throws, and no call is then recorded.  Either way the timer is consumed,
    and no test note is played while the audio context is not running. *)
Theorem test_note_uses_current_voice (name1 name2 : string) (c1 c2 : ToneClass)
    (b1 b2 : Behaviour) (f1 f2 fallback : option Behaviour) (st : State) :
  instruments name1 = Some c1 -> instruments name2 = Some c2 ->
  let st1 := final (handle (SelectInstrument name1 (Some b1) f1) st) in
  let st2 := final (handle (SelectInstrument name2 (Some b2) f2) st1) in
  let fired := fireTimer (List.length (timers st)) true fallback st2 in
  let arg := if (name1 =? "bass")%string
             then OneNote (str "C3")
             else Chord [str "C4"; str "E4"; str "G4"] in
  timers st2 = timers st ++ [(500, TestNote name1); (500, TestNote name2)] /\
  synth st2 = Some {| class := c2; behaviour := b2 |} /\
  timers (final fired) = timers st ++ [(500, TestNote name2)] /\
  (attackRelease_throws b2 arg = false ->
   threw fired = false /\
   trace (final fired) = trace st2 ++ [triggerAttackRelease arg "8n"]) /\
  (attackRelease_throws b2 arg = true ->
   (threw fired = true <->
    fallback = None \/
    exists b, fallback = Some b /\ attackRelease_throws b (OneNote (str "C4")) = true) /\
   trace (final fired) = trace st2 ++ (if threw fired then [] else [fallbackTestNote])) /\
  fireTimer (List.length (timers st)) false fallback st2
  = Returned tt (set_timers (timers st ++ [(500, TestNote name2)]) st2).
Proof.
  intros E1 E2 st1 st2 fired arg.
  assert (H1 : timers st1 = timers st ++ [(500, TestNote name1)]).
  { unfold st1. rewrite select_spec, changeInstrument_spec.
    cbn [instrumentSelect set_instrumentSelect]. rewrite E1. reflexivity. }
  assert (H2 : timers st2 = timers st ++ [(500, TestNote name1); (500, TestNote name2)] /\
               synth st2 = Some {| class := c2; behaviour := b2 |}).
  { unfold st2. rewrite select_spec, changeInstrument_spec.
    cbn [instrumentSelect set_instrumentSelect]. rewrite E2. cbn [final].
    split; [|reflexivity].
    cbn [timers set_timers set_synth set_currentNotes set_isPlaying set_trace
         set_instrumentSelect].
    rewrite H1, <- app_assoc. reflexivity. }
  destruct H2 as [H2 Hs].
  assert (Hn : nth_error (timers st2) (List.length (timers st)) = Some (500, TestNote name1))
    by (rewrite H2; now rewrite nth_error_app2, Nat.sub_diag by lia).
  assert (Hr : remove_nth (List.length (timers st)) (timers st2)
               = timers st ++ [(500, TestNote name2)]).
  { rewrite H2. clear. induction (timers st) as [| t l IH]; [reflexivity|].
    cbn [List.length app remove_nth]. now rewrite IH. }
  split; [exact H2|]. split; [exact Hs|].
  assert (Hoff : fireTimer (List.length (timers st)) false fallback st2
                 = Returned tt (set_timers (timers st ++ [(500, TestNote name2)]) st2)).
  { unfold fireTimer. run. rewrite Hn, Hr. reflexivity. }
  assert (Hon : fired
                = testNote name1 true fallback
                    (set_timers (timers st ++ [(500, TestNote name2)]) st2)).
  { unfold fired, fireTimer. run. rewrite Hn, Hr. reflexivity. }
  rewrite Hon.
  rewrite (testNote_spec name1 fallback {| class := c2; behaviour := b2 |}) by exact Hs.
  cbv zeta. fold arg. cbn [behaviour].
  split; [|split; [|split; [|exact Hoff]]].
  - destruct (attackRelease_throws b2 arg); [|reflexivity].
    destruct fallback as [b |]; [|reflexivity].
    destruct (attackRelease_throws b (OneNote (str "C4"))); reflexivity.
  - intros ->. split; reflexivity.
  - intros ->. destruct fallback as [b |].
    + destruct (attackRelease_throws b (OneNote (str "C4"))) eqn:Eb; cbn [threw final].
      * split; [|now rewrite app_nil_r]. split; [|reflexivity].
        intros _. right. now exists b.
      * split; [|reflexivity]. split; [discriminate|].
        intros [H | (b' & H & Hb)]; [discriminate|]. injection H as <-. congruence.
    + cbn [threw final]. split; [|now rewrite app_nil_r].
      split; [intros _; now left | reflexivity].
Qed.

Lemma test_note_uses_current_voice_witness :
  instruments "piano" = Some Sampler /\ instruments "bass" = Some MonoSynth /\
  (let st1 := final (handle (SelectInstrument "piano" (Some quiet) None) (initial "synth")) in
   let st2 := final (handle (SelectInstrument "bass" (Some noChords) None) st1) in
   synth st2 = Some {| class := MonoSynth; behaviour := noChords |} /\
   attackRelease_throws noChords (Chord [str "C4"; str "E4"; str "G4"]) = true /\
   threw (fireTimer 0 true None st2) = true /\
   trace (final (fireTimer 0 true None st2)) = trace st2 ++ [] /\
   trace (final (fireTimer 0 true (Some quiet) st2)) = trace st2 ++ [fallbackTestNote]).
Proof.
  assert (H1 : instruments "piano" = Some Sampler) by reflexivity.
  assert (H2 : instruments "bass" = Some MonoSynth) by reflexivity.
  split; [exact H1|]. split; [exact H2|]. cbv zeta.
  assert (Ha : attackRelease_throws noChords (Chord [str "C4"; str "E4"; str "G4"]) = true)
    by reflexivity.
  destruct (test_note_uses_current_voice "piano" "bass" Sampler MonoSynth quiet noChords
              None None None (initial "synth") H1 H2) as (_ & Hs & _ & _ & Hn & _).
  destruct (test_note_uses_current_voice "piano" "bass" Sampler MonoSynth quiet noChords
              None None (Some quiet) (initial "synth") H1 H2) as (_ & _ & _ & _ & Hq & _).
  destruct (Hn Ha) as [Hthrew Htrace]. destruct (Hq Ha) as [_ Hquiet].
  split; [exact Hs|]. split; [exact Ha|].
  assert (Ht : threw (fireTimer 0 true None
                        (final (handle (SelectInstrument "bass" (Some noChords) None)
                                  (final (handle (SelectInstrument "piano" (Some quiet) None)
                                            (initial "synth")))))) = true)
    by (apply Hthrew; now left).
  split; [exact Ht|]. split.
  - change (List.length (timers (initial "synth"))) with 0%nat in Htrace.
    rewrite Ht in Htrace. exact Htrace.
  - exact Hquiet.
Defined.

(** ** Camera stop and camera start *)

Lemma instruments_monophonic (name : string) (c : ToneClass) :
  instruments name = Some c -> (polyphonic c = false <-> name = "bass").
Proof.
  unfold instruments.
  destruct (name =? "piano")%string eqn:E1;
    [apply String.eqb_eq in E1; subst; intros [= <-]; split; discriminate|].
  destruct (name =? "synth")%string eqn:E2;
    [apply String.eqb_eq in E2; subst; intros [= <-]; split; discriminate|].
  destruct (name =? "marimba")%string eqn:E3;
    [apply String.eqb_eq in E3; subst; intros [= <-]; split; discriminate|].
  destruct (name =? "guitar")%string eqn:E4;
    [apply String.eqb_eq in E4; subst; intros [= <-]; split; discriminate|].
  destruct (name =? "bass")%string eqn:E5; [|discriminate].
  apply String.eqb_eq in E5. subst. intros [= <-]. split; reflexivity.
Qed.

Lemma stopCamera_spec (st : State) :
  stopCamera st
  = match synth st with
    | Some s =>
        if polyphonic (class s)
        then Returned tt (set_trace (trace st ++ [releaseAll]) (set_cameraRunning false st))
        else Thrown (set_cameraRunning false st)
    | None => Returned tt (set_cameraRunning false st)
    end.
Proof.
  unfold stopCamera. run. destruct (synth st) as [s |]; [|reflexivity].
  unfold has_releaseAll. destruct (polyphonic (class s)); reflexivity.
Qed.

(** X11.  [stopCamera] calls [releaseAll] without asking whether the voice has it:
    on a monophonic voice it throws, after the camera has stopped and
    without releasing anything; on a polyphonic voice it makes that one
    call.  Either way it leaves the pending timers alone.  Of the voices
    [changeInstrument] builds, the monophonic ones are the bass and the
    fallback for an unknown instrument. *)
Theorem stopCamera_outcome (st : State) :
  let r := stopCamera st in
  (threw r = true <-> exists s, synth st = Some s /\ polyphonic (class s) = false) /\
  trace (final r) = trace st ++ match synth st with
                                | Some s => if polyphonic (class s) then [releaseAll] else []
                                | None => []
                                end /\
  cameraRunning (final r) = false /\
  timers (final r) = timers st /\
  (forall name b f,
      let selected := final (handle (SelectInstrument name (Some b) (Some f)) st) in
      threw (stopCamera selected) = true <-> name = "bass" \/ instruments name = None).
Proof.
  intros r. unfold r. rewrite stopCamera_spec.
  split; [|split; [|split; [|split]]].
  - destruct (synth st) as [s |]; [|split; [discriminate | intros (s & E & _); discriminate]].
    destruct (polyphonic (class s)) eqn:Ep; cbn [threw]; split; try discriminate.
    + intros (s' & E & Hp). injection E as <-. congruence.
    + intros _. now exists s.
    + reflexivity.
  - destruct (synth st) as [s |]; [|now rewrite app_nil_r].
    destruct (polyphonic (class s)); [reflexivity | now rewrite app_nil_r].
  - destruct (synth st) as [s |]; [|reflexivity].
    destruct (polyphonic (class s)); reflexivity.
  - destruct (synth st) as [s |]; [|reflexivity].
    destruct (polyphonic (class s)); reflexivity.
  - intros name b f. rewrite select_spec, changeInstrument_spec.
    cbn [instrumentSelect set_instrumentSelect]. cbv zeta.
    destruct (instruments name) as [c |] eqn:Ei; cbn [final]; rewrite stopCamera_spec;
      cbn [synth set_synth set_timers class].
    + pose proof (instruments_monophonic name c Ei) as Hm.
      destruct (polyphonic c); cbn [threw]; split.
      * discriminate.
      * intros [H | H]; [|discriminate]. apply Hm in H. discriminate.
      * intros _. left. now apply Hm.
      * reflexivity.
    + cbn [polyphonic threw]. split; [now right | reflexivity].
Qed.

Lemma stopCamera_outcome_witness :
  (exists s, synth (playing bassSynth "C3") = Some s /\ polyphonic (class s) = false) /\
  threw (stopCamera (playing bassSynth "C3")) = true /\
  trace (final (stopCamera (playing bassSynth "C3"))) = [].
Proof.
  assert (H : exists s, synth (playing bassSynth "C3") = Some s /\
                        polyphonic (class s) = false)
    by (exists bassSynth; split; reflexivity).
  split; [exact H|].
  destruct (stopCamera_outcome (playing bassSynth "C3")) as (Hiff & Ht & _).
  split; [exact (proj2 Hiff H) | exact Ht].
Defined.

Lemma remove_nth_length {A : Type} (k : nat) (l : list A) :
  (k < List.length l)%nat -> List.length (remove_nth k l) = pred (List.length l).
Proof.
  revert k. induction l as [| a l IH]; intros k H; [cbn in H; lia|].
  destruct k as [| k]; [reflexivity|]. cbn [remove_nth List.length] in *.
  rewrite IH by lia. lia.
Qed.

(** X12.  Stopping the camera cancels nothing: a start of notes scheduled just
    before the stop still runs after it, sounds its first note and records
    the notes as playing, with the camera off. *)
Theorem start_pending_at_camera_stop (k : nat) (delay : Z) (notesToPlay : list value)
    (s : Synth) (st : State) (running : bool) (fallback : option Behaviour) :
  synth st = Some s ->
  nth_error (timers st) k = Some (delay, StartNotes notesToPlay) ->
  attack_throws (behaviour s) (OneNote (hd undefined notesToPlay)) = false ->
  let st1 := final (stopCamera st) in
  let st2 := final (fireTimer k running fallback st1) in
  cameraRunning st2 = false /\
  isPlaying st2 = true /\
  currentNotes st2 = notesToPlay /\
  trace st2 = trace st1 ++ [triggerAttack (OneNote (hd undefined notesToPlay))].
Proof.
  intros Es Hk Ha st1 st2.
  assert (H1 : synth st1 = Some s /\ timers st1 = timers st /\ cameraRunning st1 = false).
  { unfold st1. rewrite stopCamera_spec, Es. destruct (polyphonic (class s)); now repeat split. }
  destruct H1 as (Es1 & Et1 & Ec1).
  unfold st2, fireTimer. run. rewrite Et1, Hk. run. cbn [runTask].
  set (st0 := set_timers _ st1).
  assert (Es0 : synth st0 = Some s) by exact Es1.
  rewrite (startNotes_ok _ s st0 Es0 Ha). cbn [final]. unfold afterStart.
  destruct (instrumentSelect st0 =? "bass")%string; repeat split; exact Ec1.
Qed.

Lemma start_pending_at_camera_stop_witness :
  let st := final (playNotesForFingers [1%nat] twoFingerFrame (withSynth polySynth)) in
  synth st = Some polySynth /\
  nth_error (timers st) 0 = Some (10, StartNotes [str "G4"]) /\
  attack_throws (behaviour polySynth) (OneNote (hd undefined [str "G4"])) = false /\
  isPlaying (final (fireTimer 0 true (Some quiet) (final (stopCamera st)))) = true /\
  currentNotes (final (fireTimer 0 true (Some quiet) (final (stopCamera st)))) = [str "G4"].
Proof.
  cbv zeta.
  set (st := final (playNotesForFingers [1%nat] twoFingerFrame (withSynth polySynth))).
  assert (H1 : synth st = Some polySynth) by (vm_compute; reflexivity).
  assert (H2 : nth_error (timers st) 0 = Some (10, StartNotes [str "G4"]))
    by (vm_compute; reflexivity).
  assert (H3 : attack_throws (behaviour polySynth) (OneNote (hd undefined [str "G4"]))
               = false) by reflexivity.
  split; [exact H1|]. split; [exact H2|]. split; [exact H3|].
  destruct (start_pending_at_camera_stop 0 10 [str "G4"] polySynth st true (Some quiet) H1 H2 H3)
    as (_ & Hp & Hc & _).
  split; [exact Hp | exact Hc].
Defined.

(** X13.  The start button never throws.  When the audio context cannot be
    started nothing changes; when the instrument cannot be built the camera
    is not started, and the state is the one the failed change left; when
    the camera cannot be started the new instrument (and its pending test
    note) stays. *)
Theorem startCamera_outcome (audioStarted : bool) (created fallbackCreated : option Behaviour)
    (cameraStarted : bool) (st : State) :
  let r := startCamera audioStarted created fallbackCreated cameraStarted st in
  let changed := changeInstrument created fallbackCreated st in
  threw r = false /\
  (audioStarted = false -> final r = st) /\
  (audioStarted = true -> threw changed = true -> final r = final changed) /\
  (audioStarted = true -> threw changed = false ->
   final r = if cameraStarted then set_cameraRunning true (final changed)
             else final changed) /\
  (cameraRunning (final r) = true -> cameraRunning st = false ->
   audioStarted = true /\ cameraStarted = true /\ synth (final r) <> None).
Proof.
  intros r changed. unfold r, startCamera, changed.
  destruct audioStarted.
  - unfold tryCatch, bind.
    pose proof (changeInstrument_resets created fallbackCreated st) as (_ & _ & _ & Hs).
    assert (Hc : cameraRunning (final (changeInstrument created fallbackCreated st))
                 = cameraRunning st).
    { rewrite changeInstrument_spec. cbv zeta.
      destruct (instruments (instrumentSelect st)), created, fallbackCreated; reflexivity. }
    destruct (changeInstrument created fallbackCreated st) as [[] st1 | st1];
      cbn [final threw] in *.
    + destruct cameraStarted; run; repeat split; intros;
        try discriminate; try reflexivity; try congruence.
      all: try (cbn in *; now apply (Hs eq_refl)).
    + run. repeat split; intros; try discriminate; try reflexivity; congruence.
  - run. repeat split; intros; try discriminate; try reflexivity; congruence.
Qed.

Lemma startCamera_outcome_witness :
  threw (changeInstrument (Some quiet) None (initial "synth")) = false /\
  final (startCamera true (Some quiet) None false (initial "synth"))
  = final (changeInstrument (Some quiet) None (initial "synth")) /\
  cameraRunning (final (startCamera true (Some quiet) None false (initial "synth"))) = false.
Proof.
  assert (H : threw (changeInstrument (Some quiet) None (initial "synth")) = false)
    by reflexivity.
  split; [exact H|].
  destruct (startCamera_outcome true (Some quiet) None false (initial "synth"))
    as (_ & _ & _ & Hc & _).
  cbv zeta in Hc. rewrite (Hc eq_refl H). split; reflexivity.
Defined.

(** ** Frame Orchestrator: the first frame, short hands, hands that come back *)

Lemma playMusic_short (landmarks : list Landmark.t) (now now' : float) (st : State) :
  (List.length landmarks < 21)%nat ->
  playMusicFromHandPosition landmarks now now' st = Thrown st.
Proof.
  intros H. unfold playMusicFromHandPosition.
  now rewrite (calculateFingerPositions_short _ H).
Qed.

(** X14.  A frame looks at the first hand only.  When that hand has fewer than 21
    landmarks the callback throws and nothing changes, not even the frame
    remembered for comparison.  The first frame with a hand, having nothing
    to be compared with, is remembered and plays nothing, whatever the hand
    does. *)
Theorem frame_edge_cases (landmarks : list Landmark.t) (others : list (list Landmark.t))
    (now now' : float) (st : State) :
  onHandResults (landmarks :: others) now now' st = onHandResults [landmarks] now now' st /\
  ((List.length landmarks < 21)%nat ->
   onHandResults (landmarks :: others) now now' st = Thrown st) /\
  (forall positions,
      calculateFingerPositions landmarks = Some positions ->
      lastFingerPositions st = None ->
      onHandResults (landmarks :: others) now now' st
      = Returned tt (set_lastFingerPositions (Some positions) st)).
Proof.
  split; [reflexivity|]. split.
  - intros H. cbn [onHandResults]. now apply playMusic_short.
  - intros positions Hc Hl. cbn [onHandResults]. unfold playMusicFromHandPosition.
    rewrite Hc. run. rewrite Hl. reflexivity.
Qed.

Lemma frame_edge_cases_witness :
  calculateFingerPositions (hand 0.45) = Some (handPositions 0.45) /\
  lastFingerPositions (withSynth polySynth) = None /\
  onHandResults [hand 0.45; hand 0.5] 1 1 (withSynth polySynth)
  = Returned tt (set_lastFingerPositions (Some (handPositions 0.45)) (withSynth polySynth)).
Proof.
  assert (H1 : calculateFingerPositions (hand 0.45) = Some (handPositions 0.45))
    by (vm_compute; reflexivity).
  assert (H2 : lastFingerPositions (withSynth polySynth) = None) by reflexivity.
  split; [exact H1|]. split; [exact H2|].
  exact (proj2 (proj2 (frame_edge_cases (hand 0.45) [hand 0.5] 1 1 (withSynth polySynth)))
           _ H1 H2).
Defined.

Lemma notes_loop_some (movedFingers : list nat) (fingerPositions : list Finger.t) :
  (forall i, In i movedFingers -> (i < List.length fingerPositions)%nat) ->
  exists notesToPlay, notes_loop movedFingers fingerPositions [] = Some notesToPlay.
Proof.
  intros H. destruct (notes_loop movedFingers fingerPositions []) as [notes |] eqn:E;
    [now exists notes|].
  apply notes_loop_none in E. destruct E as (i & Hi & Hlen). apply H in Hi. lia.
Qed.

Lemma detect_in_range (cur last : list Finger.t) (moved : list nat) :
  detectFingerMovement cur last = Some moved ->
  forall i, In i moved -> (i < List.length cur)%nat.
Proof.
  intros H i Hi.
  destruct (Nat.lt_ge_cases (List.length cur) 5) as [L | Gc];
    [rewrite (proj2 (detect_short _ _ (or_introl L))) in H; discriminate|].
  destruct (Nat.lt_ge_cases (List.length last) 5) as [L | Gl];
    [rewrite (proj2 (detect_short _ _ (or_intror L))) in H; discriminate|].
  destruct (detect_long _ _ Gc Gl) as (palm & _ & E).
  assert (Em : moved = filter (keepsFinger (firstn 5 cur) (firstn 5 last) palm)
                              [0; 1; 2; 3; 4]%nat) by congruence.
  rewrite Em in Hi. apply filter_In in Hi. destruct Hi as [Hi _].
  cbn in Hi. lia.
Qed.

Lemma playMusic_returns (landmarks : list Landmark.t) (now now' : float) (st : State) :
  Inv st -> (21 <= List.length landmarks)%nat ->
  threw (playMusicFromHandPosition landmarks now now' st) = false.
Proof.
  intros [_ I] G.
  destruct (calculateFingerPositions_long _ G)
    as (t0 & t1 & t2 & t3 & t4 & b0 & b1 & b2 & b3 & b4 & w & H).
  destruct H as (_ & _ & _ & _ & _ & _ & _ & _ & _ & _ & _ & Hc).
  unfold playMusicFromHandPosition. rewrite Hc. run.
  set (fp := [fingerOf t0 b0 w; _; _; _; _]) in *.
  destruct (lastFingerPositions st) as [last |] eqn:El; [|reflexivity].
  destruct (detect_five fp last eq_refl (I last eq_refl)) as (palm & _ & Hd).
  destruct (detectFingerMovement fp last) as [moved |] eqn:Em; [|discriminate].
  clear Hd. run.
  destruct ((0 <? List.length moved)%nat && gt (now - lastNoteTime st) 0.1);
    [|reflexivity].
  destruct (notes_loop_some moved fp (detect_in_range _ _ _ Em)) as (notes & En).
  unfold bind. now rewrite (playNotes_spec _ _ _ _ En).
Qed.

(** X15.  In every state the program reaches, a frame callback throws only on a
    hand with fewer than 21 landmarks: with a full hand each step - the
    geometry, the detector run against the remembered frame, the pitch of
    every reported finger - is defined. *)
Theorem frame_throws_only_on_short_hand (selected : string) (st : State)
    (hands : list (list Landmark.t)) (now now' : float) :
  reachable selected st ->
  (threw (onHandResults hands now now' st) = true <->
   exists landmarks others,
     hands = landmarks :: others /\ (List.length landmarks < 21)%nat).
Proof.
  intros R. pose proof (reachable_inv _ _ R) as I.
  destruct hands as [| landmarks others].
  - rewrite onHandResults_no_hand. split; [discriminate|].
    intros (l & o & E & _). discriminate.
  - cbn [onHandResults].
    destruct (Nat.lt_ge_cases (List.length landmarks) 21) as [L | G].
    + rewrite (playMusic_short _ _ _ _ L). split; [|reflexivity].
      intros _. now exists landmarks, others.
    + rewrite (playMusic_returns _ _ _ _ I G). split; [discriminate|].
      intros (l & o & E & Hl). injection E as <- <-. lia.
Qed.

Lemma frame_throws_only_on_short_hand_witness :
  reachable "synth" sessionState /\
  threw (onHandResults [hand 0.3] 2 2 sessionState) = false /\
  threw (onHandResults [firstn 20 (hand 0.3)] 2 2 sessionState) = true.
Proof.
  assert (R : reachable "synth" sessionState)
    by (apply runInputs_reachable; constructor).
  split; [exact R|].
  pose proof (frame_throws_only_on_short_hand "synth" sessionState) as H.
  split.
  - destruct (threw (onHandResults [hand 0.3] 2 2 sessionState)) eqn:E; [|reflexivity].
    apply (H [hand 0.3] 2%float 2%float R) in E.
    destruct E as (l & o & E & Hl). injection E as <- <-. cbn in Hl. lia.
  - apply (H [firstn 20 (hand 0.3)] 2%float 2%float R).
    exists (firstn 20 (hand 0.3)), []. split; [reflexivity | cbn; lia].
Defined.

Lemma afterNoHand_keeps (st : State) :
  lastFingerPositions (afterNoHand st) = lastFingerPositions st /\
  lastNoteTime (afterNoHand st) = lastNoteTime st /\
  timers (afterNoHand st) = timers st /\
  synth (afterNoHand st) = synth st /\
  cameraRunning (afterNoHand st) = cameraRunning st.
Proof.
  unfold afterNoHand. destruct (synth st) as [s |] eqn:Es; [|now repeat split].
  destruct (isPlaying st); now repeat split.
Qed.

(** X16.  Frames without a hand forget nothing but the sounding notes: the frame
    remembered for comparison, the time of the last note and the pending
    timers survive any run of them.  So the first frame of a hand that
    comes back is compared with the last frame seen before it left, and a
    start scheduled before it left is still pending. *)
Theorem no_hand_keeps_previous_frame (n : nat) (times : nat -> float) (st : State) :
  let st' := noHandRun n times st in
  lastFingerPositions st' = lastFingerPositions st /\
  lastNoteTime st' = lastNoteTime st /\
  timers st' = timers st /\
  synth st' = synth st /\
  (forall landmarks positions lastPositions now now',
      calculateFingerPositions landmarks = Some positions ->
      lastFingerPositions st = Some lastPositions ->
      detectFingerMovement positions lastPositions = Some [] ->
      playMusicFromHandPosition landmarks now now' st'
      = Returned tt (set_lastFingerPositions (Some positions) st')).
Proof.
  cbv zeta.
  assert (H : lastFingerPositions (noHandRun n times st) = lastFingerPositions st /\
              lastNoteTime (noHandRun n times st) = lastNoteTime st /\
              timers (noHandRun n times st) = timers st /\
              synth (noHandRun n times st) = synth st).
  { revert times st. induction n as [| n IH]; intros times st; [now repeat split|].
    cbn [noHandRun]. rewrite onHandResults_no_hand. cbn [final].
    destruct (IH (fun k => times (S k)) (afterNoHand st)) as (H1 & H2 & H3 & H4).
    destruct (afterNoHand_keeps st) as (K1 & K2 & K3 & K4 & _).
    repeat split; congruence. }
  destruct H as (H1 & H2 & H3 & H4). repeat split; try assumption.
  intros landmarks positions lastPositions now now' Hc Hl Hd.
  unfold playMusicFromHandPosition. rewrite Hc. run. rewrite H1, Hl, Hd. reflexivity.
Qed.

Lemma no_hand_keeps_previous_frame_witness :
  calculateFingerPositions (hand 0.45) = Some (handPositions 0.45) /\
  lastFingerPositions sessionState = Some (handPositions 0.45) /\
  detectFingerMovement (handPositions 0.45) (handPositions 0.45) = Some [] /\
  lastFingerPositions (noHandRun 3 (fun _ => 2%float) sessionState)
  = Some (handPositions 0.45) /\
  playMusicFromHandPosition (hand 0.45) 3 3 (noHandRun 3 (fun _ => 2%float) sessionState)
  = Returned tt (set_lastFingerPositions (Some (handPositions 0.45))
                   (noHandRun 3 (fun _ => 2%float) sessionState)).
Proof.
  assert (H1 : calculateFingerPositions (hand 0.45) = Some (handPositions 0.45))
    by (vm_compute; reflexivity).
  assert (H2 : lastFingerPositions sessionState = Some (handPositions 0.45))
    by (vm_compute; reflexivity).
  assert (H3 : detectFingerMovement (handPositions 0.45) (handPositions 0.45) = Some [])
    by (vm_compute; reflexivity).
  split; [exact H1|]. split; [exact H2|]. split; [exact H3|].
  destruct (no_hand_keeps_previous_frame 3 (fun _ => 2%float) sessionState)
    as (K1 & _ & _ & _ & K5).
  split; [now rewrite K1|].
  exact (K5 (hand 0.45) (handPositions 0.45) (handPositions 0.45) 3%float 3%float H1 H2 H3).
Defined.

(** ** More invariants of the running program *)

Lemma noteForHeight_scaleNote (h : float) : scaleNote (noteForHeight currentScale h).
Proof.
  destruct (is_nan h) eqn:E.
  - left. now apply noteForHeight_nan.
  - right. now apply noteForHeight_scale.
Qed.

Lemma notes_loop_scaleNote (movedFingers : list nat) (fingerPositions : list Finger.t)
    (notesToPlay : list value) :
  notes_loop movedFingers fingerPositions [] = Some notesToPlay ->
  Forall scaleNote notesToPlay.
Proof.
  intros H. destruct (notes_loop_spec _ _ _ _ H) as (notes & -> & HF). cbn [app].
  clear H. induction HF as [| i note rest notes (position & _ & ->) _ IH]; constructor;
    [apply noteForHeight_scaleNote | exact IH].
Qed.

Lemma released_expected (s : Synth) : Forall expectedCall (released s).
Proof.
  unfold released. destruct (has_releaseAll s); [repeat constructor|].
  destruct (has_triggerRelease s); repeat constructor.
Qed.

Lemma Settled_afterRelease (st : State) : Settled st -> Settled (afterRelease st).
Proof.
  intros S. unfold afterRelease. destruct (synth st) as [s |] eqn:Es; [|exact S].
  destruct (0 <? List.length (currentNotes st))%nat; [|exact S].
  destruct S as (S1 & S2 & S3 & S4 & S5 & S6).
  unfold Settled. cbn. rewrite Es. repeat split; try congruence; try assumption.
  - constructor.
  - apply Forall_app. split; [exact S6 | apply released_expected].
Qed.

Lemma Settled_afterPlayNotes (notesToPlay : list value) (st : State) :
  Forall scaleNote notesToPlay -> Settled st -> Settled (afterPlayNotes notesToPlay st).
Proof.
  intros HF S. pose proof (Settled_afterRelease st S) as S'.
  unfold afterPlayNotes. destruct (synth st) as [s |] eqn:Es; [|exact S'].
  destruct (0 <? List.length notesToPlay)%nat eqn:El; [|exact S'].
  assert (Es' : synth (afterRelease st) = Some s)
    by (destruct (afterRelease_keeps st) as (_ & -> & _); exact Es).
  destruct S' as (S1 & S2 & S3 & S4 & S5 & S6).
  unfold Settled. cbn. rewrite Es'. repeat split; try congruence; try assumption.
  apply Forall_app. split; [exact S5|]. constructor; [|constructor].
  repeat split; [|exact HF]. intros ->. discriminate.
Qed.

Lemma Settled_frame_fields (positions : option (list Finger.t)) (st : State) :
  Settled st -> Settled (set_lastFingerPositions positions st).
Proof. intros S. exact S. Qed.

Lemma Settled_time (now : float) (st : State) :
  Settled st -> Settled (set_lastNoteTime now st).
Proof. intros S. exact S. Qed.

Lemma playMusic_settled (landmarks : list Landmark.t) (now now' : float) (st : State) :
  Settled st -> Settled (final (playMusicFromHandPosition landmarks now now' st)).
Proof.
  intros S. unfold playMusicFromHandPosition.
  destruct (calculateFingerPositions landmarks) as [fp |]; run; [|exact S].
  destruct (lastFingerPositions st) as [last |]; [|exact S].
  destruct (detectFingerMovement fp last) as [moved |]; run; [|exact S].
  destruct ((0 <? List.length moved)%nat && gt (now - lastNoteTime st) 0.1); [|exact S].
  unfold bind.
  destruct (notes_loop moved fp []) as [notes |] eqn:En.
  - rewrite (playNotes_spec _ _ _ _ En). run.
    apply Settled_frame_fields, Settled_time, Settled_afterPlayNotes; [|exact S].
    now apply (notes_loop_scaleNote moved fp).
  - rewrite (playNotes_throws _ _ _ En). cbn [final]. now apply Settled_afterRelease.
Qed.

Lemma afterNoHand_settled (st : State) : Settled st -> Settled (afterNoHand st).
Proof.
  intros S. unfold afterNoHand. destruct (synth st) as [s |] eqn:Es; [|exact S].
  destruct (isPlaying st); [|exact S].
  destruct S as (S1 & S2 & S3 & S4 & S5 & S6).
  unfold Settled. cbn. rewrite Es. repeat split; try congruence; try assumption.
  - constructor.
  - apply Forall_app. split; [exact S6 | apply released_expected].
Qed.

Lemma changeInstrument_settled (created fallbackCreated : option Behaviour) (st : State) :
  Settled st -> Settled (final (changeInstrument created fallbackCreated st)).
Proof.
  intros (S1 & S2 & S3 & S4 & S5 & S6). rewrite changeInstrument_spec. cbv zeta.
  assert (HT : Forall expectedCall
                 (trace st ++ match synth st with
                              | Some s => released s ++ [dispose]
                              | None => []
                              end)).
  { apply Forall_app. split; [exact S6|]. destruct (synth st) as [s |]; [|constructor].
    apply Forall_app. split; [apply released_expected | repeat constructor]. }
  destruct (instruments (instrumentSelect st)) as [c |];
    destruct created as [b |]; destruct fallbackCreated as [b' |]; cbn [final];
    unfold Settled; cbn;
    repeat split; try congruence; try assumption; try constructor;
    try (apply Forall_app; split; [exact S5 | repeat constructor]).
  all: match goal with
       | E : synth _ = None |- _ =>
           destruct (S1 E) as (E1 & E2 & _); rewrite ?E, ?E1, ?E2; reflexivity
       end.
Qed.

Lemma startCamera_cases (a : bool) (c f : option Behaviour) (k : bool) (st : State) :
  final (startCamera a c f k st) = st \/
  final (startCamera a c f k st) = final (changeInstrument c f st) \/
  (final (startCamera a c f k st) = set_cameraRunning true (final (changeInstrument c f st)) /\
   synth (final (changeInstrument c f st)) <> None).
Proof.
  unfold startCamera. destruct a; [|now left]. right.
  unfold tryCatch, bind.
  pose proof (changeInstrument_resets c f st) as (_ & _ & _ & Hs).
  destruct (changeInstrument c f st) as [[] st1 | st1]; cbn [final threw] in *.
  - destruct k; run; [right; split; [reflexivity | now apply Hs] | now left].
  - now left.
Qed.

Lemma startCamera_settled (a : bool) (c f : option Behaviour) (k : bool) (st : State) :
  Settled st -> Settled (final (startCamera a c f k st)).
Proof.
  intros S. destruct (startCamera_cases a c f k st) as [-> | [-> | (-> & Hs)]].
  - exact S.
  - now apply changeInstrument_settled.
  - pose proof (changeInstrument_settled c f st S) as S'. revert S' Hs.
    generalize (final (changeInstrument c f st)).
    intros st1 (S1 & S2 & S3 & S4 & S5 & S6) Hs.
    unfold Settled. cbn. repeat split; try assumption.
    all: intros; try assumption; contradiction.
Qed.

Lemma stopCamera_settled (st : State) : Settled st -> Settled (final (stopCamera st)).
Proof.
  intros (S1 & S2 & S3 & S4 & S5 & S6). rewrite stopCamera_spec.
  destruct (synth st) as [s |] eqn:Es.
  - destruct (polyphonic (class s)); cbn [final]; unfold Settled; cbn; rewrite Es;
      repeat split; try congruence; try assumption.
    apply Forall_app. split; [exact S6 | repeat constructor].
  - cbn [final]. unfold Settled. cbn. rewrite Es.
    repeat split; try congruence; try assumption; now destruct (S1 eq_refl) as (? & ? & ?).
Qed.

Lemma Forall_remove_nth {A : Type} (P : A -> Prop) (k : nat) (l : list A) :
  Forall P l -> Forall P (remove_nth k l).
Proof.
  intros H. revert k. induction H as [| a l Ha Hl IH]; intros k; [destruct k; constructor|].
  destruct k as [| k]; cbn [remove_nth]; [assumption|]. constructor; [exact Ha | apply IH].
Qed.

Lemma Forall_nth_error {A : Type} (P : A -> Prop) (k : nat) (l : list A) (a : A) :
  Forall P l -> nth_error l k = Some a -> P a.
Proof.
  intros H E. apply nth_error_In in E. rewrite Forall_forall in H. now apply H.
Qed.

Lemma startNotes_settled (notesToPlay : list value) (st : State) :
  Forall scaleNote notesToPlay -> Settled st ->
  Settled (final (startNotes notesToPlay st)).
Proof.
  intros HF S. destruct (synth st) as [s |] eqn:Es.
  - destruct S as (S1 & S2 & S3 & S4 & S5 & S6).
    destruct (attack_throws (behaviour s) (attackArg notesToPlay)) eqn:Ha.
    + rewrite (startNotes_fallback _ s _ Es Ha). cbn [final]. unfold afterFallback.
      destruct (attackRelease_throws (behaviour s) (fallbackArg notesToPlay));
        unfold Settled; cbn; rewrite ?Es; repeat split; try congruence; try assumption.
      apply Forall_app. split; [exact S6 | repeat constructor].
    + rewrite (startNotes_ok _ s _ Es Ha). cbn [final]. unfold afterStart.
      assert (HA : Forall expectedCall (trace st ++ [triggerAttack (attackArg notesToPlay)])).
      { apply Forall_app. split; [exact S6|]. constructor; [|constructor].
        unfold attackArg. cbn [expectedCall].
        destruct HF as [| v l Hv _]; [now left | exact Hv]. }
      destruct (instrumentSelect st =? "bass")%string;
        unfold Settled; cbn; rewrite ?Es; repeat split; try congruence; try assumption.
      apply Forall_app. split; [exact S5 | repeat constructor].
  - now rewrite (startNotes_no_synth _ _ Es).
Qed.

Lemma fireTimer_settled (k : nat) (running : bool) (fallback : option Behaviour) (st : State) :
  Settled st -> Settled (final (fireTimer k running fallback st)).
Proof.
  intros S. unfold fireTimer. run.
  destruct (nth_error (timers st) k) as [[delay task] |] eqn:Ek; [|exact S]. run.
  destruct (synth st) as [s |] eqn:Es;
    [|destruct S as (S1 & _); destruct (S1 Es) as (_ & Et & _); rewrite Et in Ek;
      destruct k; discriminate].
  assert (Hk : expectedTimer (delay, task))
    by (destruct S as (_ & _ & _ & _ & S5 & _); exact (Forall_nth_error _ _ _ _ S5 Ek)).
  assert (S' : Settled (set_timers (remove_nth k (timers st)) st)).
  { destruct S as (S1 & S2 & S3 & S4 & S5 & S6). unfold Settled. cbn. rewrite Es.
    repeat split; try congruence; try assumption. now apply Forall_remove_nth. }
  assert (Es' : synth (set_timers (remove_nth k (timers st)) st) = Some s) by exact Es.
  revert S' Es'. generalize (set_timers (remove_nth k (timers st)) st). intros st1 S' Es'.
  destruct task as [notesToPlay | | selectedInstrument]; cbn [runTask].
  - apply startNotes_settled; [|exact S']. now destruct Hk as (_ & _ & HF).
  - unfold autoReleaseBass. run. rewrite Es'.
    destruct (has_triggerRelease s && isPlaying st1); [|exact S'].
    destruct S' as (S1 & S2 & S3 & S4 & S5 & S6).
    unfold Settled. cbn. rewrite Es'. repeat split; try congruence; try assumption.
    apply Forall_app. split; [exact S6 | repeat constructor].
  - destruct (testNote_final selectedInstrument running fallback st1)
      as [-> | (c & -> & Hc)]; [exact S'|].
    destruct S' as (S1 & S2 & S3 & S4 & S5 & S6).
    unfold Settled. cbn. rewrite Es'. repeat split; try congruence; try assumption.
    apply Forall_app. split; [exact S6|]. constructor; [|constructor].
    destruct Hc as [-> | (arg & ->)]; [exact I | reflexivity].
Qed.

Lemma handle_settled (i : Input) (st : State) : Settled st -> Settled (final (handle i st)).
Proof.
  intros S. destruct i; cbn [handle].
  - now apply startCamera_settled.
  - now apply stopCamera_settled.
  - change (Settled (final (changeInstrument created fallbackCreated
                                             (set_instrumentSelect name st)))).
    apply changeInstrument_settled. exact S.
  - destruct multiHandLandmarks as [| landmarks others].
    + rewrite onHandResults_no_hand. now apply afterNoHand_settled.
    + now apply playMusic_settled.
  - now apply fireTimer_settled.
Qed.

Lemma reachable_settled (selected : string) (st : State) :
  reachable selected st -> Settled st.
Proof.
  induction 1 as [| i st _ IH]; [|now apply handle_settled].
  unfold Settled. cbn. repeat split; try congruence; constructor.
Qed.

(** X17.  In every state the program reaches: while no instrument has been built
    no call has been made, no timer is pending and no note is recorded; a
    running camera implies an instrument; notes are recorded only while
    [isPlaying] is set; and every pending timer carries the delay its
    callback is armed with (10 ms for a start of notes, which is never
    empty, 800 ms for the release of the bass, 500 ms for the test note). *)
Theorem reachable_state_is_settled (selected : string) (st : State) :
  reachable selected st ->
  (synth st = None ->
   trace st = [] /\ timers st = [] /\ currentNotes st = [] /\ isPlaying st = false) /\
  (cameraRunning st = true -> synth st <> None) /\
  (currentNotes st <> [] -> isPlaying st = true) /\
  (forall k delay task,
      nth_error (timers st) k = Some (delay, task) ->
      match task with
      | StartNotes notesToPlay => delay = 10 /\ notesToPlay <> []
      | AutoReleaseBass => delay = 800
      | TestNote _ => delay = 500
      end).
Proof.
  intros R. destruct (reachable_settled _ _ R) as (S1 & S2 & S3 & _ & S5 & _).
  destruct (reachable_inv _ _ R) as [I1 _].
  split; [|split; [|split]]; try assumption.
  - intros Es. destruct (S1 Es) as (H1 & H2 & H3). repeat split; try assumption.
    destruct (isPlaying st); [|reflexivity]. now destruct (I1 eq_refl).
  - intros k delay task Ek. pose proof (Forall_nth_error _ _ _ _ S5 Ek) as H.
    unfold expectedTimer in H. cbn [fst snd] in H.
    destruct task; [now destruct H as (? & ? & _) | exact H | exact H].
Qed.

Lemma reachable_state_is_settled_witness :
  reachable "synth" sessionState /\
  cameraRunning sessionState = true /\
  synth sessionState <> None /\
  currentNotes sessionState <> [] /\
  isPlaying sessionState = true.
Proof.
  assert (R : reachable "synth" sessionState)
    by (apply runInputs_reachable; constructor).
  assert (Hc : cameraRunning sessionState = true) by (vm_compute; reflexivity).
  assert (Hn : currentNotes sessionState <> []) by (vm_compute; discriminate).
  destruct (reachable_state_is_settled "synth" sessionState R) as (_ & H2 & H3 & _).
  split; [exact R|]. split; [exact Hc|]. split; [exact (H2 Hc)|].
  split; [exact Hn | exact (H3 Hn)].
Defined.

(** X18.  In every state the program reaches, every [triggerAttack] so far was
    given a single note, never an array - the branch of the deferred start
    that passes the whole list is dead - and that note is one of the
    C-major scale or [undefined]; every [triggerAttackRelease] was for an
    eighth note; and the notes recorded as sounding are notes of the scale
    (or [undefined]). *)
Theorem reachable_calls_are_expected (selected : string) (st : State) :
  reachable selected st ->
  (forall c, In c (trace st) ->
     match c with
     | triggerAttack (OneNote v) => v = undefined \/ exists s, v = str s /\ In s cMajor
     | triggerAttack (Chord _) => False
     | triggerAttackRelease _ duration => duration = "8n"
     | _ => True
     end) /\
  (forall v, In v (currentNotes st) ->
     v = undefined \/ exists s, v = str s /\ In s cMajor).
Proof.
  intros R. destruct (reachable_settled _ _ R) as (_ & _ & _ & S4 & _ & S6).
  rewrite Forall_forall in S4, S6. split.
  - intros c Hc. exact (S6 c Hc).
  - intros v Hv. exact (S4 v Hv).
Qed.

Lemma reachable_calls_are_expected_witness :
  reachable "synth" sessionState /\
  In (triggerAttack (OneNote (str "G4"))) (trace sessionState) /\
  (str "G4" = undefined \/ exists s, str "G4" = str s /\ In s cMajor).
Proof.
  assert (R : reachable "synth" sessionState)
    by (apply runInputs_reachable; constructor).
  assert (Hin : In (triggerAttack (OneNote (str "G4"))) (trace sessionState))
    by (left; vm_compute; reflexivity).
  split; [exact R|]. split; [exact Hin|].
  exact (proj1 (reachable_calls_are_expected "synth" sessionState R) _ Hin).
Defined.

(** ** Timers: nothing cancels them, and their chains end *)

Lemma remove_nth_none {A : Type} (k : nat) (l : list A) :
  nth_error l k = None -> remove_nth k l = l.
Proof.
  revert k. induction l as [| a l IH]; intros k H; [now destruct k|].
  destruct k as [| k]; [discriminate|]. cbn [remove_nth]. now rewrite IH.
Qed.

Lemma testNote_timers (selectedInstrument : string) (running : bool)
    (fallback : option Behaviour) (st : State) :
  timers (final (testNote selectedInstrument running fallback st)) = timers st.
Proof.
  now destruct (testNote_final selectedInstrument running fallback st)
    as [-> | (c & -> & _)].
Qed.

Lemma startNotes_timers (notesToPlay : list value) (st : State) :
  timers (final (startNotes notesToPlay st)) = timers st \/
  timers (final (startNotes notesToPlay st)) = timers st ++ [(800, AutoReleaseBass)].
Proof.
  destruct (synth st) as [s |] eqn:Es.
  - destruct (attack_throws (behaviour s) (attackArg notesToPlay)) eqn:Ha.
    + rewrite (startNotes_fallback _ s _ Es Ha). cbn [final]. unfold afterFallback.
      destruct (attackRelease_throws (behaviour s) (fallbackArg notesToPlay)); now left.
    + rewrite (startNotes_ok _ s _ Es Ha). cbn [final]. unfold afterStart.
      destruct (instrumentSelect st =? "bass")%string; [now right | now left].
  - rewrite (startNotes_no_synth _ _ Es). now left.
Qed.

Lemma fireTimer_timers (k : nat) (running : bool) (fallback : option Behaviour) (st : State) :
  match nth_error (timers st) k with
  | None => final (fireTimer k running fallback st) = st
  | Some (_, task) =>
      exists added,
        timers (final (fireTimer k running fallback st)) = remove_nth k (timers st) ++ added /\
        (added = [] \/
         added = [(800, AutoReleaseBass)] /\ exists notesToPlay, task = StartNotes notesToPlay)
  end.
Proof.
  unfold fireTimer. run.
  destruct (nth_error (timers st) k) as [[delay task] |]; [|reflexivity]. run.
  generalize (remove_nth k (timers st)). intros pending.
  destruct task as [notesToPlay | | selectedInstrument]; cbn [runTask].
  - destruct (startNotes_timers notesToPlay (set_timers pending st)) as [E | E];
      rewrite E; cbn [timers set_timers].
    + exists []. split; [now rewrite app_nil_r | now left].
    + eexists. split; [reflexivity|]. right. split; [reflexivity | now exists notesToPlay].
  - exists []. split; [|now left]. rewrite app_nil_r.
    unfold autoReleaseBass. run. destruct (synth st) as [s |]; [|reflexivity].
    destruct (has_triggerRelease s && isPlaying st); reflexivity.
  - exists []. split; [|now left]. rewrite app_nil_r. now rewrite testNote_timers.
Qed.

Lemma changeInstrument_timers (created fallbackCreated : option Behaviour) (st : State) :
  exists added,
    timers (final (changeInstrument created fallbackCreated st)) = timers st ++ added /\
    (List.length added <= 1)%nat.
Proof.
  rewrite changeInstrument_spec. cbv zeta.
  destruct (instruments (instrumentSelect st)) as [c |];
    destruct created as [b |]; destruct fallbackCreated as [b' |]; cbn [final];
    solve [ eexists; split; [reflexivity | cbn; lia]
          | exists []; split; [now rewrite app_nil_r | cbn; lia] ].
Qed.

Lemma playMusic_timers (landmarks : list Landmark.t) (now now' : float) (st : State) :
  exists added,
    timers (final (playMusicFromHandPosition landmarks now now' st)) = timers st ++ added /\
    (List.length added <= 1)%nat.
Proof.
  assert (Hsame : exists added : list (Z * Task),
            timers st = timers st ++ added /\ (List.length added <= 1)%nat)
    by (exists []; split; [now rewrite app_nil_r | cbn; lia]).
  assert (Hrel : timers (afterRelease st) = timers st).
  { unfold afterRelease. destruct (synth st) as [s |]; [|reflexivity].
    destruct (0 <? List.length (currentNotes st))%nat; reflexivity. }
  unfold playMusicFromHandPosition.
  destruct (calculateFingerPositions landmarks) as [fp |]; run; [|exact Hsame].
  destruct (lastFingerPositions st) as [last |]; [|exact Hsame].
  destruct (detectFingerMovement fp last) as [moved |]; run; [|exact Hsame].
  destruct ((0 <? List.length moved)%nat && gt (now - lastNoteTime st) 0.1);
    [|exact Hsame].
  unfold bind.
  destruct (notes_loop moved fp []) as [notes |] eqn:En.
  - rewrite (playNotes_spec _ _ _ _ En). run. unfold afterPlayNotes.
    destruct (synth st) as [s |]; [|now rewrite Hrel].
    destruct (0 <? List.length notes)%nat; [|now rewrite Hrel].
    cbn [timers set_timers]. rewrite Hrel. eexists. split; [reflexivity | cbn; lia].
  - rewrite (playNotes_throws _ _ _ En). cbn [final]. now rewrite Hrel.
Qed.

(** X19.  The script never clears a timer.  A click, a change of instrument or a
    frame leaves every pending timer in place and arms at most one more; a
    timer that fires is removed, the others keep their order, and the only
    callback that arms a further timer is a start of notes (the release of
    the bass, 800 ms later). *)
Theorem timers_are_never_cancelled (i : Input) (st : State) :
  match i with
  | Timer k _ _ =>
      exists added,
        timers (final (handle i st)) = remove_nth k (timers st) ++ added /\
        (added = [] \/
         added = [(800, AutoReleaseBass)] /\
         exists delay notesToPlay,
           nth_error (timers st) k = Some (delay, StartNotes notesToPlay))
  | _ =>
      exists added,
        timers (final (handle i st)) = timers st ++ added /\ (List.length added <= 1)%nat
  end.
Proof.
  assert (Hsame : exists added : list (Z * Task),
            timers st = timers st ++ added /\ (List.length added <= 1)%nat)
    by (exists []; split; [now rewrite app_nil_r | cbn; lia]).
  destruct i as [a c f k | | name c f | hands now now' | k running fallback]; cbn [handle].
  - destruct (startCamera_cases a c f k st) as [-> | [-> | (-> & _)]].
    + exact Hsame.
    + apply changeInstrument_timers.
    + apply (changeInstrument_timers c f st).
  - rewrite stopCamera_spec. destruct (synth st) as [s |]; [|exact Hsame].
    destruct (polyphonic (class s)); exact Hsame.
  - apply (changeInstrument_timers c f (set_instrumentSelect name st)).
  - destruct hands as [| landmarks others]; [|apply playMusic_timers].
    rewrite onHandResults_no_hand. cbn [final].
    destruct (afterNoHand_keeps st) as (_ & _ & -> & _). exact Hsame.
  - pose proof (fireTimer_timers k running fallback st) as H.
    destruct (nth_error (timers st) k) as [[delay task] |] eqn:Ek.
    + destruct H as (added & Ht & [-> | (-> & notes & ->)]).
      * exists []. split; [exact Ht | now left].
      * eexists. split; [exact Ht|]. right. split; [reflexivity|]. now exists delay, notes.
    + rewrite H, (remove_nth_none _ _ Ek). exists []. split; [now rewrite app_nil_r | now left].
Qed.

Lemma pendingWeight_app (l l' : list (Z * Task)) :
  pendingWeight (l ++ l') = (pendingWeight l + pendingWeight l')%nat.
Proof. unfold pendingWeight. now rewrite map_app, list_sum_app. Qed.

Lemma pendingWeight_cons (timer : Z * Task) (l : list (Z * Task)) :
  pendingWeight (timer :: l) = (taskWeight (snd timer) + pendingWeight l)%nat.
Proof. reflexivity. Qed.

Lemma pendingWeight_remove (k : nat) (l : list (Z * Task)) (delay : Z) (task : Task) :
  nth_error l k = Some (delay, task) ->
  (pendingWeight (remove_nth k l) + taskWeight task = pendingWeight l)%nat.
Proof.
  revert k. induction l as [| a l IH]; intros k H; [now destruct k|].
  destruct k as [| k]; cbn [nth_error remove_nth] in *.
  - injection H as ->. rewrite pendingWeight_cons. cbn [snd]. lia.
  - apply IH in H. rewrite !pendingWeight_cons. lia.
Qed.

Lemma fireTimer_weight (k : nat) (running : bool) (fallback : option Behaviour) (st : State) :
  (k < List.length (timers st))%nat ->
  (pendingWeight (timers (final (fireTimer k running fallback st))) < pendingWeight (timers st))%nat.
Proof.
  intros Hk. pose proof (fireTimer_timers k running fallback st) as H.
  destruct (nth_error (timers st) k) as [[delay task] |] eqn:Ek;
    [|apply nth_error_None in Ek; lia].
  pose proof (pendingWeight_remove _ _ _ _ Ek) as Hw.
  destruct H as (added & -> & [-> | (-> & notes & ->)]); rewrite pendingWeight_app.
  - change (pendingWeight []) with 0%nat. destruct task; cbn [taskWeight] in Hw; lia.
  - change (pendingWeight [(800, AutoReleaseBass)]) with 1%nat. cbn [taskWeight] in Hw. lia.
Qed.

(** X20.  Timer callbacks cannot keep each other going: however the pending
    timers are fired, the number of callbacks that run is bounded by the
    weight of the timers pending at the start (two for a start of notes,
    one for any other), less the weight of those still pending. *)
Theorem timer_chains_end (ks : list nat) (running : bool) (fallback : option Behaviour) (st st' : State) :
  fireTimers ks running fallback st = Some st' ->
  (List.length ks + pendingWeight (timers st') <= pendingWeight (timers st))%nat.
Proof.
  revert st. induction ks as [| k rest IH]; intros st H; cbn [fireTimers] in H.
  - injection H as <-. cbn. lia.
  - destruct (Nat.ltb_spec k (List.length (timers st))) as [Hk | _]; [|discriminate].
    apply IH in H. pose proof (fireTimer_weight k running fallback st Hk). cbn [List.length]. lia.
Qed.

Lemma timer_chains_end_witness :
  let st := final (playNotesForFingers [1%nat] twoFingerFrame
                     (set_instrumentSelect "bass" (withSynth bassSynth))) in
  timers st = [(10, StartNotes [str "G4"])] /\
  (exists st', fireTimers [0; 0]%nat true (Some quiet) st = Some st' /\ timers st' = []) /\
  fireTimers [0; 0; 0]%nat true (Some quiet) st = None.
Proof.
  cbv zeta.
  set (st := final (playNotesForFingers [1%nat] twoFingerFrame
                      (set_instrumentSelect "bass" (withSynth bassSynth)))).
  assert (Ht : timers st = [(10, StartNotes [str "G4"])]) by (vm_compute; reflexivity).
  split; [exact Ht|]. split.
  - destruct (fireTimers [0; 0]%nat true (Some quiet) st) as [st' |] eqn:E; [|vm_compute in E; discriminate].
    exists st'. split; [reflexivity|].
    pose proof (timer_chains_end [0; 0]%nat true (Some quiet) st st' E) as H.
    rewrite Ht in H. change (pendingWeight [(10, StartNotes [str "G4"])]) with 2%nat in H.
    destruct (timers st') as [| [d [n | | n]] l]; [reflexivity | | |];
      rewrite pendingWeight_cons in H; cbn [snd taskWeight List.length] in H; lia.
  - vm_compute. reflexivity.
Defined.

(** ** Drawing *)

Lemma color_or_not_empty (options : DrawOptions) (fallback : string) :
  fallback <> "" -> color_or options fallback <> "".
Proof.
  intros H. unfold color_or. destruct (color options) as [c |]; [|exact H].
  destruct (c =? "")%string eqn:E; [exact H|]. now apply String.eqb_neq.
Qed.

Lemma lineWidth_or_2_truthy (options : DrawOptions) : truthy (lineWidth_or_2 options) = true.
Proof.
  unfold lineWidth_or_2. destruct (lineWidth options) as [w |]; [|reflexivity].
  destruct (truthy w) eqn:E; [exact E | reflexivity].
Qed.

Lemma radius_or_4_truthy (options : DrawOptions) : truthy (radius_or_4 options) = true.
Proof.
  unfold radius_or_4. cbv zeta.
  destruct (truthy match lineWidth options with
                   | Some w => (w * 2)%float
                   | None => nan
                   end) eqn:E; [exact E | reflexivity].
Qed.

(** The calls [drawConnectors] may make, with the style it sets. *)
Lemma drawConnectors_ops (width height : float) (landmarks : list Landmark.t)
    (connections : list (nat * nat)) (options : DrawOptions) (op : CanvasOp) :
  In op (drawConnectors width height landmarks connections options) ->
  match op with
  | set_strokeStyle style => style = color_or options "white"
  | set_lineWidth w => w = lineWidth_or_2 options
  | beginPath | moveTo _ _ | lineTo _ _ | stroke => True
  | _ => False
  end.
Proof.
  induction connections as [| c rest IH]; cbn [drawConnectors]; [intros []|].
  rewrite in_app_iff. intros [H | H]; [|now apply IH].
  unfold drawConnector in H.
  destruct (nth_error landmarks (fst c)) as [from |]; [|destruct H].
  destruct (nth_error landmarks (snd c)) as [to |]; [|destruct H].
  cbn [In] in H. decompose [or] H; subst; try exact I; try reflexivity. contradiction.
Qed.

Lemma drawLandmarks_ops (width height : float) (landmarks : list Landmark.t)
    (options : DrawOptions) (op : CanvasOp) :
  In op (drawLandmarks width height landmarks options) ->
  match op with
  | set_fillStyle style => style = color_or options "red"
  | arc _ _ radius startAngle endAngle =>
      radius = radius_or_4 options /\ startAngle = 0%float /\ endAngle = (2 * Math_PI)%float
  | beginPath | fill => True
  | _ => False
  end.
Proof.
  induction landmarks as [| l rest IH]; cbn [drawLandmarks]; [intros []|].
  rewrite in_app_iff. intros [H | H]; [|now apply IH].
  cbn [In] in H. decompose [or] H; subst; try exact I; try reflexivity;
    try contradiction. now repeat split.
Qed.

Lemma drawConnector_length (width height : float) (landmarks : list Landmark.t)
    (connection : nat * nat) (options : DrawOptions) :
  List.length (drawConnector width height landmarks connection options)
  = if (fst connection <? List.length landmarks)%nat
       && (snd connection <? List.length landmarks)%nat
    then 6%nat else 0%nat.
Proof.
  unfold drawConnector.
  destruct (Nat.ltb_spec (fst connection) (List.length landmarks)) as [L1 | G1].
  - destruct (nth_error landmarks (fst connection)) as [from |] eqn:E1;
      [|apply nth_error_None in E1; lia].
    destruct (Nat.ltb_spec (snd connection) (List.length landmarks)) as [L2 | G2].
    + destruct (nth_error landmarks (snd connection)) as [to |] eqn:E2;
        [reflexivity | apply nth_error_None in E2; lia].
    + apply nth_error_None in G2. now rewrite G2.
  - apply nth_error_None in G1. now rewrite G1.
Qed.

Lemma drawConnectors_length (width height : float) (landmarks : list Landmark.t)
    (connections : list (nat * nat)) (options : DrawOptions) :
  List.length (drawConnectors width height landmarks connections options)
  = (6 * List.length
           (filter (fun c => (fst c <? List.length landmarks)%nat
                             && (snd c <? List.length landmarks)%nat) connections))%nat.
Proof.
  induction connections as [| c rest IH]; [reflexivity|].
  cbn [drawConnectors filter]. rewrite length_app, drawConnector_length, IH.
  destruct ((fst c <? List.length landmarks)%nat && (snd c <? List.length landmarks)%nat);
    cbn [List.length]; lia.
Qed.

Lemma hand_connections_in_range (landmarks : list Landmark.t) :
  (21 <= List.length landmarks)%nat ->
  filter (fun c => (fst c <? List.length landmarks)%nat
                   && (snd c <? List.length landmarks)%nat) HAND_CONNECTIONS
  = HAND_CONNECTIONS.
Proof.
  intros H. apply forallb_filter_id. apply forallb_forall. intros [a b] Hin.
  cbn [fst snd]. apply andb_true_iff.
  assert (Hab : (a < 21)%nat /\ (b < 21)%nat).
  { unfold HAND_CONNECTIONS in Hin. cbn [In] in Hin.
    decompose [or] Hin; try contradiction;
      match goal with E : (_, _) = (_, _) |- _ => injection E as <- <- end; lia. }
  split; apply Nat.ltb_lt; lia.
Qed.

(** X21.  [drawConnectors] draws one segment for every connection whose two ends
    are landmarks of the hand and skips the others: on a hand of at least 21
    landmarks all 24 entries of [HAND_CONNECTIONS] are drawn (the three
    palm segments listed twice are drawn twice), on an empty hand nothing
    is.  Each segment is stroked with the colour and the width of the
    options, or with white and 2 where an option is missing, the empty
    string, zero or NaN; the stroke style is never the empty string and the
    width never zero or NaN. *)
Theorem drawConnectors_segments (width height : float) (landmarks : list Landmark.t)
    (connections : list (nat * nat)) (options : DrawOptions) :
  let ops := drawConnectors width height landmarks connections options in
  List.length ops
  = (6 * List.length
           (filter (fun c => (fst c <? List.length landmarks)%nat
                             && (snd c <? List.length landmarks)%nat) connections))%nat /\
  (forall op, In op ops ->
     match op with
     | set_strokeStyle style => style = color_or options "white" /\ style <> ""
     | set_lineWidth w => w = lineWidth_or_2 options /\ truthy w = true
     | beginPath | moveTo _ _ | lineTo _ _ | stroke => True
     | _ => False
     end) /\
  ((21 <= List.length landmarks)%nat ->
   List.length (drawConnectors width height landmarks HAND_CONNECTIONS options) = 144%nat) /\
  drawConnectors width height [] connections options = [].
Proof.
  cbv zeta. split; [apply drawConnectors_length|]. split; [|split].
  - intros op Hin. apply drawConnectors_ops in Hin.
    destruct op; try exact Hin.
    + split; [exact Hin|]. rewrite Hin. now apply color_or_not_empty.
    + split; [exact Hin|]. rewrite Hin. apply lineWidth_or_2_truthy.
  - intros H. now rewrite drawConnectors_length, (hand_connections_in_range _ H).
  - induction connections as [| c rest IH]; [reflexivity|].
    cbn [drawConnectors]. rewrite IH. unfold drawConnector. now destruct (fst c).
Qed.

Lemma drawConnectors_segments_witness :
  (21 <= List.length (hand 0.45))%nat /\
  List.length (drawConnectors 640 480 (hand 0.45) HAND_CONNECTIONS
                 {| color := Some "#00FF00"; lineWidth := Some 5%float |}) = 144%nat.
Proof.
  assert (H : (21 <= List.length (hand 0.45))%nat) by (cbn; lia).
  split; [exact H|].
  exact (proj1 (proj2 (proj2 (drawConnectors_segments 640 480 (hand 0.45) []
                                {| color := Some "#00FF00"; lineWidth := Some 5%float |})))
           H).
Defined.

Lemma drawLandmarks_length (width height : float) (landmarks : list Landmark.t)
    (options : DrawOptions) :
  List.length (drawLandmarks width height landmarks options)
  = (4 * List.length landmarks)%nat.
Proof.
  induction landmarks as [| l rest IH]; [reflexivity|].
  cbn [drawLandmarks List.length app]. rewrite IH. lia.
Qed.

(** X22.  [drawLandmarks] draws one full circle per landmark, in the order of the
    landmarks, centred on the landmark scaled to the canvas.  The radius is
    twice the line width of the options, or 4 when that product is zero or
    NaN (no width given): it is never zero or NaN.  As [onHandResults] calls
    it, with a width of 2, the radius is the default 4 all the same. *)
Theorem drawLandmarks_dots (width height : float) (landmarks : list Landmark.t)
    (options : DrawOptions) :
  let ops := drawLandmarks width height landmarks options in
  List.length ops = (4 * List.length landmarks)%nat /\
  (forall i landmark,
      nth_error landmarks i = Some landmark ->
      nth_error ops (4 * i + 1)
      = Some (arc (Landmark.x landmark * width)%float (Landmark.y landmark * height)%float
                  (radius_or_4 options) 0%float (2 * Math_PI)%float)) /\
  truthy (radius_or_4 options) = true /\
  (lineWidth options = None -> radius_or_4 options = 4%float) /\
  radius_or_4 {| color := Some "#FF0000"; lineWidth := Some 2%float |} = 4%float.
Proof.
  cbv zeta. split; [apply drawLandmarks_length|]. split; [|split; [|split]].
  - induction landmarks as [| l rest IH]; intros i landmark H; [now destruct i|].
    destruct i as [| i]; cbn [nth_error] in H.
    + injection H as ->. reflexivity.
    + replace (4 * S i + 1)%nat with (4 + (4 * i + 1))%nat by lia.
      cbn [drawLandmarks app]. cbn [Nat.add nth_error]. now apply IH.
  - apply radius_or_4_truthy.
  - intros H. unfold radius_or_4. now rewrite H.
  - reflexivity.
Qed.

Lemma drawLandmarks_dots_witness :
  nth_error (hand 0.45) 8 = Some (point 0.4 0.45) /\
  nth_error (drawLandmarks 640 480 (hand 0.45)
               {| color := Some "#FF0000"; lineWidth := Some 2%float |}) 33
  = Some (arc (0.4 * 640) (0.45 * 480) 4 0 (2 * Math_PI))%float.
Proof.
  assert (H : nth_error (hand 0.45) 8 = Some (point 0.4 0.45)) by reflexivity.
  split; [exact H|].
  exact (proj1 (proj2 (drawLandmarks_dots 640 480 (hand 0.45)
                         {| color := Some "#FF0000"; lineWidth := Some 2%float |}))
           8%nat _ H).
Defined.

Lemma drawHand_no_restore (width height : float) (landmarks : list Landmark.t) :
  ~ In restore (drawHand width height landmarks).
Proof.
  unfold drawHand. rewrite in_app_iff. intros [H | H].
  - apply drawConnectors_ops in H. exact H.
  - apply drawLandmarks_ops in H. exact H.
Qed.

Lemma drawHands_no_restore (width height : float) (hands : list (list Landmark.t)) :
  ~ In restore (flat_map (drawHand width height) hands).
Proof.
  rewrite in_flat_map. intros (landmarks & _ & H). now apply drawHand_no_restore in H.
Qed.

(** X23.  The frame callback saves the canvas state first and restores it last -
    unless it throws in between: in a state the program reaches, [restore]
    is called exactly when the first hand, if there is one, has at least 21
    landmarks.  A short hand is still drawn, as far as its landmarks go,
    before the callback throws.  A frame with one full hand makes 3 calls
    for the video frame, 144 for the 24 segments, 4 for each landmark, and
    the [restore]. *)
Theorem canvas_restore_skipped_on_short_hand (selected : string) (st : State)
    (width height : float) (hands : list (list Landmark.t)) (now now' : float) :
  reachable selected st ->
  let ops := onHandResults_canvas width height hands now now' st in
  hd_error ops = Some save /\
  (In restore ops <->
   forall landmarks others, hands = landmarks :: others ->
                            (21 <= List.length landmarks)%nat) /\
  (forall landmarks others,
      hands = landmarks :: others -> (List.length landmarks < 21)%nat ->
      ops = [save; clearRect 0 0 width height; drawImage 0 0 width height]
            ++ flat_map (drawHand width height) hands) /\
  (forall landmarks,
      hands = [landmarks] -> (21 <= List.length landmarks)%nat ->
      List.length ops = (3 + 144 + 4 * List.length landmarks + 1)%nat /\
      last ops save = restore).
Proof.
  intros R ops. pose proof (reachable_inv _ _ R) as I.
  split; [reflexivity|]. split; [|split].
  - unfold ops, onHandResults_canvas. rewrite !in_app_iff.
    destruct hands as [| landmarks others].
    + rewrite onHandResults_no_hand. cbn [threw]. split.
      * intros _ l o E. discriminate.
      * intros _. right. right. now left.
    + cbn [onHandResults].
      destruct (Nat.lt_ge_cases (List.length landmarks) 21) as [L | G].
      * rewrite (playMusic_short _ _ _ _ L). cbn [threw]. split.
        -- intros [H | [H | []]].
           ++ cbn [In] in H. decompose [or] H; try discriminate. contradiction.
           ++ now apply drawHands_no_restore in H.
        -- intros H. specialize (H landmarks others eq_refl). lia.
      * rewrite (playMusic_returns _ _ _ _ I G). split.
        -- intros _ l o E. injection E as <- <-. exact G.
        -- intros _. right. right. now left.
  - intros landmarks others -> L. unfold ops, onHandResults_canvas. cbn [onHandResults].
    rewrite (playMusic_short _ _ _ _ L). cbn [threw]. now rewrite app_nil_r.
  - intros landmarks -> G. unfold ops, onHandResults_canvas. cbn [onHandResults].
    rewrite (playMusic_returns _ _ _ _ I G). cbn [flat_map]. rewrite app_nil_r.
    split.
    + rewrite !length_app. unfold drawHand.
      rewrite length_app, drawLandmarks_length, drawConnectors_length,
        (hand_connections_in_range _ G).
      cbn [List.length HAND_CONNECTIONS]. lia.
    + rewrite !app_assoc. apply last_last.
Qed.

Lemma canvas_restore_skipped_on_short_hand_witness :
  reachable "synth" sessionState /\
  In restore (onHandResults_canvas 640 480 [hand 0.3] 2 2 sessionState) /\
  List.length (onHandResults_canvas 640 480 [hand 0.3] 2 2 sessionState) = 232%nat.
Proof.
  assert (R : reachable "synth" sessionState)
    by (apply runInputs_reachable; constructor).
  split; [exact R|].
  destruct (canvas_restore_skipped_on_short_hand "synth" sessionState 640 480 [hand 0.3]
              2 2 R) as (_ & Hr & _ & Hl).
  assert (G : (21 <= List.length (hand 0.3))%nat) by (cbn; lia).
  split.
  - apply Hr. intros l o E. injection E as <- <-. exact G.
  - destruct (Hl (hand 0.3) eq_refl G) as [H _]. exact H.
Defined.

(** ** The scales *)

Lemma noteForHeight_in_scale (scale : list string) (h : float) :
  List.length scale = 8%nat -> is_nan h = false ->
  exists s, noteForHeight scale h = str s /\ In s scale.
Proof.
  intros Hlen Hn. unfold noteForHeight.
  pose proof (pitch_index_spec h Hn) as Hidx.
  rewrite <- (clampedNoteIndex_eight scale h Hlen) in Hidx.
  pose proof (clampZ_range (8 * Fval h / unit1074)) as Hr.
  destruct (array_get_in_range scale _ _ Hidx) as (s & Hs & Hg); [rewrite Hlen; lia|].
  exists s. split; [exact Hg|]. now apply nth_error_In in Hs.
Qed.

(** X24.  Every scale of [scales] has eight notes, so on any of them - not only on
    C major, the one the script uses - a height that is a number is mapped
    to a note of the scale, at the position it has on C major. *)
Theorem every_scale_maps_in_range (name : string) (scale : list string) (h : float) :
  In (name, scale) scales -> is_nan h = false ->
  List.length scale = 8%nat /\
  (exists s, noteForHeight scale h = str s /\ In s scale) /\
  clampedNoteIndex scale h = clampedNoteIndex currentScale h.
Proof.
  intros Hin Hn.
  assert (Hlen : List.length scale = 8%nat).
  { unfold scales in Hin. cbn [In] in Hin.
    decompose [or] Hin; try contradiction;
      match goal with E : (_, _) = (_, _) |- _ => injection E as _ <- end; reflexivity. }
  split; [exact Hlen|]. split; [now apply noteForHeight_in_scale|].
  now rewrite (clampedNoteIndex_eight scale h Hlen),
    (clampedNoteIndex_eight currentScale h eq_refl).
Qed.

Lemma every_scale_maps_in_range_witness :
  In ("aMinor", aMinor) scales /\ is_nan 0.55%float = false /\
  exists s, noteForHeight aMinor 0.55%float = str s /\ In s aMinor.
Proof.
  assert (H1 : In ("aMinor", aMinor) scales) by (do 4 right; left; reflexivity).
  assert (H2 : is_nan 0.55%float = false) by reflexivity.
  split; [exact H1|]. split; [exact H2|].
  exact (proj1 (proj2 (every_scale_maps_in_range "aMinor" aMinor 0.55%float H1 H2))).
Defined.

(** ** Debug panel *)

Lemma playMusic_records (landmarks : list Landmark.t) (now now' : float) (st : State)
    (fingerPositions : list Finger.t) :
  calculateFingerPositions landmarks = Some fingerPositions ->
  threw (playMusicFromHandPosition landmarks now now' st) = false ->
  lastFingerPositions (final (playMusicFromHandPosition landmarks now now' st))
  = Some fingerPositions.
Proof.
  intros Hc. unfold playMusicFromHandPosition. rewrite Hc. run.
  destruct (lastFingerPositions st) as [last |]; [|reflexivity].
  destruct (detectFingerMovement fingerPositions last) as [moved |]; run; [|discriminate].
  destruct ((0 <? List.length moved)%nat && gt (now - lastNoteTime st) 0.1);
    [|reflexivity].
  unfold bind.
  destruct (notes_loop moved fingerPositions []) as [notes |] eqn:En.
  - rewrite (playNotes_spec _ _ _ _ En). reflexivity.
  - rewrite (playNotes_throws _ _ _ En). discriminate.
Qed.

Lemma extensionChangeOf_same (p : Finger.t) :
  extensionChangeOf p p = 0%float \/ extensionChangeOf p p = nan.
Proof.
  unfold extensionChangeOf.
  destruct (float_sub_self (Finger.extension p)) as [-> | ->]; [left | right]; reflexivity.
Qed.

Lemma debug_loop_same (indices : list nat) (fingerPositions : list Finger.t)
    (shown : list (float * float)) :
  (forall i, In i indices -> (i < List.length fingerPositions)%nat) ->
  exists added,
    debug_loop indices fingerPositions fingerPositions shown = Some (shown ++ added) /\
    List.length added = List.length indices /\
    forall movement extensionChange,
      In (movement, extensionChange) added ->
      (movement = 0%float \/ movement = nan) /\
      (extensionChange = 0%float \/ extensionChange = nan).
Proof.
  revert shown. induction indices as [| i rest IH]; intros shown H; cbn [debug_loop].
  - exists []. split; [now rewrite app_nil_r|]. split; [reflexivity | intros m e []].
  - destruct (nth_error fingerPositions i) as [p |] eqn:E;
      [|apply nth_error_None in E; specialize (H i (or_introl eq_refl)); lia].
    cbv zeta.
    destruct (IH (shown ++ [(tipDistance p p, extensionChangeOf p p)])) as (added & -> & Hl & Hm);
      [intros j Hj; apply H; now right|].
    exists ((tipDistance p p, extensionChangeOf p p) :: added).
    split; [now rewrite <- app_assoc|]. split; [cbn; now rewrite Hl|].
    intros m e [Heq | Hin]; [|now apply Hm].
    injection Heq as <- <-. split; [apply tipDistance_same | apply extensionChangeOf_same].
Qed.

(** X25.  The debug panel never shows a movement.  [playMusicFromHandPosition]
    stores the new frame in [lastFingerPositions] before it calls
    [updateDebugInfo], which compares the frame it is given with
    [lastFingerPositions]: with itself.  Whatever the hand did, the five
    movements and the five extension changes shown are zero (NaN where a
    coordinate is not a finite number). *)
Theorem debug_panel_shows_no_movement (landmarks : list Landmark.t) (now now' : float)
    (st : State) (fingerPositions : list Finger.t) :
  calculateFingerPositions landmarks = Some fingerPositions ->
  threw (playMusicFromHandPosition landmarks now now' st) = false ->
  let st' := final (playMusicFromHandPosition landmarks now now' st) in
  lastFingerPositions st' = Some fingerPositions /\
  exists shown,
    updateDebugInfo fingerPositions st' = Some shown /\
    List.length shown = 5%nat /\
    forall movement extensionChange,
      In (movement, extensionChange) shown ->
      (movement = 0%float \/ movement = nan) /\
      (extensionChange = 0%float \/ extensionChange = nan).
Proof.
  intros Hc Ht st'. pose proof (playMusic_records _ _ _ _ _ Hc Ht) as Hl.
  split; [exact Hl|]. unfold updateDebugInfo, st'. rewrite Hl.
  pose proof (calculateFingerPositions_length _ _ Hc) as Hlen.
  destruct (debug_loop_same [0; 1; 2; 3; 4]%nat fingerPositions [])
    as (added & Hd & Ha & Hm); [intros i Hi; cbn in Hi; lia|].
  exists added. split; [exact Hd|]. split; [exact Ha | exact Hm].
Qed.

Lemma debug_panel_shows_no_movement_witness :
  calculateFingerPositions (hand 0.45) = Some (handPositions 0.45) /\
  threw (playMusicFromHandPosition (hand 0.45) 1.2 1.2 watching) = false /\
  detectFingerMovement (handPositions 0.45) (handPositions 0.5) = Some [1%nat] /\
  updateDebugInfo (handPositions 0.45)
    (final (playMusicFromHandPosition (hand 0.45) 1.2 1.2 watching))
  = Some [(0, 0); (0, 0); (0, 0); (0, 0); (0, 0)]%float.
Proof.
  assert (H1 : calculateFingerPositions (hand 0.45) = Some (handPositions 0.45))
    by (vm_compute; reflexivity).
  assert (H2 : threw (playMusicFromHandPosition (hand 0.45) 1.2 1.2 watching) = false)
    by (vm_compute; reflexivity).
  split; [exact H1|]. split; [exact H2|]. split; [vm_compute; reflexivity|].
  destruct (debug_panel_shows_no_movement (hand 0.45) 1.2 1.2 watching
              (handPositions 0.45) H1 H2) as (_ & shown & Hs & _).
  rewrite Hs. vm_compute in Hs. symmetry. exact Hs.
Defined.

(** ** Starts that are pending when something else happens *)

Lemma fire_start (k : nat) (delay : Z) (notesToPlay : list value) (s : Synth)
    (running : bool) (fallback : option Behaviour) (st : State) :
  synth st = Some s ->
  nth_error (timers st) k = Some (delay, StartNotes notesToPlay) ->
  attack_throws (behaviour s) (OneNote (hd undefined notesToPlay)) = false ->
  let st' := final (fireTimer k running fallback st) in
  isPlaying st' = true /\ currentNotes st' = notesToPlay /\
  trace st' = trace st ++ [triggerAttack (OneNote (hd undefined notesToPlay))] /\
  synth st' = Some s.
Proof.
  intros Es Hk Ha. unfold fireTimer. run. rewrite Hk. run. cbn [runTask].
  set (st0 := set_timers _ st).
  assert (Es0 : synth st0 = Some s) by exact Es.
  rewrite (startNotes_ok _ s st0 Es0 Ha). cbn [final]. unfold afterStart.
  destruct (instrumentSelect st0 =? "bass")%string; repeat split; exact Es.
Qed.

(** X26.  A start of notes that is pending when the instrument is changed is
    not cancelled: [changeInstrument] resets [isPlaying] and [currentNotes],
    and the timer, firing afterwards, starts its first note on the new
    voice and records the old gesture's notes as playing. *)
Theorem start_pending_at_instrument_change (k : nat) (delay : Z)
    (notesToPlay : list value) (name : string) (c : ToneClass) (b : Behaviour)
    (f : option Behaviour) (st : State) (running : bool) (fallback : option Behaviour) :
  nth_error (timers st) k = Some (delay, StartNotes notesToPlay) ->
  instruments name = Some c ->
  attack_throws b (OneNote (hd undefined notesToPlay)) = false ->
  let st1 := final (handle (SelectInstrument name (Some b) f) st) in
  let st2 := final (fireTimer k running fallback st1) in
  isPlaying st1 = false /\ currentNotes st1 = [] /\
  synth st1 = Some {| class := c; behaviour := b |} /\
  isPlaying st2 = true /\ currentNotes st2 = notesToPlay /\
  trace st2 = trace st1 ++ [triggerAttack (OneNote (hd undefined notesToPlay))].
Proof.
  intros Hk Ei Ha st1 st2.
  assert (H1 : isPlaying st1 = false /\ currentNotes st1 = [] /\
               synth st1 = Some {| class := c; behaviour := b |} /\
               timers st1 = timers st ++ [(500, TestNote name)]).
  { unfold st1. rewrite select_spec, changeInstrument_spec.
    cbn [instrumentSelect set_instrumentSelect]. rewrite Ei. now repeat split. }
  destruct H1 as (Hp & Hc & Hs & Ht).
  assert (Hk1 : nth_error (timers st1) k = Some (delay, StartNotes notesToPlay)).
  { rewrite Ht, nth_error_app1; [exact Hk|]. apply nth_error_Some. congruence. }
  destruct (fire_start k delay notesToPlay _ running fallback st1 Hs Hk1 Ha) as (F1 & F2 & F3 & _).
  now repeat split.
Qed.

Lemma start_pending_at_instrument_change_witness :
  let st := final (playNotesForFingers [1%nat] twoFingerFrame (withSynth polySynth)) in
  nth_error (timers st) 0 = Some (10, StartNotes [str "G4"]) /\
  instruments "bass" = Some MonoSynth /\
  attack_throws quiet (OneNote (hd undefined [str "G4"])) = false /\
  (let st1 := final (handle (SelectInstrument "bass" (Some quiet) None) st) in
   isPlaying st1 = false /\
   isPlaying (final (fireTimer 0 true (Some quiet) st1)) = true /\
   trace (final (fireTimer 0 true (Some quiet) st1))
   = trace st1 ++ [triggerAttack (OneNote (str "G4"))]).
Proof.
  cbv zeta.
  set (st := final (playNotesForFingers [1%nat] twoFingerFrame (withSynth polySynth))).
  assert (H1 : nth_error (timers st) 0 = Some (10, StartNotes [str "G4"]))
    by (vm_compute; reflexivity).
  assert (H2 : instruments "bass" = Some MonoSynth) by reflexivity.
  assert (H3 : attack_throws quiet (OneNote (hd undefined [str "G4"])) = false)
    by reflexivity.
  split; [exact H1|]. split; [exact H2|]. split; [exact H3|].
  destruct (start_pending_at_instrument_change 0 10 [str "G4"] "bass" MonoSynth quiet
              None st true (Some quiet) H1 H2 H3) as (Hp & _ & _ & Hp2 & _ & Ht).
  split; [exact Hp|]. split; [exact Hp2 | exact Ht].
Defined.

(** X27.  A start of notes that is pending when the hand leaves the frame is
    not cancelled either: the frame without a hand stops what is sounding,
    the timer then starts the notes with no hand in view, and they sound
    until the next frame without a hand stops them. *)
Theorem start_pending_when_hand_leaves (k : nat) (delay : Z) (notesToPlay : list value)
    (s : Synth) (st : State) (running : bool) (fallback : option Behaviour) (now now' later later' : float) :
  synth st = Some s ->
  nth_error (timers st) k = Some (delay, StartNotes notesToPlay) ->
  attack_throws (behaviour s) (OneNote (hd undefined notesToPlay)) = false ->
  let st1 := final (onHandResults [] now now' st) in
  let st2 := final (fireTimer k running fallback st1) in
  let st3 := final (onHandResults [] later later' st2) in
  isPlaying st1 = false /\
  isPlaying st2 = true /\ currentNotes st2 = notesToPlay /\
  trace st2 = trace st1 ++ [triggerAttack (OneNote (hd undefined notesToPlay))] /\
  isPlaying st3 = false /\ currentNotes st3 = [] /\
  trace st3 = trace st2 ++ (if polyphonic (class s) then [releaseAll] else [triggerRelease]).
Proof.
  intros Es Hk Ha st1 st2 st3.
  assert (H1 : isPlaying st1 = false /\ synth st1 = Some s /\ timers st1 = timers st).
  { unfold st1. rewrite onHandResults_no_hand. cbn [final]. unfold afterNoHand.
    rewrite Es. destruct (isPlaying st) eqn:Ep; now repeat split. }
  destruct H1 as (Hp1 & Es1 & Ht1).
  assert (Hk1 : nth_error (timers st1) k = Some (delay, StartNotes notesToPlay))
    by (now rewrite Ht1).
  destruct (fire_start k delay notesToPlay s running fallback st1 Es1 Hk1 Ha)
    as (F1 & F2 & F3 & F4).
  fold st2 in F1, F2, F3, F4.
  split; [exact Hp1|]. split; [exact F1|]. split; [exact F2|]. split; [exact F3|].
  unfold st3. rewrite onHandResults_no_hand. cbn [final]. unfold afterNoHand.
  rewrite F4, F1. now repeat split.
Qed.

Lemma start_pending_when_hand_leaves_witness :
  let st := final (playNotesForFingers [1%nat] twoFingerFrame (withSynth polySynth)) in
  synth st = Some polySynth /\
  nth_error (timers st) 0 = Some (10, StartNotes [str "G4"]) /\
  attack_throws (behaviour polySynth) (OneNote (hd undefined [str "G4"])) = false /\
  (let st2 := final (fireTimer 0 true (Some quiet) (final (onHandResults [] 2 2 st))) in
   isPlaying st2 = true /\
   isPlaying (final (onHandResults [] 3 3 st2)) = false).
Proof.
  cbv zeta.
  set (st := final (playNotesForFingers [1%nat] twoFingerFrame (withSynth polySynth))).
  assert (H1 : synth st = Some polySynth) by (vm_compute; reflexivity).
  assert (H2 : nth_error (timers st) 0 = Some (10, StartNotes [str "G4"]))
    by (vm_compute; reflexivity).
  assert (H3 : attack_throws (behaviour polySynth) (OneNote (hd undefined [str "G4"]))
               = false) by reflexivity.
  split; [exact H1|]. split; [exact H2|]. split; [exact H3|].
  destruct (start_pending_when_hand_leaves 0 10 [str "G4"] polySynth st true (Some quiet) 2 2 3 3
              H1 H2 H3) as (_ & Hp2 & _ & _ & Hp3 & _).
  split; [exact Hp2 | exact Hp3].
Defined.
